(** * A retrieval-augmented chatbot with conversation memory

    Shallow embedding of the two notebooks of the repository:
    [chatbot.ipynb] (chunker, TF-IDF index, retriever, responder) and
    [conversation.ipynb] (the same core plus the list-based and the
    TTL-cache-based conversation memory).

    Python values are modelled as follows.  A [str] is a [string]; [len]
    counts its characters, so the model speaks about ASCII text.  An [int]
    is a [Z].  A [float] similarity score is a rational [Q]: the scores are
    finite products and sums of finite weights, and only their order
    matters.  A Python list is a [list].  Module-level variables live in
    the record [Globals]; a function that reads or writes them, or that
    may raise, is a computation in the monad [M], which keeps the writes
    made before an exception is raised, as Python does. *)

From Stdlib Require Import List String Ascii ZArith QArith Lia Bool Arith.
From Stdlib Require Import Permutation Sorted.
Import ListNotations.

Local Close Scope Q_scope.
Local Open Scope nat_scope.
Local Open Scope string_scope.
Local Open Scope list_scope.

(** Python's [+] on strings; [++] is kept for lists. *)
Infix "+++" := String.append (right associativity, at level 60).

(** ** Python built-ins used by the notebooks *)

Module Py.

Definition len (s : string) : nat := String.length s.

(** [str.isspace] on one ASCII character. *)
Definition isspace (c : ascii) : bool :=
  let n := nat_of_ascii c in
  (Nat.leb 9 n && Nat.leb n 13) || (Nat.leb 28 n && Nat.leb n 32).

Definition snoc (s : string) (c : ascii) : string :=
  s +++ String c EmptyString.

(** [s.split()]: maximal runs of non-whitespace characters. *)
Fixpoint split_from (cur : option string) (s : string) : list string :=
  match s with
  | EmptyString => match cur with Some w => [w] | None => [] end
  | String c s' =>
      if isspace c then
        match cur with
        | Some w => w :: split_from None s'
        | None => split_from None s'
        end
      else
        match cur with
        | Some w => split_from (Some (snoc w c)) s'
        | None => split_from (Some (String c EmptyString)) s'
        end
  end.

Definition split (s : string) : list string := split_from None s.

(** [sep.join(parts)]. *)
Fixpoint join (sep : string) (parts : list string) : string :=
  match parts with
  | [] => ""
  | [p] => p
  | p :: rest => p +++ sep +++ join sep rest
  end.

(** [s.lstrip()], [s.rstrip()] and [s.strip()]. *)
Fixpoint lstrip (s : string) : string :=
  match s with
  | EmptyString => EmptyString
  | String c s' => if isspace c then lstrip s' else s
  end.

Fixpoint rstrip (s : string) : string :=
  match s with
  | EmptyString => EmptyString
  | String c s' =>
      match rstrip s' with
      | EmptyString => if isspace c then EmptyString else String c EmptyString
      | r => String c r
      end
  end.

Definition strip (s : string) : string := rstrip (lstrip s).

(** [s.split('.')[-1]]: the text after the last dot, the whole of [s]
    when it has none. *)
Fixpoint after_last_dot (acc s : string) : string :=
  match s with
  | EmptyString => acc
  | String c s' =>
      if Ascii.eqb c "."%char then after_last_dot EmptyString s'
      else after_last_dot (snoc acc c) s'
  end.

Definition split_dot_last (s : string) : string := after_last_dot "" s.

(** [xs[-n:]] for an integer [n]: the slice starts at [-n], a negative
    start counts from the end, and the start is clamped to [0, len xs]. *)
Definition slice_from_neg {A} (xs : list A) (n : Z) : list A :=
  let size := Z.of_nat (List.length xs) in
  let start := (- n)%Z in
  let start := if (start <? 0)%Z then Z.max 0 (start + size) else Z.min start size in
  skipn (Z.to_nat start) xs.

(** [xs[i]] for a non-negative index. *)
Definition getitem {A} (xs : list A) (i : nat) : option A := nth_error xs i.

Definition nl : string := String (ascii_of_nat 10) EmptyString.

End Py.

(** ** Exceptions and the monad of the notebook's functions *)

Inductive exn : Type :=
| NotFittedError      (* sklearn: the vectorizer was never fitted *)
| AttributeError      (* [vectors] is [None] and has no [.T] *)
| IndexError          (* list or array index out of range *)
| ValueError (msg : string)
| FileNotFoundError
| UpstreamError.      (* the text-generation service failed *)

Inductive result (A : Type) : Type :=
| Ok (a : A)
| Raise (e : exn).

Arguments Ok {A} a.
Arguments Raise {A} e.

Definition is_ok {A} (r : result A) : bool :=
  match r with Ok _ => true | Raise _ => false end.

(** ** Numeric data of the index *)

(** A matrix with [n_cols] columns, one list of scores per row; sklearn
    returns sparse matrices, whose row count is the number of texts and
    whose column count is the size of the fitted vocabulary. *)
Record matrix : Type := Matrix { n_cols : nat; rows : list (list Q) }.

(** A fitted term-weighting model: the size of its vocabulary and the
    weight vector it assigns to a text. *)
Record Fitted : Type := MkFitted { n_features : nat; weights : string -> list Q }.

Definition transform (f : Fitted) (texts : list string) : matrix :=
  Matrix (n_features f) (map (weights f) texts).

Fixpoint dot (u v : list Q) : Q :=
  match u, v with
  | a :: u', b :: v' => (a * b + dot u' v')%Q
  | _, _ => 0%Q
  end.

(** [(q * v.T).toarray()]: scipy refuses the product when the column
    counts differ. *)
Definition mat_mul_T (q v : matrix) : result (list (list Q)) :=
  if Nat.eqb (n_cols q) (n_cols v)
  then Ok (map (fun qr => map (dot qr) (rows v)) (rows q))
  else Raise (ValueError "dimension mismatch").

(** [row.argsort()]: the indices of [row] in ascending order of value.
    The model inserts each index after the indices whose value is less
    or equal, so equal values keep their index order (numpy's default
    sort promises the ascending order only). *)
Fixpoint insert_index (row : list Q) (i : nat) (sorted : list nat) : list nat :=
  match sorted with
  | [] => [i]
  | j :: rest =>
      if Qle_bool (nth j row 0%Q) (nth i row 0%Q)
      then j :: insert_index row i rest
      else i :: j :: rest
  end.

Definition argsort (row : list Q) : list nat :=
  fold_left (fun sorted i => insert_index row i sorted) (seq 0 (List.length row)) [].

(** ** Conversation entries and the TTL cache *)

(** A conversation entry is a dict; the list-based memory stores three
    keys, the cache-based one adds ["timestamp"]. *)
Record Entry : Type := MkEntry {
  user_input : string;
  search_result_context : string;
  llm_response : string;
  timestamp : option string
}.

(** cachetools' [TTLCache]: the links in insertion order, each with the
    timer value at which it expires.  Every value has size 1.  The timer
    ([time.monotonic], in seconds) is read as an integer, a clock of fixed
    resolution; [ttl] is in the same unit. *)
Module TTL.

Record Link : Type := MkLink { key : string; expires : Z; value : Entry }.

Record TTLCache : Type := MkCache { maxsize : Z; ttl : Z; links : list Link }.

Definition empty (maxsize ttl : Z) : TTLCache := MkCache maxsize ttl [].

Definition live (time : Z) (l : Link) : bool := (time <? expires l)%Z.

(** [expire(time)]: unlink from the front while the front has expired. *)
Fixpoint drop_expired (time : Z) (ls : list Link) : list Link :=
  match ls with
  | [] => []
  | l :: rest => if live time l then ls else drop_expired time rest
  end.

Definition expire (time : Z) (c : TTLCache) : TTLCache :=
  MkCache (maxsize c) (ttl c) (drop_expired time (links c)).

Definition has_key (k : string) (ls : list Link) : bool :=
  existsb (fun l => String.eqb (key l) k) ls.

Definition remove_key (k : string) (ls : list Link) : list Link :=
  filter (fun l => negb (String.eqb (key l) k)) ls.

(** [while currsize + 1 > maxsize: popitem()], every [popitem] removing
    the front link. *)
Fixpoint evict (maxsize : Z) (ls : list Link) (fuel : nat) {struct fuel}
  : list Link :=
  match fuel with
  | O => ls
  | S fuel' =>
      if (Z.of_nat (List.length ls) + 1 >? maxsize)%Z
      then match ls with
           | [] => []
           | _ :: rest => evict maxsize rest fuel'
           end
      else ls
  end.

(** The links that [cache[k] = v] keeps in front of the new one: after
    the sweep, the old link under [k] is unlinked when there is one;
    otherwise room is made for one more value. *)
Definition kept (time : Z) (k : string) (c : TTLCache) : list Link :=
  let ls := drop_expired time (links c) in
  if has_key k ls then remove_key k ls
  else evict (maxsize c) ls (List.length ls).

(** [cache[k] = v] at timer value [time]: sweep, refuse a value larger
    than the cache, then link the value at the end with a new expiry. *)
Definition setitem (time : Z) (k : string) (v : Entry) (c : TTLCache)
  : result unit * TTLCache :=
  if (1 >? maxsize c)%Z then (Raise (ValueError "value too large"), expire time c)
  else (Ok tt, MkCache (maxsize c) (ttl c)
                 (kept time k c ++ [MkLink k (time + ttl c) v])).

(** The values that iterating over [cache.values()] yields at timer
    value [time]: expired links are skipped.  The iteration itself
    unlinks nothing; [len(cache)] does, see [snapshot]. *)
Definition values (time : Z) (c : TTLCache) : list Entry :=
  map value (filter (live time) (links c)).

Definition keys (time : Z) (c : TTLCache) : list string :=
  map key (filter (live time) (links c)).

End TTL.

(** ** External collaborators

    The notebooks call nltk, scikit-learn, the file readers and the Cohere
    client.  Their results are taken as given: one instance of this class
    is one choice of sentence splitter, stemmer, term-weighting fit, file
    contents and text-generation service. *)

Class Collaborators : Type := {
  (** [nltk.tokenize.sent_tokenize]. *)
  sent_tokenize : string -> list string;
  (** [PorterStemmer().stem]. *)
  stem : string -> string;
  (** [TfidfVectorizer().fit]; [None] when sklearn raises [ValueError]
      for an empty vocabulary. *)
  tfidf_fit : list string -> option Fitted;
  (** The text that [PdfReader], [BeautifulSoup] or [file.read] extract
      from the file at a path, by file type. *)
  file_text : string -> string -> result string;
  (** [co.chat(model, messages).message.content[0].text]; the messages
      are pairs of role and content. *)
  co_chat : string -> list (string * string) -> result string
}.

(** What leaves the process: calls to the text-generation service and
    calls of [print], one event per call with the text it writes (which
    may hold line breaks).  The text handed to the similarity search is
    recorded too, so that statements can speak about it. *)
Inductive Event : Type :=
| SimilaritySearch (query : string)
| CohereChat (model : string) (messages : list (string * string))
| Printed (text : string).

(** The module-level variables of the notebooks. *)
Record Globals : Type := MkGlobals {
  vectorizer : option Fitted;
  documents : list string;
  original_documents : list string;
  vectors : option matrix;
  conversation_history : list Entry;
  conversation_ttl_cache : TTL.TTLCache;
  trace : list Event
}.

(** The state of a freshly started notebook. *)
Definition fresh : Globals :=
  MkGlobals None [] [] None [] (TTL.empty 1000 1800) [].

Definition M (A : Type) : Type := Globals -> result A * Globals.

Definition ret {A} (a : A) : M A := fun g => (Ok a, g).

Definition bind {A B} (c : M A) (k : A -> M B) : M B :=
  fun g =>
    match c g with
    | (Ok a, g') => k a g'
    | (Raise e, g') => (Raise e, g')
    end.

Definition raise {A} (e : exn) : M A := fun g => (Raise e, g).

Definition gets {A} (proj : Globals -> A) : M A := fun g => (Ok (proj g), g).

Definition modify (f : Globals -> Globals) : M unit := fun g => (Ok tt, f g).

Definition lift {A} (r : result A) : M A := fun g => (r, g).

Notation "x <- c ;; k" := (bind c (fun x => k))
  (at level 61, c at next level, right associativity).
Notation "' pat <- c ;; k" := (bind c (fun x => match x with pat => k end))
  (at level 61, pat pattern, c at next level, right associativity).
Notation "c ;; k" := (bind c (fun _ => k))
  (at level 61, right associativity).

Definition log_event (e : Event) (g : Globals) : Globals :=
  MkGlobals (vectorizer g) (documents g) (original_documents g)
    (vectors g) (conversation_history g)
    (conversation_ttl_cache g) (trace g ++ [e]).

Definition emit (e : Event) : M unit := modify (log_event e).

Definition set_vectorizer (f : option Fitted) : M unit :=
  modify (fun g => MkGlobals f (documents g) (original_documents g)
                     (vectors g) (conversation_history g)
                     (conversation_ttl_cache g) (trace g)).

Definition set_documents (d : list string) : M unit :=
  modify (fun g => MkGlobals (vectorizer g) d (original_documents g)
                     (vectors g) (conversation_history g)
                     (conversation_ttl_cache g) (trace g)).

Definition set_original_documents (d : list string) : M unit :=
  modify (fun g => MkGlobals (vectorizer g) (documents g) d
                     (vectors g) (conversation_history g)
                     (conversation_ttl_cache g) (trace g)).

Definition set_vectors (v : option matrix) : M unit :=
  modify (fun g => MkGlobals (vectorizer g) (documents g) (original_documents g)
                     v (conversation_history g)
                     (conversation_ttl_cache g) (trace g)).

Definition set_conversation_history (h : list Entry) : M unit :=
  modify (fun g => MkGlobals (vectorizer g) (documents g) (original_documents g)
                     (vectors g) h
                     (conversation_ttl_cache g) (trace g)).

Definition set_conversation_ttl_cache (c : TTL.TTLCache) : M unit :=
  modify (fun g => MkGlobals (vectorizer g) (documents g) (original_documents g)
                     (vectors g) (conversation_history g)
                     c (trace g)).

Definition NUMBER_OF_MATCHES : Z := 3.
Definition CHUNK_SIZE : Z := 99999.

Section Notebook.

Context {collab : Collaborators}.

(** *** Chunker *)

(** [' '.join([ps.stem(word) for word in chunk.split()])]. *)
Definition stem_chunk (chunk : string) : string :=
  Py.join " " (map stem (Py.split chunk)).

(** The loop of [process_text]; the state is [original_chunks],
    [processed_chunks] and the running [chunk]. *)
Fixpoint chunk_loop (chunk_size : Z) (sentences : list string)
  (st : list string * list string * string) : list string * list string * string :=
  match sentences with
  | [] => st
  | sentence :: rest =>
      let '(original_chunks, processed_chunks, chunk) := st in
      if (Z.of_nat (Py.len chunk + Py.len sentence) >? chunk_size)%Z
      then chunk_loop chunk_size rest
             (original_chunks ++ [chunk], processed_chunks ++ [stem_chunk chunk], sentence)
      else chunk_loop chunk_size rest
             (original_chunks, processed_chunks, chunk +++ " " +++ sentence)
  end.

Definition process_text (text : string) (chunk_size : Z) : list string * list string :=
  let sentences := sent_tokenize text in
  let '(original_chunks, processed_chunks, chunk) :=
    chunk_loop chunk_size sentences ([], [], "") in
  match chunk with
  | EmptyString => (original_chunks, processed_chunks)
  | _ => (original_chunks ++ [chunk], processed_chunks ++ [stem_chunk chunk])
  end.

Definition read_pdf (file_path : string) : M (list string * list string) :=
  text <- lift (file_text "pdf" file_path) ;;
  ret (process_text text CHUNK_SIZE).

Definition read_html (file_path : string) : M (list string * list string) :=
  text <- lift (file_text "html" file_path) ;;
  ret (process_text text CHUNK_SIZE).

Definition read_txt (file_path : string) : M (list string * list string) :=
  text <- lift (file_text "txt" file_path) ;;
  ret (process_text text CHUNK_SIZE).

(** *** Vector index *)

(** [vectorizer.fit_transform(documents)]: refit on the whole corpus and
    return one row per document.  sklearn replaces the vectorizer's
    tf-idf transformer before it counts the terms, so a fit that raises
    leaves the vectorizer unfitted, whatever it was before. *)
Definition fit_transform (docs : list string) : M matrix :=
  match tfidf_fit docs with
  | None => set_vectorizer None ;; raise (ValueError "empty vocabulary")
  | Some f => set_vectorizer (Some f) ;; ret (transform f docs)
  end.

(** [add_document]: its [vectors] is a local variable, the module-level
    one is not written here. *)
Definition add_document (text : list string) : M matrix :=
  docs <- gets documents ;;
  set_documents (docs ++ text) ;;
  docs <- gets documents ;;
  fit_transform docs.

Definition process_and_add_document (file_path file_type : string) : M matrix :=
  '(original_chunks, processed_chunks) <-
     (if String.eqb file_type "pdf" then read_pdf file_path
      else if String.eqb file_type "html" then read_html file_path
      else if String.eqb file_type "txt" then read_txt file_path
      else raise (ValueError "Unsupported file type")) ;;
  originals <- gets original_documents ;;
  set_original_documents (originals ++ original_chunks) ;;
  add_document processed_chunks.

(** [vectorizer.transform(texts)] on the module-level vectorizer: sklearn
    first checks that the vectorizer is fitted, and its input validation
    refuses an empty list of texts. *)
Definition vectorizer_transform (texts : list string) : M matrix :=
  f <- gets vectorizer ;;
  match f with
  | None => raise NotFittedError
  | Some f =>
      match texts with
      | [] => raise (ValueError "Found array with 0 sample(s)")
      | _ => ret (transform f texts)
      end
  end.

(** [[xs[i] for i in indices]]. *)
Fixpoint select (xs : list string) (indices : list nat) : result (list string) :=
  match indices with
  | [] => Ok []
  | i :: rest =>
      match Py.getitem xs i with
      | None => Raise IndexError
      | Some x =>
          match select xs rest with
          | Ok picked => Ok (x :: picked)
          | Raise e => Raise e
          end
      end
  end.

(** The first four lines of [find_best_matches]: the local variables
    [similarities] and [best_match_indices]. *)
Definition similarities (query : string) : M (list (list Q)) :=
  let query_processed := snd (process_text query CHUNK_SIZE) in
  query_vector <- vectorizer_transform query_processed ;;
  v <- gets vectors ;;
  match v with
  | None => raise AttributeError
  | Some v => lift (mat_mul_T query_vector v)
  end.

Definition best_match_indices (query : string) (top_n : Z) : M (list nat) :=
  emit (SimilaritySearch query) ;;
  similarities <- similarities query ;;
  match map argsort similarities with
  | [] => raise IndexError
  | first_row :: _ => ret (rev (Py.slice_from_neg first_row top_n))
  end.

Definition find_best_matches (query : string) (top_n : Z)
  : M (list string * list string) :=
  indices <- best_match_indices query top_n ;;
  originals <- gets original_documents ;;
  docs <- gets documents ;;
  best_originals <- lift (select originals indices) ;;
  best_documents <- lift (select docs indices) ;;
  ret (best_originals, best_documents).

Definition reset_database : M unit :=
  set_documents [] ;;
  set_original_documents [] ;;
  set_vectors None.

Definition initialize (file_name : string) : M matrix :=
  let file_type := Py.split_dot_last file_name in
  process_and_add_document file_name file_type.

(** The notebook's statement [vectors = c], for a call [c] that returns
    the fitted rows. *)
Definition assign_vectors (c : M matrix) : M unit :=
  v <- c ;;
  set_vectors (Some v).

(** *** Responder *)

Definition system_instruction : string :=
  "You are an AI assistant. Use the provided context to answer the user's query accurately in a short and concise response. Do not generate information that is not present in the context. If the context does not contain the answer, inform the user that the information is not available.".

Definition cohere_model : string := "command-r-plus-08-2024".

(** The local variable [messages] of [get_cohere_response]. *)
Definition chat_messages (query context : string) : list (string * string) :=
  [("system", system_instruction); ("system", context); ("user", query)].

Definition get_cohere_response (query context : string) : M string :=
  let messages := chat_messages query context in
  emit (CohereChat cohere_model messages) ;;
  text <- lift (co_chat cohere_model messages) ;;
  ret (Py.strip text).

(** [process_chat] of [conversation.ipynb]. *)
Definition process_chat (user_query : string) (is_debug : bool) : M (string * string) :=
  '(original_best_matches, processed_best_matches) <-
     find_best_matches user_query NUMBER_OF_MATCHES ;;
  let context := Py.join (Py.nl +++ Py.nl) original_best_matches in
  (if is_debug then emit (Printed ("Context: " +++ context)) else ret tt) ;;
  response <- get_cohere_response user_query context ;;
  ret (response, context).

Definition chat (user_query : string) (is_debug : bool) : M string :=
  '(response, _) <- process_chat user_query is_debug ;;
  ret response.

(** *** Conversation memory *)

Definition add_to_conversation (user_input search_result_context llm_response : string)
  : M unit :=
  let conversation_entry :=
    MkEntry user_input search_result_context llm_response None in
  history <- gets conversation_history ;;
  set_conversation_history (history ++ [conversation_entry]).

Definition history_separator : string :=
  Py.nl +++ Py.nl +++ "=========================" +++ Py.nl +++ Py.nl.

Definition render_entry (entry : Entry) : string :=
  "User: " +++ user_input entry +++ Py.nl +++
  "Search Result Context: " +++ search_result_context entry +++ Py.nl +++
  "LLM Response: " +++ llm_response entry.

Definition render_history (entries : list Entry) : string :=
  Py.join history_separator (map render_entry entries).

Definition preamble : string :=
  "This is the entire conversation up to this point. Use this as additional context when answering the question from the user.".

(** The variable [query] that both [conversation] and
    [conversation_cache] build and hand to [process_chat]. *)
Definition compose_query (history user_query : string) : string :=
  (preamble +++ Py.nl +++ " CONTEXT: " +++ history +++ Py.nl +++ Py.nl) +++
  (history_separator +++ " USER QUERY: " +++ user_query).

Definition conversation (user_query : string) (is_debug : bool) : M string :=
  entries <- gets conversation_history ;;
  let history := render_history entries in
  let query := compose_query history user_query in
  '(response, context) <- process_chat query is_debug ;;
  add_to_conversation user_query context response ;;
  ret response.

(** The two clocks the cache-based memory reads: [datetime.now()] for the
    key of a new entry, and the cache's timer (seconds, monotonic) for
    expiry.  One round reads the timer when it takes the snapshot and
    again when it stores the entry. *)
Record Clock : Type := MkClock {
  timer_at_snapshot : Z;
  datetime_now_isoformat : string;
  timer_at_store : Z
}.

Definition add_to_conversation_cache (now : string) (time : Z)
  (user_input search_result_context llm_response : string) : M unit :=
  let current_time := now in
  let conversation_entry :=
    MkEntry user_input search_result_context llm_response (Some current_time) in
  cache <- gets conversation_ttl_cache ;;
  let '(r, cache') := TTL.setitem time current_time conversation_entry cache in
  set_conversation_ttl_cache cache' ;;
  lift r.

(** [list(conversation_ttl_cache.values())]: [list] first asks the view
    for its length, and [TTLCache.__len__] unlinks the links that have
    expired; the iteration then yields the values of the links that are
    left.  The read therefore writes the cache. *)
Definition snapshot (time : Z) : M (list Entry) :=
  cache <- gets conversation_ttl_cache ;;
  let cache := TTL.expire time cache in
  set_conversation_ttl_cache cache ;;
  ret (TTL.values time cache).

Definition conversation_cache (clock : Clock) (user_query : string) (is_debug : bool)
  : M string :=
  conversation_history_cache <- snapshot (timer_at_snapshot clock) ;;
  let history := render_history conversation_history_cache in
  let query := compose_query history user_query in
  '(response, context) <- process_chat query is_debug ;;
  add_to_conversation_cache (datetime_now_isoformat clock) (timer_at_store clock)
    user_query context response ;;
  ret response.

End Notebook.

(** ** The chat loop of [chatbot.ipynb]

    The last cell of the notebook indexes one file and then answers
    queries read with [input] until the user types [quit] or [exit].  The
    lines the user types are given as a list; when the list is used up
    the loop has shown its prompt and waits. *)

(** How a run of the loop on a finite list of inputs ends. *)
Inductive LoopEnd : Type :=
| Exited          (* the user typed quit or exit: [break] *)
| AwaitingInput.  (* [input] is waiting for the next line *)

Module PyStr.

(** [c.lower()] on one ASCII character. *)
Definition lower_char (c : ascii) : ascii :=
  let n := nat_of_ascii c in
  if Nat.leb 65 n && Nat.leb n 90 then ascii_of_nat (n + 32) else c.

(** [s.lower()]. *)
Fixpoint lower (s : string) : string :=
  match s with
  | EmptyString => EmptyString
  | String c s' => String (lower_char c) (lower s')
  end.

(** The double-quote character. *)
Definition quote : string := String (ascii_of_nat 34) EmptyString.

End PyStr.

Definition input_prompt : string :=
  "Enter your query (type 'quit' or 'exit' to stop): ".

(** [user_query.lower() in ['quit', 'exit']]. *)
Definition is_quit (user_query : string) : bool :=
  existsb (String.eqb (PyStr.lower user_query)) ["quit"; "exit"].

Section ChatLoop.

Context {collab : Collaborators}.

(** The [while True] loop. *)
Fixpoint chat_loop (inputs : list string) : M LoopEnd :=
  match inputs with
  | [] => emit (Printed input_prompt) ;; ret AwaitingInput
  | user_query :: rest =>
      emit (Printed input_prompt) ;;
      if is_quit user_query then
        emit (Printed "Exiting the chat. Goodbye!") ;;
        ret Exited
      else
        emit (Printed "--------------------") ;;
        emit (Printed ("User: " +++ PyStr.quote +++ user_query +++ PyStr.quote)) ;;
        response <- chat user_query false ;;
        emit (Printed ("AI: " +++ response)) ;;
        chat_loop rest
  end.

(** The whole cell. *)
Definition chatbot_cell (inputs : list string) : M LoopEnd :=
  reset_database ;;
  assign_vectors (initialize "coffee.html") ;;
  chat_loop inputs.

End ChatLoop.

(** ** Vocabulary of the statements *)

(** Sum of the lengths of the sentences. *)
Fixpoint total_len (sentences : list string) : nat :=
  match sentences with
  | [] => 0
  | s :: rest => Py.len s + total_len rest
  end.

(** The running chunk when no sentence closes a chunk. *)
Definition accumulate (chunk : string) (sentences : list string) : string :=
  fold_left (fun c s => c +++ " " +++ s) sentences chunk.

(** The score at an index of a row of similarities. *)
Definition score (row : list Q) (i : nat) : Q := nth i row 0%Q.

Definition ascending (row : list Q) (i j : nat) : Prop :=
  (score row i <= score row j)%Q.

Definition descending (row : list Q) (i j : nat) : Prop :=
  (score row j <= score row i)%Q.

(** The similarity of a query chunk to a corpus chunk under a fitted
    model: the product of their weight vectors. *)
Definition similarity (f : Fitted) (query_chunk doc : string) : Q :=
  dot (weights f query_chunk) (weights f doc).

(** The index is in step with the corpus: [vectors] holds the rows that
    the current fit gives to the current [documents], and the original
    chunks are as many as the stemmed ones.  This is the state after
    [vectors = initialize(...)]. *)
Definition in_sync (g : Globals) (f : Fitted) : Prop :=
  vectorizer g = Some f
  /\ vectors g = Some (transform f (documents g))
  /\ List.length (original_documents g) = List.length (documents g).

(** Two states with the same index: they may differ in the conversation
    memory and in the trace. *)
Definition same_index (g g' : Globals) : Prop :=
  vectorizer g' = vectorizer g
  /\ documents g' = documents g
  /\ original_documents g' = original_documents g
  /\ vectors g' = vectors g.

(** The events a computation adds to the trace of a state. *)
Definition new_events {A} (c : M A) (g : Globals) : list Event :=
  skipn (List.length (trace g)) (trace (snd (c g))).

Definition is_cohere_chat (e : Event) : bool :=
  match e with CohereChat _ _ => true | _ => false end.

(** Several entries recorded one after the other into the cache-based
    memory; each comes with the two clock readings of its call. *)
Record Recording : Type := MkRecording {
  rec_now : string;
  rec_time : Z;
  rec_user_input : string;
  rec_context : string;
  rec_response : string
}.

Definition rec_entry (r : Recording) : Entry :=
  MkEntry (rec_user_input r) (rec_context r) (rec_response r) (Some (rec_now r)).

Fixpoint record_all (rs : list Recording) : M unit :=
  match rs with
  | [] => ret tt
  | r :: rest =>
      add_to_conversation_cache (rec_now r) (rec_time r)
        (rec_user_input r) (rec_context r) (rec_response r) ;;
      record_all rest
  end.

(** Links under the key [now] have expired by [read_time], and every
    entry carries its key as its timestamp. *)
Definition stale_key (now : string) (read_time : Z) (c : TTL.TTLCache) : Prop :=
  forall l, In l (TTL.links c) ->
    (TTL.key l = now -> (TTL.expires l <= read_time)%Z)
    /\ timestamp (TTL.value l) = Some (TTL.key l).

(** The conversation memory of a state: the list and the cache. *)
Definition same_memory (g g' : Globals) : Prop :=
  conversation_history g' = conversation_history g
  /\ conversation_ttl_cache g' = conversation_ttl_cache g.

(** The state after the cache was swept at [time]: what a read of the
    cache-based memory at that time leaves behind. *)
Definition swept (time : Z) (g : Globals) : Globals :=
  MkGlobals (vectorizer g) (documents g) (original_documents g) (vectors g)
    (conversation_history g) (TTL.expire time (conversation_ttl_cache g)) (trace g).

(** Two caches that every read from [time] on finds alike. *)
Definition same_reads_from (time : Z) (c c' : TTL.TTLCache) : Prop :=
  forall read_time, (time <= read_time)%Z ->
    TTL.values read_time c' = TTL.values read_time c.


(** Events that may follow the similarity search of a round whose query
    text is [query]: the debug call of [print], or a call to the service whose user
    message is that same text. *)
Definition follows_search (query : string) (e : Event) : Prop :=
  match e with
  | SimilaritySearch _ => False
  | CohereChat _ messages => In ("user", query) messages
  | Printed _ => True
  end.

(** The state a round of [process_chat] leaves when the retrieval
    succeeded with the chunks [originals]. *)
Definition after_chat (query : string) (is_debug : bool) (originals : list string)
  (g : Globals) : Globals :=
  let context := Py.join (Py.nl +++ Py.nl) originals in
  let g1 := log_event (SimilaritySearch query) g in
  let g2 := if is_debug then log_event (Printed ("Context: " +++ context)) g1 else g1 in
  log_event (CohereChat cohere_model (chat_messages query context)) g2.

(** The last [n] elements of a list. *)
Definition keep_last {A} (n : nat) (l : list A) : list A :=
  skipn (List.length l - n) l.

(** [a] occurs inside [b]. *)
Definition occurs_in (a b : string) : Prop :=
  exists before after, b = before +++ a +++ after.

(** The original chunks are as many as the stemmed ones. *)
Definition aligned (g : Globals) : Prop :=
  List.length (original_documents g) = List.length (documents g).

(** [vectors], when bound, has no more rows than the corpus has chunks. *)
Definition rows_within_corpus (g : Globals) : Prop :=
  forall v, vectors g = Some v -> List.length (rows v) <= List.length (documents g).

(** A cache as the notebook's functions leave it: within its capacity,
    one link per key, every entry stamped with its key. *)
Definition cache_ok (c : TTL.TTLCache) : Prop :=
  (1 <= TTL.maxsize c)%Z
  /\ List.length (TTL.links c) <= Z.to_nat (TTL.maxsize c)
  /\ NoDup (map TTL.key (TTL.links c))
  /\ (forall l, In l (TTL.links c) -> timestamp (TTL.value l) = Some (TTL.key l)).

(** What a user of the notebook runs, one cell after the other; a cell
    that raises leaves the variables as they were when it raised, and
    the next cell runs on them. *)
Inductive Op : Type :=
| OpReset                                    (* reset_database() *)
| OpLoad (file_name : string)                (* vectors = initialize(file_name) *)
| OpLoadUnbound (file_name : string)         (* initialize(file_name) *)
| OpChat (user_query : string) (is_debug : bool)
| OpConversation (user_query : string) (is_debug : bool)
| OpConversationCache (clock : Clock) (user_query : string) (is_debug : bool).

Definition run_op {collab : Collaborators} (op : Op) (g : Globals) : Globals :=
  match op with
  | OpReset => snd (reset_database g)
  | OpLoad file_name => snd (assign_vectors (initialize file_name) g)
  | OpLoadUnbound file_name => snd (initialize file_name g)
  | OpChat user_query is_debug => snd (chat user_query is_debug g)
  | OpConversation user_query is_debug => snd (conversation user_query is_debug g)
  | OpConversationCache clock user_query is_debug =>
      snd (conversation_cache clock user_query is_debug g)
  end.

Definition run_ops {collab : Collaborators} (ops : list Op) (g : Globals) : Globals :=
  fold_left (fun g op => run_op op g) ops g.

(** The query texts of the similarity searches in a list of events. *)
Definition searched (events : list Event) : list string :=
  flat_map (fun e => match e with SimilaritySearch q => [q] | _ => [] end) events.

(** The number of calls to the text-generation service in a list of
    events. *)
Definition service_calls (events : list Event) : nat :=
  List.length (filter is_cohere_chat events).

Definition is_printed (e : Event) : bool :=
  match e with Printed _ => true | _ => false end.

(** The inputs the loop answers: those before the first quit line. *)
Fixpoint before_quit (inputs : list string) : list string :=
  match inputs with
  | [] => []
  | user_query :: rest =>
      if is_quit user_query then [] else user_query :: before_quit rest
  end.

(** ** A concrete set of collaborators

    Small stand-ins on which the model runs: a splitter that ends a
    sentence at [.], [!] or [?] followed by whitespace, a stemmer that
    only lower-cases, term counts in place of tf-idf weights (the same
    vocabulary, and a zero score exactly when a query shares no term with
    a chunk), a file system with two text files, and a scripted
    text-generation service. *)

Module Demo.

Definition is_terminator (c : ascii) : bool :=
  Ascii.eqb c "."%char || Ascii.eqb c "!"%char || Ascii.eqb c "?"%char.

Fixpoint sentences_from (cur : string) (closed : bool) (s : string) : list string :=
  match s with
  | EmptyString => match cur with EmptyString => [] | _ => [cur] end
  | String c s' =>
      if Py.isspace c then
        match cur with
        | EmptyString => sentences_from "" false s'
        | _ => if closed then cur :: sentences_from "" false s'
               else sentences_from (Py.snoc cur c) false s'
        end
      else sentences_from (Py.snoc cur c) (is_terminator c) s'
  end.

Definition split_sentences (text : string) : list string :=
  map Py.rstrip (sentences_from "" false text).

Definition lower_char (c : ascii) : ascii :=
  let n := nat_of_ascii c in
  if Nat.leb 65 n && Nat.leb n 90 then ascii_of_nat (n + 32) else c.

Fixpoint lower (s : string) : string :=
  match s with
  | EmptyString => EmptyString
  | String c s' => String (lower_char c) (lower s')
  end.

Definition is_word_char (c : ascii) : bool :=
  let n := nat_of_ascii c in
  (Nat.leb 48 n && Nat.leb n 57) || (Nat.leb 65 n && Nat.leb n 90)
  || (Nat.leb 97 n && Nat.leb n 122) || Nat.eqb n 95.

(** Lower-cased runs of two or more word characters. *)
Fixpoint tokens_from (cur : string) (s : string) : list string :=
  let close := if Nat.leb 2 (Py.len cur) then [cur] else [] in
  match s with
  | EmptyString => close
  | String c s' =>
      if is_word_char c then tokens_from (Py.snoc cur (lower_char c)) s'
      else close ++ tokens_from "" s'
  end.

Definition tokens (text : string) : list string := tokens_from "" text.

Definition vocabulary (docs : list string) : list string :=
  nodup string_dec (flat_map tokens docs).

Definition count (term : string) (text : string) : Q :=
  inject_Z (Z.of_nat (count_occ string_dec (tokens text) term)).

Definition count_fit (docs : list string) : option Fitted :=
  match vocabulary docs with
  | [] => None
  | vocab => Some (MkFitted (List.length vocab) (fun text => map (fun term => count term text) vocab))
  end.

Definition files (file_type file_path : string) : result string :=
  if String.eqb file_path "cats.txt" then Ok "The cat sat on the mat."
  else if String.eqb file_path "dogs.txt" then Ok "The dog ran in the park."
  else if String.eqb file_path "birds.txt"
       then Ok "The cat sat. The dog ran. Birds fly south."
  else Raise FileNotFoundError.

(** A service that answers every prompt with the same text. *)
Definition scripted_chat (model : string) (messages : list (string * string))
  : result string := Ok " It is in the context. ".


Definition up : Collaborators :=
  Build_Collaborators split_sentences lower count_fit files scripted_chat.


(** The notebook cell [reset_database(); vectors = initialize(name)]. *)
Definition setup {collab : Collaborators} (file_name : string) : M unit :=
  reset_database ;;
  assign_vectors (initialize file_name).

(** Two files indexed one after the other. *)
Definition two_files {collab : Collaborators} : M unit :=
  reset_database ;;
  assign_vectors (initialize "cats.txt") ;;
  assign_vectors (initialize "dogs.txt").

(** The state with both files indexed and the service up. *)
Definition indexed : Globals := snd (two_files (collab := up) fresh).

(** The model the vectorizer holds in that state. *)
Definition fitted : Fitted :=
  match vectorizer indexed with
  | Some f => f
  | None => MkFitted 0 (fun _ => [])
  end.

(** One round of the list-based conversation. *)
Definition after_one_round : Globals :=
  snd (conversation (collab := up) "Where is the cat?" false indexed).

Definition clock1 : Clock := MkClock 10 "2025-01-01T10:00:10.000000" 12.
Definition clock2 : Clock := MkClock 20 "2025-01-01T10:00:20.000000" 22.
Definition clock3 : Clock := MkClock 30 "2025-01-01T10:00:30.000000" 32.

(** Two rounds of the cache-based conversation. *)
Definition after_two_cached_rounds : Globals :=
  snd ((conversation_cache (collab := up) clock1 "Where is the cat?" false ;;
        conversation_cache (collab := up) clock2 "Where is the dog?" false) indexed).

(** A fresh notebook whose cache has room for two entries. *)
Definition small_cache : Globals :=
  MkGlobals None [] [] None [] (TTL.empty 2 1800) [].

Definition recording (now : string) (time : Z) (user_input : string) : Recording :=
  MkRecording now time user_input "" "ok".

End Demo.

(** ** A second set of collaborators

    The file [coffee.html] that the last cell of [chatbot.ipynb] indexes,
    and a text-generation service that fails on one question. *)

Module Cafe.

Definition files (file_type file_path : string) : result string :=
  if String.eqb file_path "coffee.html"
  then Ok "I tried ten decaf coffees. The espresso was rated best."
  else Demo.files file_type file_path.

(** A service that is up except for one question. *)
Definition tired_chat (model : string) (messages : list (string * string))
  : result string :=
  if existsb (fun m => String.eqb (snd m) "Who is the author?") messages
  then Raise UpstreamError
  else Ok " The espresso. ".

Definition tired : Collaborators :=
  Build_Collaborators Demo.split_sentences Demo.lower Demo.count_fit files tired_chat.

(** The fitted model and the rows a state holds. *)
Definition the_fit (g : Globals) : Fitted :=
  match vectorizer g with
  | Some f => f
  | None => MkFitted 0 (fun _ => [])
  end.

Definition the_rows (g : Globals) : matrix :=
  match vectors g with
  | Some v => v
  | None => Matrix 0 []
  end.

(** A second file added without binding [vectors] again. *)
Definition stale : Globals :=
  run_ops (collab := Demo.up)
    [OpReset; OpLoad "cats.txt"; OpLoadUnbound "dogs.txt"] fresh.

(** A session that loads two files and talks. *)
Definition session : list Op :=
  [OpReset; OpLoad "cats.txt"; OpLoad "dogs.txt";
   OpConversation "Where is the cat?" false].

(** A clock read long after the rounds of [Demo.after_two_cached_rounds]. *)
Definition late : Clock := MkClock 5000 "2025-01-01T11:23:20.000000" 5001.

(** The state the loop of the last cell starts in. *)
Definition opened : Globals :=
  snd (Demo.setup (collab := tired) "coffee.html" fresh).

End Cafe.

(** * Properties *)

(** ** Strings *)

Lemma append_assoc (a b c : string) : (a +++ b) +++ c = a +++ (b +++ c).
Proof.
  induction a as [|x a IH]; simpl; [reflexivity | now rewrite IH].
Qed.

Lemma len_append (a b : string) : Py.len (a +++ b) = Py.len a + Py.len b.
Proof.
  unfold Py.len. induction a as [|x a IH]; simpl; [reflexivity | now rewrite IH].
Qed.

Lemma append_nonempty_l (c : ascii) (a b : string) : String c a +++ b <> "".
Proof. simpl. discriminate. Qed.

(** ** Chunker *)

Section ChunkerFacts.

Context {collab : Collaborators}.

Lemma stem_chunk_empty : stem_chunk "" = "".
Proof. reflexivity. Qed.

(** The loop only ever appends to the two chunk lists. *)
Lemma chunk_loop_extends (chunk_size : Z) (sentences : list string) :
  forall oc pc chunk,
  exists oc' pc' chunk',
    chunk_loop chunk_size sentences (oc, pc, chunk) = (oc ++ oc', pc ++ pc', chunk')
    /\ List.length oc' = List.length pc'.
Proof.
  induction sentences as [|s rest IH]; intros oc pc chunk; simpl.
  - exists [], [], chunk. now rewrite !app_nil_r.
  - destruct (Z.of_nat (Py.len chunk + Py.len s) >? chunk_size)%Z.
    + destruct (IH (oc ++ [chunk]) (pc ++ [stem_chunk chunk]) s)
        as (oc' & pc' & chunk' & E & L).
      exists (chunk :: oc'), (stem_chunk chunk :: pc'), chunk'.
      rewrite E, <- !app_assoc. simpl. auto.
    + apply IH.
Qed.

(** While everything fits, the loop closes no chunk. *)
Lemma chunk_loop_fits (chunk_size : Z) (sentences : list string) :
  forall oc pc chunk,
    (Z.of_nat (Py.len chunk + total_len sentences + List.length sentences)
       <= chunk_size + 1)%Z ->
    chunk_loop chunk_size sentences (oc, pc, chunk)
    = (oc, pc, accumulate chunk sentences).
Proof.
  induction sentences as [|s rest IH]; intros oc pc chunk Hfit; simpl in *.
  - reflexivity.
  - destruct (Z.gtb_spec (Z.of_nat (Py.len chunk + Py.len s)) chunk_size) as [Hgt|Hle].
    + lia.
    + apply IH. rewrite len_append.
      unfold Py.len in *. simpl String.length. lia.
Qed.

Lemma accumulate_join (sentences : list string) :
  forall chunk s,
    accumulate (chunk +++ " " +++ s) sentences
    = chunk +++ " " +++ Py.join " " (s :: sentences).
Proof.
  induction sentences as [|s' rest IH]; intros chunk s.
  - reflexivity.
  - change (accumulate (chunk +++ " " +++ s) (s' :: rest))
      with (accumulate ((chunk +++ " " +++ s) +++ " " +++ s') rest).
    rewrite IH.
    change (Py.join " " (s :: s' :: rest)) with (s +++ " " +++ Py.join " " (s' :: rest)).
    now rewrite !append_assoc.
Qed.

(** C10: when the first sentence of the text is longer than the chunk
    size, the first original chunk that [process_text] returns is the
    empty string, and so is the first stemmed chunk. *)
Theorem process_text_oversized_first_sentence :
  forall (text : string) (chunk_size : Z) (first : string) (rest : list string),
    sent_tokenize text = first :: rest ->
    (Z.of_nat (Py.len first) > chunk_size)%Z ->
    exists oc pc,
      process_text text chunk_size = ("" :: oc, "" :: pc)
      /\ List.length oc = List.length pc.
Proof.
  intros text chunk_size first rest Htok Hlong.
  unfold process_text. rewrite Htok. cbn [chunk_loop].
  destruct (Z.gtb_spec (Z.of_nat (Py.len "" + Py.len first)) chunk_size) as [_|Hle];
    [| simpl in Hle; lia].
  destruct (chunk_loop_extends chunk_size rest ([] ++ [""]) ([] ++ [stem_chunk ""]) first)
    as (oc' & pc' & chunk' & E & L).
  rewrite E. rewrite stem_chunk_empty. simpl.
  destruct chunk'.
  - exists oc', pc'. auto.
  - exists (oc' ++ [String a chunk']), (pc' ++ [stem_chunk (String a chunk')]).
    split; [reflexivity|]. rewrite !length_app. simpl. lia.
Qed.

(** C5, as the code has it: a text without sentences gives no chunk; a
    text whose sentences, with one separating character between
    neighbours, fit into the text, and whose length is at most the chunk
    size, gives exactly one chunk, which is one space followed by the
    sentences joined by single spaces. *)
Theorem process_text_whole_document :
  forall (text : string) (chunk_size : Z),
    (Z.of_nat (total_len (sent_tokenize text) + (List.length (sent_tokenize text) - 1))
       <= Z.of_nat (Py.len text))%Z ->
    (Z.of_nat (Py.len text) <= chunk_size)%Z ->
    process_text text chunk_size =
      match sent_tokenize text with
      | [] => ([], [])
      | sentences =>
          let chunk := " " +++ Py.join " " sentences in
          ([chunk], [stem_chunk chunk])
      end.
Proof.
  intros text chunk_size Hspan Hsize.
  unfold process_text.
  destruct (sent_tokenize text) as [|s rest] eqn:Htok.
  - reflexivity.
  - rewrite chunk_loop_fits.
    + change (accumulate "" (s :: rest)) with (accumulate ("" +++ " " +++ s) rest).
      rewrite accumulate_join.
      change ("" +++ " " +++ Py.join " " (s :: rest))
        with (String " "%char (Py.join " " (s :: rest))).
      reflexivity.
    + simpl in *. lia.
Qed.

End ChunkerFacts.

(** ** Sorted lists of indices *)

Section SortedFacts.

Variable A : Type.
Variable R : A -> A -> Prop.

Lemma StronglySorted_app_inv (l1 l2 : list A) :
  StronglySorted R (l1 ++ l2) ->
  StronglySorted R l1 /\ StronglySorted R l2
  /\ (forall x y, In x l1 -> In y l2 -> R x y).
Proof.
  induction l1 as [|a l1 IH]; simpl; intros H.
  - repeat split; [constructor | assumption | intros x y []].
  - apply StronglySorted_inv in H. destruct H as [Hs Hall].
    destruct (IH Hs) as (H1 & H2 & Hcross).
    rewrite Forall_app in Hall. destruct Hall as [Ha1 Ha2].
    repeat split.
    + constructor; assumption.
    + assumption.
    + intros x y [<-|Hx] Hy.
      * rewrite Forall_forall in Ha2. now apply Ha2.
      * now apply Hcross.
Qed.

Lemma StronglySorted_app (l1 l2 : list A) :
  StronglySorted R l1 -> StronglySorted R l2 ->
  (forall x y, In x l1 -> In y l2 -> R x y) ->
  StronglySorted R (l1 ++ l2).
Proof.
  induction l1 as [|a l1 IH]; simpl; intros H1 H2 Hcross.
  - assumption.
  - apply StronglySorted_inv in H1. destruct H1 as [Hs Hall].
    constructor.
    + apply IH; auto.
    + rewrite Forall_app. split; [assumption|].
      rewrite Forall_forall. intros y Hy. apply Hcross; auto.
Qed.

Lemma StronglySorted_skipn (n : nat) (l : list A) :
  StronglySorted R l -> StronglySorted R (skipn n l).
Proof.
  intros H. rewrite <- (firstn_skipn n l) in H.
  now apply StronglySorted_app_inv in H.
Qed.

End SortedFacts.

Lemma StronglySorted_rev (A : Type) (R : A -> A -> Prop) (l : list A) :
  StronglySorted R l -> StronglySorted (fun x y => R y x) (rev l).
Proof.
  induction 1 as [|a l Hs IH Hall]; simpl.
  - constructor.
  - apply StronglySorted_app.
    + assumption.
    + repeat constructor.
    + intros x y Hx [<-|[]]. rewrite Forall_forall in Hall.
      apply Hall. now apply in_rev.
Qed.

(** ** [argsort] *)

Lemma insert_index_perm (row : list Q) (i : nat) (sorted : list nat) :
  Permutation (i :: sorted) (insert_index row i sorted).
Proof.
  induction sorted as [|j rest IH]; simpl.
  - apply Permutation_refl.
  - destruct (Qle_bool (nth j row 0%Q) (nth i row 0%Q)).
    + eapply perm_trans; [apply perm_swap|]. now apply perm_skip.
    + apply Permutation_refl.
Qed.

Lemma insert_index_sorted (row : list Q) (i : nat) (sorted : list nat) :
  StronglySorted (ascending row) sorted ->
  StronglySorted (ascending row) (insert_index row i sorted).
Proof.
  induction 1 as [|j rest Hs IH Hall]; simpl.
  - repeat constructor.
  - destruct (Qle_bool (nth j row 0%Q) (nth i row 0%Q)) eqn:E.
    + constructor; [assumption|].
      apply Qle_bool_iff in E.
      eapply Permutation_Forall; [apply insert_index_perm|].
      constructor; assumption.
    + assert (Hij : ascending row i j).
      { unfold ascending, score. apply Qlt_le_weak, Qnot_le_lt.
        intros Hle. apply Qle_bool_iff in Hle. congruence. }
      constructor.
      * constructor; assumption.
      * constructor; [assumption|].
        eapply Forall_impl; [|exact Hall].
        intros k Hjk. unfold ascending in *. eapply Qle_trans; eassumption.
Qed.

Lemma insert_all_perm (row : list Q) (todo : list nat) :
  forall acc,
    Permutation (todo ++ acc)
      (fold_left (fun sorted i => insert_index row i sorted) todo acc).
Proof.
  induction todo as [|i todo IH]; intros acc; simpl.
  - apply Permutation_refl.
  - eapply perm_trans; [|apply IH].
    eapply perm_trans; [apply Permutation_middle|].
    apply Permutation_app_head, insert_index_perm.
Qed.

Lemma insert_all_sorted (row : list Q) (todo : list nat) :
  forall acc,
    StronglySorted (ascending row) acc ->
    StronglySorted (ascending row)
      (fold_left (fun sorted i => insert_index row i sorted) todo acc).
Proof.
  induction todo as [|i todo IH]; intros acc Hacc; simpl.
  - assumption.
  - apply IH, insert_index_sorted, Hacc.
Qed.

Lemma argsort_perm (row : list Q) :
  Permutation (seq 0 (List.length row)) (argsort row).
Proof.
  unfold argsort.
  rewrite <- (app_nil_r (seq 0 (List.length row))) at 1.
  apply insert_all_perm.
Qed.

Lemma argsort_sorted (row : list Q) : StronglySorted (ascending row) (argsort row).
Proof. apply insert_all_sorted. constructor. Qed.

Lemma argsort_length (row : list Q) : List.length (argsort row) = List.length row.
Proof.
  rewrite <- (Permutation_length (argsort_perm row)). apply length_seq.
Qed.

Lemma argsort_in (row : list Q) (i : nat) :
  In i (argsort row) <-> i < List.length row.
Proof.
  split; intros H.
  - apply (Permutation_in _ (Permutation_sym (argsort_perm row))) in H.
    apply in_seq in H. lia.
  - apply (Permutation_in _ (argsort_perm row)). apply in_seq. lia.
Qed.

Lemma argsort_NoDup (row : list Q) : NoDup (argsort row).
Proof.
  eapply Permutation_NoDup; [apply argsort_perm | apply seq_NoDup].
Qed.

(** [xs[-n:]] for [n >= 1] keeps the last [min n (len xs)] elements. *)
Lemma slice_from_neg_skipn {A} (xs : list A) (n : Z) :
  (1 <= n)%Z ->
  Py.slice_from_neg xs n
  = skipn (List.length xs - Nat.min (Z.to_nat n) (List.length xs)) xs.
Proof.
  intros Hn. unfold Py.slice_from_neg.
  destruct (Z.ltb_spec (- n) 0); [|lia].
  f_equal. lia.
Qed.

Lemma slice_from_neg_incl {A} (xs : list A) (n : Z) (x : A) :
  In x (Py.slice_from_neg xs n) -> In x xs.
Proof.
  unfold Py.slice_from_neg.
  set (start := Z.to_nat _). intros H.
  rewrite <- (firstn_skipn start xs). apply in_or_app. right. exact H.
Qed.

(** ** Vector index and retriever *)

Section IndexFacts.

Context {collab : Collaborators}.

(** What [similarities] computes; it writes nothing. *)
Lemma similarities_run (query : string) (g : Globals) :
  similarities query g =
  (match vectorizer g with
   | None => Raise NotFittedError
   | Some f =>
       match snd (process_text query CHUNK_SIZE) with
       | [] => Raise (ValueError "Found array with 0 sample(s)")
       | chunks =>
           match vectors g with
           | None => Raise AttributeError
           | Some v => mat_mul_T (transform f chunks) v
           end
       end
   end, g).
Proof.
  unfold similarities, vectorizer_transform, bind, gets, raise, ret, lift.
  destruct (vectorizer g) as [f|]; [|reflexivity].
  destruct (snd (process_text query CHUNK_SIZE)); [reflexivity|].
  destruct (vectors g); reflexivity.
Qed.

Lemma similarities_log_event (query : string) (e : Event) (g : Globals) :
  similarities query (log_event e g)
  = (fst (similarities query g), log_event e g).
Proof. rewrite !similarities_run. reflexivity. Qed.

(** What [best_match_indices] does with the similarities. *)
Lemma best_match_indices_run (query : string) (top_n : Z) (g : Globals) :
  best_match_indices query top_n g =
  (match fst (similarities query g) with
   | Raise e => Raise e
   | Ok sims =>
       match map argsort sims with
       | [] => Raise IndexError
       | first_row :: _ => Ok (rev (Py.slice_from_neg first_row top_n))
       end
   end, log_event (SimilaritySearch query) g).
Proof.
  unfold best_match_indices, emit, modify, bind at 1. cbv beta iota.
  unfold bind. rewrite similarities_log_event.
  destruct (fst (similarities query g)) as [sims|e]; [|reflexivity].
  unfold raise, ret. destruct (map argsort sims); reflexivity.
Qed.

Lemma find_best_matches_run (query : string) (top_n : Z) (g : Globals) :
  find_best_matches query top_n g =
  match best_match_indices query top_n g with
  | (Raise e, g') => (Raise e, g')
  | (Ok indices, g') =>
      match select (original_documents g') indices with
      | Raise e => (Raise e, g')
      | Ok best_originals =>
          match select (documents g') indices with
          | Raise e => (Raise e, g')
          | Ok best_documents => (Ok (best_originals, best_documents), g')
          end
      end
  end.
Proof.
  unfold find_best_matches, bind, gets, lift, ret.
  destruct (best_match_indices query top_n g) as [[indices|e] g']; [|reflexivity].
  destruct (select (original_documents g') indices); [|reflexivity].
  destruct (select (documents g') indices); reflexivity.
Qed.

(** A query only adds to the trace. *)
Lemma best_match_indices_state (query : string) (top_n : Z) (g : Globals) :
  snd (best_match_indices query top_n g) = log_event (SimilaritySearch query) g.
Proof. rewrite best_match_indices_run. reflexivity. Qed.

Lemma find_best_matches_state (query : string) (top_n : Z) (g : Globals) :
  snd (find_best_matches query top_n g) = log_event (SimilaritySearch query) g.
Proof.
  rewrite find_best_matches_run.
  pose proof (best_match_indices_state query top_n g) as Hs.
  destruct (best_match_indices query top_n g) as [[indices|e] g']; simpl in Hs; subst g';
    [|reflexivity].
  destruct (select _ indices); [|reflexivity].
  destruct (select _ indices); reflexivity.
Qed.

(** Every index that [best_match_indices] returns is a row of [vectors]. *)
Lemma best_match_indices_bound (query : string) (top_n : Z) (g : Globals)
  (v : matrix) (indices : list nat) :
  vectors g = Some v ->
  fst (best_match_indices query top_n g) = Ok indices ->
  Forall (fun i => i < List.length (rows v)) indices.
Proof.
  intros Hv. rewrite best_match_indices_run, similarities_run. simpl fst. rewrite Hv.
  destruct (vectorizer g) as [f|]; [|discriminate].
  destruct (snd (process_text query CHUNK_SIZE)) as [|chunk more]; [discriminate|].
  unfold mat_mul_T.
  destruct (Nat.eqb _ _); [|discriminate].
  simpl. intros [= <-].
  rewrite Forall_forall. intros i Hi.
  apply in_rev, slice_from_neg_incl, argsort_in in Hi.
  now rewrite length_map in Hi.
Qed.

Lemma select_in_bounds (xs : list string) (indices : list nat) :
  Forall (fun i => i < List.length xs) indices ->
  select xs indices = Ok (map (fun i => nth i xs "") indices).
Proof.
  induction 1 as [|i rest Hi _ IH]; simpl.
  - reflexivity.
  - unfold Py.getitem.
    destruct (nth_error xs i) as [x|] eqn:E.
    + rewrite IH. f_equal. f_equal. symmetry. now apply nth_error_nth.
    + apply nth_error_None in E. lia.
Qed.

(** C6: a query against an index that was never fitted, or whose
    [vectors] are unset (a fresh notebook, or one just after
    [reset_database]), raises: [find_best_matches] returns no result,
    [chat] passes the same exception on, and no call reaches the
    text-generation service.  On a vectorizer that was never fitted the
    exception is sklearn's [NotFittedError]. *)
Theorem query_before_any_document_raises :
  forall (g : Globals) (query : string) (top_n : Z) (is_debug : bool),
    vectorizer g = None \/ vectors g = None ->
    exists e,
      fst (find_best_matches query top_n g) = Raise e
      /\ (vectorizer g = None -> e = NotFittedError)
      /\ fst (chat query is_debug g) = Raise e
      /\ new_events (chat query is_debug) g = [SimilaritySearch query].
Proof.
  intros g query top_n is_debug H.
  assert (Hsim : exists e, fst (similarities query g) = Raise e
                           /\ (vectorizer g = None -> e = NotFittedError)).
  { rewrite similarities_run. simpl fst.
    destruct (vectorizer g) as [f|].
    - destruct H as [H|H]; [discriminate|]. rewrite H.
      destruct (snd (process_text query CHUNK_SIZE));
        eexists; (split; [reflexivity | discriminate]).
    - eauto. }
  destruct Hsim as (e & He & Hkind).
  assert (Hrun : forall n, find_best_matches query n g
                           = (Raise e, log_event (SimilaritySearch query) g)).
  { intros n. rewrite find_best_matches_run, best_match_indices_run, He. reflexivity. }
  exists e. split; [now rewrite Hrun|]. split; [exact Hkind|].
  unfold new_events, chat, process_chat, bind. rewrite Hrun. simpl.
  split; [reflexivity|].
  rewrite skipn_app, skipn_all, Nat.sub_diag. reflexivity.
Qed.

Lemma process_text_aligned (text : string) (chunk_size : Z) :
  List.length (fst (process_text text chunk_size))
  = List.length (snd (process_text text chunk_size)).
Proof.
  unfold process_text.
  destruct (chunk_loop_extends chunk_size (sent_tokenize text) [] [] "")
    as (oc & pc & chunk & E & L).
  rewrite E. simpl. destruct chunk; simpl; [assumption|].
  rewrite !length_app. simpl. lia.
Qed.

(** The state after [reset_database(); vectors = add_document(chunks)]. *)
Lemma reset_add_document_state (g0 g1 : Globals) (chunks : list string) :
  (reset_database ;; assign_vectors (add_document chunks)) g0 = (Ok tt, g1) ->
  exists f,
    tfidf_fit chunks = Some f
    /\ g1 = MkGlobals (Some f) chunks [] (Some (transform f chunks))
              (conversation_history g0) (conversation_ttl_cache g0) (trace g0).
Proof.
  unfold reset_database, assign_vectors, add_document, fit_transform,
    set_documents, set_original_documents, set_vectors, set_vectorizer,
    modify, bind, gets, raise, ret.
  cbn. destruct (tfidf_fit chunks) as [f|]; cbn; [|discriminate].
  intros [= <-]. exists f. split; reflexivity.
Qed.

(** The reader that [process_and_add_document] picks either refuses the
    file type or chunks the text of the file. *)
Lemma reader_cases (file_path file_type : string) :
  (if String.eqb file_type "pdf" then read_pdf file_path
   else if String.eqb file_type "html" then read_html file_path
   else if String.eqb file_type "txt" then read_txt file_path
   else raise (ValueError "Unsupported file type"))
  = raise (ValueError "Unsupported file type")
  \/ exists kind, forall g,
       (if String.eqb file_type "pdf" then read_pdf file_path
        else if String.eqb file_type "html" then read_html file_path
        else if String.eqb file_type "txt" then read_txt file_path
        else raise (ValueError "Unsupported file type")) g
       = (match file_text kind file_path with
          | Ok text => Ok (process_text text CHUNK_SIZE)
          | Raise e => Raise e
          end, g).
Proof.
  unfold read_pdf, read_html, read_txt, bind, lift, ret.
  destruct (String.eqb file_type "pdf");
    [right; exists "pdf"; intros g; destruct (file_text "pdf" file_path); reflexivity|].
  destruct (String.eqb file_type "html");
    [right; exists "html"; intros g; destruct (file_text "html" file_path); reflexivity|].
  destruct (String.eqb file_type "txt");
    [right; exists "txt"; intros g; destruct (file_text "txt" file_path); reflexivity|].
  now left.
Qed.

(** The state after [reset_database(); vectors =
    process_and_add_document(path, type)]. *)
Lemma reset_process_state (g0 g1 : Globals) (file_path file_type : string) :
  (reset_database ;; assign_vectors (process_and_add_document file_path file_type)) g0
  = (Ok tt, g1) ->
  exists text f,
    tfidf_fit (snd (process_text text CHUNK_SIZE)) = Some f
    /\ g1 = MkGlobals (Some f)
              (snd (process_text text CHUNK_SIZE))
              (fst (process_text text CHUNK_SIZE))
              (Some (transform f (snd (process_text text CHUNK_SIZE))))
              (conversation_history g0) (conversation_ttl_cache g0) (trace g0).
Proof.
  unfold process_and_add_document.
  destruct (reader_cases file_path file_type) as [Hbad | (kind & Hread)].
  - rewrite Hbad. cbn. discriminate.
  - unfold reset_database, assign_vectors, add_document, fit_transform,
      set_documents, set_original_documents, set_vectors, set_vectorizer,
      modify, bind, gets, raise, ret.
    cbn. rewrite Hread.
    destruct (file_text kind file_path) as [text|e]; [|discriminate].
    destruct (process_text text CHUNK_SIZE) as [oc pc] eqn:E. cbn.
    destruct (tfidf_fit pc) as [f|] eqn:F; cbn; [|discriminate].
    intros [= <-]. exists text, f. rewrite E. simpl. split; [assumption|reflexivity].
Qed.

(** The last [min n (len row)] indices of [argsort row], highest score
    first: as many as asked for, distinct, in range, in non-increasing
    order of score, and no index left out scores higher than one taken. *)
Lemma top_of_argsort (row : list Q) (top_n : Z) :
  (1 <= top_n)%Z ->
  let indices := rev (Py.slice_from_neg (argsort row) top_n) in
  List.length indices = Nat.min (Z.to_nat top_n) (List.length row)
  /\ NoDup indices
  /\ Forall (fun i => i < List.length row) indices
  /\ StronglySorted (descending row) indices
  /\ (forall i j, i < List.length row -> ~ In i indices -> In j indices ->
       (score row i <= score row j)%Q).
Proof.
  intros Htop indices. subst indices.
  rewrite slice_from_neg_skipn by assumption.
  rewrite argsort_length.
  set (k := List.length row - Nat.min (Z.to_nat top_n) (List.length row)).
  pose proof (argsort_sorted row) as Hsorted.
  pose proof (argsort_NoDup row) as Hnodup.
  rewrite <- (firstn_skipn k (argsort row)) in Hsorted, Hnodup.
  apply StronglySorted_app_inv in Hsorted. destruct Hsorted as (_ & Htail & Hcross).
  repeat split.
  - rewrite length_rev, length_skipn, argsort_length. lia.
  - apply NoDup_rev. eapply NoDup_app_remove_l. exact Hnodup.
  - rewrite Forall_forall. intros i Hi. apply in_rev in Hi.
    apply argsort_in. rewrite <- (firstn_skipn k (argsort row)).
    apply in_or_app. now right.
  - apply (StronglySorted_rev _ _ _ Htail).
  - intros i j Hi Hout Hin. apply in_rev in Hin.
    apply Hcross; [|assumption].
    apply argsort_in in Hi. rewrite <- (firstn_skipn k (argsort row)) in Hi.
    apply in_app_or in Hi. destruct Hi as [Hi|Hi]; [assumption|].
    exfalso. apply Hout. now apply in_rev in Hi.
Qed.

(** C3, as the code has it: on an index in step with its corpus, for a
    query that gives at least one chunk and for [top_n >= 1],
    [find_best_matches] returns the corpus entries at [min top_n (corpus
    size)] distinct indices, in non-increasing order of similarity to
    the first query chunk, and no entry left out is more similar than an
    entry returned; asking for more than the corpus holds returns the
    whole corpus and raises nothing.  Nothing is said about the order
    among entries of equal similarity. *)
Theorem find_best_matches_top_n :
  forall (g : Globals) (f : Fitted) (query : string) (top_n : Z)
         (chunk : string) (more : list string),
    in_sync g f ->
    snd (process_text query CHUNK_SIZE) = chunk :: more ->
    (1 <= top_n)%Z ->
    let row := map (similarity f chunk) (documents g) in
    exists indices,
      fst (find_best_matches query top_n g)
      = Ok (map (fun i => nth i (original_documents g) "") indices,
            map (fun i => nth i (documents g) "") indices)
      /\ List.length indices
         = Nat.min (Z.to_nat top_n) (List.length (documents g))
      /\ NoDup indices
      /\ Forall (fun i => i < List.length (documents g)) indices
      /\ StronglySorted (descending row) indices
      /\ (forall i j, i < List.length (documents g) ->
             ~ In i indices -> In j indices -> (score row i <= score row j)%Q).
Proof.
  intros g f query top_n chunk more (Hfit & Hvec & Hlen) Hquery Htop row.
  assert (Hrun : best_match_indices query top_n g
                 = (Ok (rev (Py.slice_from_neg (argsort row) top_n)),
                    log_event (SimilaritySearch query) g)).
  { rewrite best_match_indices_run, similarities_run. simpl fst.
    rewrite Hfit, Hvec, Hquery.
    unfold mat_mul_T, transform. simpl. rewrite Nat.eqb_refl. simpl.
    rewrite map_map. reflexivity. }
  destruct (top_of_argsort row top_n Htop) as (H1 & H2 & H3 & H4 & H5).
  unfold row in H1, H3, H5. rewrite length_map in H1, H3, H5.
  exists (rev (Py.slice_from_neg (argsort row) top_n)).
  repeat split; try assumption.
  rewrite find_best_matches_run, Hrun. simpl.
  rewrite !select_in_bounds; [reflexivity | assumption | now rewrite Hlen].
Qed.

(** C8, as the code has it: after [reset_database()] and [vectors =
    add_document(chunks)], the corpus is exactly the new chunks and every
    index a later query computes is below their number, so
    [documents[i]] is in bounds and no index refers to the corpus before
    the reset.  The original-document list is not written by
    [add_document]: on this path it is empty, and [find_best_matches]
    raises [IndexError] as soon as one index is computed.  When the
    chunks come in through [process_and_add_document], which also stores
    the original chunks, the original-document list has the same length,
    holds only chunks of the new text, and [find_best_matches] returns
    the entries at those indices; and when the rows that [add_document]
    returns are not bound to [vectors], a later query computes no index
    at all. *)
Theorem query_after_reset_within_new_corpus :
  (forall (g0 g1 g2 : Globals) (chunks : list string)
          (query : string) (top_n : Z) (indices : list nat),
     (reset_database ;; assign_vectors (add_document chunks)) g0 = (Ok tt, g1) ->
     same_index g1 g2 ->
     fst (best_match_indices query top_n g2) = Ok indices ->
     documents g2 = chunks
     /\ Forall (fun i => i < List.length chunks) indices
     /\ select (documents g2) indices = Ok (map (fun i => nth i chunks "") indices)
     /\ original_documents g2 = []
     /\ fst (find_best_matches query top_n g2)
        = match indices with
          | [] => Ok ([], [])
          | _ :: _ => Raise IndexError
          end)
  /\
  (forall (g0 g1 g2 : Globals) (file_path file_type : string)
          (query : string) (top_n : Z) (indices : list nat),
     (reset_database ;; assign_vectors (process_and_add_document file_path file_type)) g0
     = (Ok tt, g1) ->
     same_index g1 g2 ->
     fst (best_match_indices query top_n g2) = Ok indices ->
     (exists text,
        original_documents g2 = fst (process_text text CHUNK_SIZE)
        /\ documents g2 = snd (process_text text CHUNK_SIZE))
     /\ List.length (original_documents g2) = List.length (documents g2)
     /\ Forall (fun i => i < List.length (documents g2)) indices
     /\ fst (find_best_matches query top_n g2)
        = Ok (map (fun i => nth i (original_documents g2) "") indices,
              map (fun i => nth i (documents g2) "") indices))
  /\
  (forall (g0 g1 g2 : Globals) (chunks : list string) (v : matrix)
          (query : string) (top_n : Z),
     (reset_database ;; add_document chunks) g0 = (Ok v, g1) ->
     same_index g1 g2 ->
     is_ok (fst (best_match_indices query top_n g2)) = false).
Proof.
  split; [|split].
  - intros g0 g1 g2 chunks query top_n indices Hload (_ & Hdocs & Horig & Hvec) Hidx.
    apply reset_add_document_state in Hload. destruct Hload as (f & _ & ->).
    simpl in Hdocs, Horig, Hvec.
    pose proof (best_match_indices_bound _ _ _ _ _ Hvec Hidx) as Hb.
    simpl in Hb. rewrite length_map in Hb.
    split; [assumption|]. split; [assumption|].
    split; [rewrite Hdocs; now apply select_in_bounds|].
    split; [assumption|].
    rewrite find_best_matches_run.
    pose proof (best_match_indices_state query top_n g2) as Hs.
    destruct (best_match_indices query top_n g2) as [[idx|e] g']; [|discriminate].
    simpl in Hidx, Hs. injection Hidx as ->. subst g'.
    cbn [original_documents documents log_event]. rewrite Horig.
    destruct indices as [|i rest]; [reflexivity|].
    simpl. unfold Py.getitem. destruct i; reflexivity.
  - intros g0 g1 g2 file_path file_type query top_n indices Hload
      (_ & Hdocs & Horig & Hvec) Hidx.
    apply reset_process_state in Hload. destruct Hload as (text & f & _ & ->).
    simpl in Hdocs, Horig, Hvec.
    pose proof (best_match_indices_bound _ _ _ _ _ Hvec Hidx) as Hb.
    simpl in Hb. rewrite length_map in Hb.
    assert (Hlen : List.length (original_documents g2) = List.length (documents g2)).
    { rewrite Hdocs, Horig. apply process_text_aligned. }
    rewrite <- Hdocs in Hb.
    repeat split; try assumption.
    + exists text. split; assumption.
    + rewrite find_best_matches_run.
      pose proof (best_match_indices_state query top_n g2) as Hs.
      destruct (best_match_indices query top_n g2) as [[idx|e] g']; [|discriminate].
      simpl in Hidx, Hs. injection Hidx as ->. subst g'. simpl.
      rewrite !select_in_bounds; [reflexivity | assumption | now rewrite Hlen].
  - intros g0 g1 g2 chunks v query top_n Hload (_ & _ & _ & Hvec).
    assert (Hnone : vectors g1 = None).
    { revert Hload.
      unfold reset_database, add_document, fit_transform,
        set_documents, set_original_documents, set_vectors, set_vectorizer,
        modify, bind, gets, raise, ret.
      cbn. destruct (tfidf_fit chunks); cbn; [|discriminate].
      now intros [= _ <-]. }
    rewrite best_match_indices_run, similarities_run. simpl fst.
    rewrite Hvec, Hnone.
    destruct (vectorizer g2); [|reflexivity].
    destruct (snd (process_text query CHUNK_SIZE)); reflexivity.
Qed.

End IndexFacts.

(** ** The TTL cache *)

Module TTLFacts.

Import TTL.

Lemma live_mono (time time' : Z) (l : Link) :
  (time <= time')%Z -> live time' l = true -> live time l = true.
Proof. unfold live. intros Hle H. apply Z.ltb_lt in H. apply Z.ltb_lt. lia. Qed.

Lemma drop_expired_all_live (time : Z) (ls : list Link) :
  Forall (fun l => live time l = true) ls -> drop_expired time ls = ls.
Proof.
  destruct 1 as [|l rest Hl _]; simpl; [reflexivity | now rewrite Hl].
Qed.

Lemma drop_expired_incl (time : Z) (ls : list Link) (l : Link) :
  In l (drop_expired time ls) -> In l ls.
Proof.
  induction ls as [|a rest IH]; simpl; [tauto|].
  destruct (live time a); simpl; intuition.
Qed.

(** Reading later than the sweep: what the sweep unlinked is skipped by
    the read anyway. *)
Lemma filter_live_drop_expired (time time' : Z) (ls : list Link) :
  (time <= time')%Z ->
  filter (live time') (drop_expired time ls) = filter (live time') ls.
Proof.
  intros Hle. induction ls as [|a rest IH]; simpl; [reflexivity|].
  destruct (live time a) eqn:E; [reflexivity|].
  destruct (live time' a) eqn:E'; [|assumption].
  apply (live_mono time time') in E'; [congruence | assumption].
Qed.

Lemma drop_expired_snoc_live (time : Z) (ls : list Link) (l : Link) :
  live time l = true ->
  drop_expired time (ls ++ [l]) = drop_expired time ls ++ [l].
Proof.
  intros Hl. induction ls as [|a rest IH]; simpl.
  - now rewrite Hl.
  - destruct (live time a); [reflexivity | assumption].
Qed.

Lemma evict_step (maxsize : Z) (ls : list Link) (fuel : nat) :
  evict maxsize ls (S fuel)
  = if (Z.of_nat (List.length ls) + 1 >? maxsize)%Z
    then match ls with [] => [] | _ :: rest => evict maxsize rest fuel end
    else ls.
Proof. reflexivity. Qed.

Lemma evict_skipn (maxsize : Z) (fuel : nat) :
  (1 <= maxsize)%Z ->
  forall ls, List.length ls <= fuel ->
    evict maxsize ls fuel = skipn (List.length ls + 1 - Z.to_nat maxsize) ls.
Proof.
  intros Hmax. induction fuel as [|fuel IH]; intros ls Hlen.
  - destruct ls; [simpl; now rewrite skipn_nil | simpl in Hlen; lia].
  - rewrite evict_step.
    destruct (Z.gtb_spec (Z.of_nat (List.length ls) + 1) maxsize) as [Hgt|Hle].
    + destruct ls as [|a rest]; [simpl in Hgt; lia|].
      rewrite IH by (simpl in Hlen; lia).
      simpl List.length in *.
      replace (S (List.length rest) + 1 - Z.to_nat maxsize)
        with (S (List.length rest + 1 - Z.to_nat maxsize)) by lia.
      reflexivity.
    + replace (List.length ls + 1 - Z.to_nat maxsize) with 0 by lia.
      reflexivity.
Qed.

Lemma evict_incl (maxsize : Z) (fuel : nat) :
  forall ls l, In l (evict maxsize ls fuel) -> In l ls.
Proof.
  induction fuel as [|fuel IH]; intros ls l; simpl; [tauto|].
  destruct (Z.of_nat (List.length ls) + 1 >? maxsize)%Z; [|tauto].
  destruct ls as [|a rest]; [tauto|]. intros H. right. now apply IH.
Qed.

Lemma has_key_false (k : string) (ls : list Link) :
  has_key k ls = false <-> (forall l, In l ls -> key l <> k).
Proof.
  unfold has_key. split.
  - intros H l Hl Hk.
    assert (existsb (fun l0 => String.eqb (key l0) k) ls = true) as Ht.
    { apply existsb_exists. exists l. split; [assumption|]. now apply String.eqb_eq. }
    congruence.
  - intros H. destruct (existsb _ ls) eqn:E; [|reflexivity].
    apply existsb_exists in E. destruct E as (l & Hl & Hk).
    apply String.eqb_eq in Hk. exfalso. eapply H; eassumption.
Qed.

Lemma remove_key_absent (k : string) (ls : list Link) :
  has_key k ls = false -> remove_key k ls = ls.
Proof.
  intros H. rewrite has_key_false in H. unfold remove_key.
  induction ls as [|a rest IH]; simpl; [reflexivity|].
  destruct (String.eqb_spec (key a) k) as [Hk|Hk]; simpl.
  - exfalso. apply (H a); simpl; auto.
  - f_equal. apply IH. intros l Hl. apply H. now right.
Qed.

Lemma remove_key_has_key (k : string) (ls : list Link) :
  has_key k (remove_key k ls) = false.
Proof.
  apply has_key_false. unfold remove_key. intros l Hl.
  apply filter_In in Hl. destruct Hl as [_ Hl].
  apply negb_true_iff, String.eqb_neq in Hl. exact Hl.
Qed.

Lemma remove_key_incl (k : string) (ls : list Link) (l : Link) :
  In l (remove_key k ls) -> In l ls.
Proof. unfold remove_key. intros H. now apply filter_In in H. Qed.

Lemma setitem_ok (time : Z) (k : string) (v : Entry) (c : TTLCache) :
  (1 <= maxsize c)%Z ->
  setitem time k v c
  = (Ok tt, MkCache (maxsize c) (ttl c)
              (kept time k c ++ [MkLink k (time + ttl c) v])).
Proof.
  intros Hmax. unfold setitem, kept. simpl.
  destruct (Z.gtb_spec 1 (maxsize c)); [lia | reflexivity].
Qed.

Lemma kept_incl (time : Z) (k : string) (c : TTLCache) (l : Link) :
  In l (kept time k c) -> In l (links c).
Proof.
  unfold kept. intros H. apply (drop_expired_incl time).
  destruct (has_key k (drop_expired time (links c))).
  - eapply remove_key_incl; eassumption.
  - eapply evict_incl; eassumption.
Qed.

Lemma kept_has_key (time : Z) (k : string) (c : TTLCache) :
  has_key k (kept time k c) = false.
Proof.
  unfold kept.
  destruct (has_key k (drop_expired time (links c))) eqn:E.
  - apply remove_key_has_key.
  - rewrite has_key_false in *. intros l Hl. apply E.
    eapply evict_incl; eassumption.
Qed.

(** Whatever [setitem] does, the links afterwards are old links or the
    new one, and the configuration stays. *)
Lemma setitem_links (time : Z) (k : string) (v : Entry) (c : TTLCache) (l : Link) :
  In l (links (snd (setitem time k v c))) ->
  In l (links c) \/ l = MkLink k (time + ttl c) v.
Proof.
  unfold setitem.
  destruct (1 >? maxsize c)%Z; simpl.
  - intros H. left. eapply drop_expired_incl; eassumption.
  - intros H. apply in_app_or in H. destruct H as [H|[<-|[]]]; [left | now right].
    fold (kept time k c) in H. eapply kept_incl; eassumption.
Qed.

Lemma setitem_config (time : Z) (k : string) (v : Entry) (c : TTLCache) :
  maxsize (snd (setitem time k v c)) = maxsize c
  /\ ttl (snd (setitem time k v c)) = ttl c.
Proof.
  unfold setitem. destruct (1 >? maxsize c)%Z; simpl; auto.
Qed.

Lemma keep_last_skipn_app {A} (n j : nat) (ls suffix : list A) :
  j <= List.length ls ->
  j <= List.length ls + List.length suffix - n ->
  keep_last n (skipn j ls ++ suffix) = keep_last n (ls ++ suffix).
Proof.
  intros Hj Hn. unfold keep_last.
  rewrite !length_app, length_skipn.
  replace (skipn j ls ++ suffix) with (skipn j (ls ++ suffix)).
  - rewrite skipn_skipn. f_equal. lia.
  - rewrite skipn_app. replace (j - List.length ls) with 0 by lia. reflexivity.
Qed.

(** A sweep unlinks only links that no read from then on returns. *)
Lemma expire_same_reads (time : Z) (c : TTLCache) :
  same_reads_from time c (expire time c).
Proof.
  intros read_time Hle. unfold values, expire. simpl links.
  now rewrite filter_live_drop_expired.
Qed.


Lemma has_key_drop_expired (k : string) (time : Z) (ls : list Link) :
  has_key k ls = false -> has_key k (drop_expired time ls) = false.
Proof.
  rewrite !has_key_false. intros H l Hl. apply H.
  eapply drop_expired_incl; eassumption.
Qed.

Lemma drop_expired_length (time : Z) (ls : list Link) :
  List.length (drop_expired time ls) <= List.length ls.
Proof.
  induction ls as [|a rest IH]; simpl; [lia|].
  destruct (live time a); simpl; lia.
Qed.

(** A write under a new key into a cache with room keeps every link
    that has not expired. *)
Lemma kept_all (time : Z) (k : string) (c : TTLCache) :
  has_key k (links c) = false ->
  List.length (links c) < Z.to_nat (maxsize c) ->
  kept time k c = drop_expired time (links c).
Proof.
  intros Hkey Hroom. unfold kept.
  rewrite (has_key_drop_expired k time _ Hkey).
  pose proof (drop_expired_length time (links c)) as Hlen.
  destruct (List.length (drop_expired time (links c))) eqn:E; [reflexivity|].
  rewrite evict_step.
  destruct (Z.gtb_spec (Z.of_nat (List.length (drop_expired time (links c))) + 1)
              (maxsize c)); [lia | reflexivity].
Qed.

End TTLFacts.

(** ** The cache-based conversation memory *)

Section MemoryFacts.

Import TTL TTLFacts.

Lemma add_to_conversation_cache_run (now : string) (time : Z)
  (u x r : string) (g : Globals) :
  add_to_conversation_cache now time u x r g
  = (fst (setitem time now (MkEntry u x r (Some now)) (conversation_ttl_cache g)),
     MkGlobals (vectorizer g) (documents g) (original_documents g) (vectors g)
       (conversation_history g)
       (snd (setitem time now (MkEntry u x r (Some now)) (conversation_ttl_cache g)))
       (trace g)).
Proof.
  unfold add_to_conversation_cache, set_conversation_ttl_cache, modify, bind, gets, lift.
  destruct (setitem time now _ (conversation_ttl_cache g)) as [res c'].
  reflexivity.
Qed.

Lemma snapshot_run (time : Z) (g : Globals) :
  snapshot time g = (Ok (values time (conversation_ttl_cache g)), swept time g).
Proof.
  unfold snapshot, set_conversation_ttl_cache, modify, bind, gets, ret, swept.
  cbv beta iota zeta. f_equal. f_equal.
  unfold values, expire. simpl links. now rewrite filter_live_drop_expired.
Qed.

(** Recording entries with new, distinct keys into a cache within its
    capacity, none of whose links has expired by the time of the read:
    the cache then holds the last [maxsize] of the old links followed by
    the new ones. *)
Lemma record_all_links (read_time : Z) (rs : list Recording) :
  forall g,
    (1 <= maxsize (conversation_ttl_cache g))%Z ->
    List.length (links (conversation_ttl_cache g))
      <= Z.to_nat (maxsize (conversation_ttl_cache g)) ->
    Forall (fun l => live read_time l = true) (links (conversation_ttl_cache g)) ->
    (forall l r, In l (links (conversation_ttl_cache g)) -> In r rs ->
                 key l <> rec_now r) ->
    NoDup (map rec_now rs) ->
    (forall r, In r rs ->
       (rec_time r <= read_time < rec_time r + ttl (conversation_ttl_cache g))%Z) ->
    fst (record_all rs g) = Ok tt
    /\ links (conversation_ttl_cache (snd (record_all rs g)))
       = keep_last (Z.to_nat (maxsize (conversation_ttl_cache g)))
           (links (conversation_ttl_cache g)
            ++ map (fun r => MkLink (rec_now r)
                               (rec_time r + ttl (conversation_ttl_cache g))
                               (rec_entry r)) rs).
Proof.
  induction rs as [|r rest IH]; intros g Hmax Hcap Hlive Hfresh Hnodup Htimes.
  - simpl. split; [reflexivity|]. rewrite app_nil_r. unfold keep_last.
    replace (_ - _) with 0 by lia. reflexivity.
  - set (c := conversation_ttl_cache g) in *.
    assert (Hr : (rec_time r <= read_time < rec_time r + ttl c)%Z)
      by (apply Htimes; now left).
    assert (Hkept : kept (rec_time r) (rec_now r) c
                    = skipn (List.length (links c) + 1 - Z.to_nat (maxsize c)) (links c)).
    { unfold kept. rewrite drop_expired_all_live.
      - replace (has_key (rec_now r) (links c)) with false.
        + now apply evict_skipn.
        + symmetry. apply has_key_false. intros l Hl. apply Hfresh; [assumption | now left].
      - eapply Forall_impl; [|exact Hlive]. intros l Hl.
        apply (live_mono _ read_time); [lia | assumption]. }
    simpl record_all. unfold bind.
    rewrite add_to_conversation_cache_run. fold c. unfold rec_entry in *.
    rewrite setitem_ok by assumption. rewrite Hkept. simpl fst. simpl snd.
    set (g' := MkGlobals _ _ _ _ _ _ _).
    specialize (IH g'). subst g'. simpl conversation_ttl_cache in IH.
    simpl maxsize in IH. simpl ttl in IH. simpl links in IH.
    inversion Hnodup as [|? ? Hnotin Hnodup']; subst.
    destruct IH as [IHok IHlinks].
    + assumption.
    + rewrite length_app, length_skipn. simpl. lia.
    + apply Forall_app. split.
      * rewrite Forall_forall in *. intros l Hl. apply Hlive.
        rewrite <- (firstn_skipn (List.length (links c) + 1 - Z.to_nat (maxsize c))).
        apply in_or_app. now right.
      * repeat constructor. unfold live. simpl. apply Z.ltb_lt. lia.
    + intros l r' Hl Hr'. apply in_app_or in Hl. destruct Hl as [Hl|[<-|[]]].
      * apply Hfresh; [|now right].
        rewrite <- (firstn_skipn (List.length (links c) + 1 - Z.to_nat (maxsize c))).
        apply in_or_app. now right.
      * simpl. intros Heq. apply Hnotin. rewrite Heq. now apply in_map.
    + assumption.
    + intros r' Hr'. apply Htimes. now right.
    + split; [exact IHok|]. rewrite IHlinks. rewrite <- app_assoc.
      apply keep_last_skipn_app; simpl; lia.
Qed.

Lemma record_all_stale_key (now : string) (read_time : Z) (rs : list Recording) :
  forall g,
    (forall r, In r rs -> rec_now r <> now) ->
    stale_key now read_time (conversation_ttl_cache g) ->
    stale_key now read_time (conversation_ttl_cache (snd (record_all rs g))).
Proof.
  induction rs as [|r rest IH]; intros g Hkeys Hinv.
  - exact Hinv.
  - simpl record_all. unfold bind. rewrite add_to_conversation_cache_run.
    set (e := MkEntry _ _ _ _).
    set (g' := MkGlobals _ _ _ _ _ _ _).
    assert (Hinv' : stale_key now read_time (conversation_ttl_cache g')).
    { subst g'. simpl. intros l Hl. apply setitem_links in Hl.
      destruct Hl as [Hl| ->]; [now apply Hinv|]. simpl. split; [|reflexivity].
      intros Heq. exfalso. apply (Hkeys r); [now left | assumption]. }
    destruct (fst (setitem _ _ e _)).
    + apply IH; [|assumption]. intros r' Hr'. apply Hkeys. now right.
    + exact Hinv'.
Qed.

(** C4, as the code has it.  Capacity: take a cache of capacity [C >= 1]
    that is within its capacity, and record [C + 1] entries whose
    timestamps are new and pairwise distinct; a read at a time when none
    of the entries, old or new, has expired returns exactly the last [C]
    recorded, in the order recorded.  Expiry: once the timer has advanced
    by the expiry from the recording of an entry, no later read returns
    an entry with its timestamp, whatever was recorded under other
    timestamps in between; nothing else is called to evict it. *)
Theorem capacity_and_expiry :
  (forall (g : Globals) (rs : list Recording) (read_time : Z),
     (1 <= maxsize (conversation_ttl_cache g))%Z ->
     List.length (links (conversation_ttl_cache g))
       <= Z.to_nat (maxsize (conversation_ttl_cache g)) ->
     Forall (fun l => live read_time l = true) (links (conversation_ttl_cache g)) ->
     (forall l r, In l (links (conversation_ttl_cache g)) -> In r rs ->
                  key l <> rec_now r) ->
     List.length rs = S (Z.to_nat (maxsize (conversation_ttl_cache g))) ->
     NoDup (map rec_now rs) ->
     (forall r, In r rs ->
        (rec_time r <= read_time < rec_time r + ttl (conversation_ttl_cache g))%Z) ->
     fst (record_all rs g) = Ok tt
     /\ fst (snapshot read_time (snd (record_all rs g))) = Ok (map rec_entry (tl rs))
     /\ List.length (map rec_entry (tl rs))
        = Z.to_nat (maxsize (conversation_ttl_cache g)))
  /\
  (forall (g : Globals) (now : string) (time : Z) (u x r : string)
          (later : list Recording) (read_time : Z),
     (1 <= maxsize (conversation_ttl_cache g))%Z ->
     (forall l, In l (links (conversation_ttl_cache g)) ->
                timestamp (value l) = Some (key l)) ->
     (forall r', In r' later -> rec_now r' <> now) ->
     (time + ttl (conversation_ttl_cache g) <= read_time)%Z ->
     exists entries,
       fst (snapshot read_time
              (snd ((add_to_conversation_cache now time u x r ;; record_all later) g)))
       = Ok entries
       /\ forall e, In e entries -> timestamp e <> Some now).
Proof.
  split.
  - intros g rs read_time Hcap Hfits Hlive Hfresh Hlen Hnodup Htimes.
    destruct (record_all_links read_time rs g Hcap Hfits Hlive Hfresh Hnodup Htimes)
      as [Hok Hlinks].
    split; [assumption|]. rewrite snapshot_run. simpl fst.
    set (c := conversation_ttl_cache g) in *.
    unfold values. rewrite Hlinks.
    unfold keep_last. rewrite length_app, length_map, Hlen.
    replace (List.length (links c) + S (Z.to_nat (maxsize c)) - Z.to_nat (maxsize c))
      with (List.length (links c) + 1) by lia.
    rewrite skipn_app.
    replace (List.length (links c) + 1 - List.length (links c)) with 1 by lia.
    rewrite skipn_all2 by lia. simpl app.
    destruct rs as [|r0 rest]; [discriminate|]. simpl.
    split; [|rewrite length_map; simpl in Hlen; lia].
    f_equal.
    assert (Hall : forall r, In r rest ->
              (rec_time r <= read_time < rec_time r + ttl c)%Z)
      by (intros r Hr; apply Htimes; now right).
    clear - Hall. induction rest as [|r rest IH]; simpl; [reflexivity|].
    unfold live at 1. simpl.
    destruct (Z.ltb_spec read_time (rec_time r + ttl c)) as [_|Hbad].
    + simpl. f_equal. apply IH. intros r' Hr'. apply Hall. now right.
    + specialize (Hall r (or_introl eq_refl)). lia.
  - intros g now time u x r later read_time Hmax Hkeyed Hlater Hpast.
    unfold bind at 1. rewrite add_to_conversation_cache_run.
    rewrite setitem_ok by assumption. cbn [fst snd].
    set (g' := MkGlobals _ _ _ _ _ _ _).
    assert (Hinv : stale_key now read_time (conversation_ttl_cache g')).
    { subst g'. simpl. intros l Hl. apply in_app_or in Hl.
      destruct Hl as [Hl|[<-|[]]].
      - split.
        + intros Heq. exfalso.
          pose proof (kept_has_key time now (conversation_ttl_cache g)) as Hnone.
          rewrite has_key_false in Hnone. exact (Hnone l Hl Heq).
        + apply Hkeyed. eapply kept_incl; eassumption.
      - simpl. split; [intros _; assumption | reflexivity]. }
    apply (record_all_stale_key now read_time later g' Hlater) in Hinv.
    rewrite snapshot_run. simpl fst. eexists. split; [reflexivity|].
    intros e He Hstamp. unfold values in He.
    apply in_map_iff in He. destruct He as (l & <- & Hl).
    apply filter_In in Hl. destruct Hl as [Hl Hlive].
    destruct (Hinv l Hl) as [Hexp Hkey].
    rewrite Hkey in Hstamp. injection Hstamp as Hk. specialize (Hexp Hk).
    unfold live in Hlive. apply Z.ltb_lt in Hlive. lia.
Qed.

(** C9: when two entries are recorded under the same timestamp, the
    second while the first has not expired, the second takes the place
    of the first: a read that would have returned the first entry
    returns the second one instead, next to the same other entries, so
    two recordings have added one entry. *)
Theorem same_timestamp_overwrites :
  forall (g : Globals) (now : string) (time1 time2 : Z)
         (u1 x1 r1 u2 x2 r2 : string) (read_time : Z),
    (1 <= maxsize (conversation_ttl_cache g))%Z ->
    (time1 <= time2)%Z ->
    (time2 <= read_time)%Z ->
    (read_time < time1 + ttl (conversation_ttl_cache g))%Z ->
    let g1 := snd (add_to_conversation_cache now time1 u1 x1 r1 g) in
    let g2 := snd (add_to_conversation_cache now time2 u2 x2 r2 g1) in
    exists others,
      fst (snapshot read_time g1) = Ok (others ++ [MkEntry u1 x1 r1 (Some now)])
      /\ fst (snapshot read_time g2) = Ok (others ++ [MkEntry u2 x2 r2 (Some now)]).
Proof.
  intros g now time1 time2 u1 x1 r1 u2 x2 r2 read_time Hmax H12 H2r Hr1 g1 g2.
  subst g2 g1. rewrite !add_to_conversation_cache_run. simpl snd.
  rewrite !snapshot_run. simpl fst. simpl conversation_ttl_cache.
  set (c := conversation_ttl_cache g) in *.
  rewrite (setitem_ok time1) by assumption. simpl snd.
  set (front := kept time1 now c).
  set (l1 := MkLink now (time1 + ttl c) (MkEntry u1 x1 r1 (Some now))).
  rewrite setitem_ok by assumption. simpl snd. simpl ttl.
  assert (Hl1 : live time2 l1 = true) by (unfold live; simpl; apply Z.ltb_lt; lia).
  assert (Hfront : has_key now (drop_expired time2 front) = false).
  { apply has_key_false. intros l Hl. apply drop_expired_incl in Hl.
    pose proof (kept_has_key time1 now c) as Hnone.
    rewrite has_key_false in Hnone. now apply Hnone. }
  assert (Hkept : kept time2 now (MkCache (maxsize c) (ttl c) (front ++ [l1]))
                  = drop_expired time2 front).
  { unfold kept. simpl links. rewrite drop_expired_snoc_live by assumption.
    replace (has_key now (drop_expired time2 front ++ [l1])) with true.
    - unfold remove_key. rewrite filter_app. simpl.
      rewrite String.eqb_refl. simpl. rewrite app_nil_r.
      now apply remove_key_absent.
    - symmetry. unfold has_key. rewrite existsb_app. simpl.
      rewrite String.eqb_refl. apply orb_true_iff. right. reflexivity. }
  rewrite Hkept.
  set (l2 := MkLink now (time2 + ttl c) (MkEntry u2 x2 r2 (Some now))).
  assert (Hl1r : live read_time l1 = true)
    by (unfold live; simpl; apply Z.ltb_lt; lia).
  assert (Hl2r : live read_time l2 = true)
    by (unfold live; simpl; apply Z.ltb_lt; lia).
  exists (map value (filter (live read_time) front)).
  unfold values. simpl links. rewrite !filter_app, !map_app.
  rewrite filter_live_drop_expired by assumption.
  cbn [filter]. rewrite Hl1r, Hl2r.
  split; reflexivity.
Qed.

End MemoryFacts.

(** ** Conversation rounds *)

Section ConversationFacts.

Context {collab : Collaborators}.

Lemma get_cohere_response_run (query context : string) (g : Globals) :
  get_cohere_response query context g
  = (match co_chat cohere_model (chat_messages query context) with
     | Ok text => Ok (Py.strip text)
     | Raise e => Raise e
     end,
     log_event (CohereChat cohere_model (chat_messages query context)) g).
Proof.
  unfold get_cohere_response, emit, modify, bind, lift, ret. simpl.
  destruct (co_chat _ _); reflexivity.
Qed.

Lemma process_chat_run (query : string) (is_debug : bool) (g : Globals) :
  process_chat query is_debug g =
  match fst (find_best_matches query NUMBER_OF_MATCHES g) with
  | Raise e => (Raise e, log_event (SimilaritySearch query) g)
  | Ok (originals, _) =>
      let context := Py.join (Py.nl +++ Py.nl) originals in
      (match co_chat cohere_model (chat_messages query context) with
       | Ok text => Ok (Py.strip text, context)
       | Raise e => Raise e
       end,
       after_chat query is_debug originals g)
  end.
Proof.
  unfold process_chat, bind at 1.
  pose proof (find_best_matches_state query NUMBER_OF_MATCHES g) as Hs.
  destruct (find_best_matches query NUMBER_OF_MATCHES g) as [[[originals processed]|e] g1];
    simpl in Hs; subst g1; simpl fst; [|reflexivity].
  unfold after_chat. cbv zeta.
  destruct is_debug; unfold bind, emit, modify, ret;
    rewrite get_cohere_response_run; simpl;
    destruct (co_chat _ _); reflexivity.
Qed.

Lemma log_event_memory (e : Event) (g : Globals) : same_memory g (log_event e g).
Proof. split; reflexivity. Qed.

Lemma after_chat_memory (query : string) (is_debug : bool) (originals : list string)
  (g : Globals) : same_memory g (after_chat query is_debug originals g).
Proof. unfold after_chat. destruct is_debug; split; reflexivity. Qed.

Lemma after_chat_trace (query : string) (is_debug : bool) (originals : list string)
  (g : Globals) :
  exists rest,
    trace (after_chat query is_debug originals g)
    = trace g ++ SimilaritySearch query :: rest
    /\ Forall (follows_search query) rest
    /\ existsb is_cohere_chat rest = true.
Proof.
  set (context := Py.join (Py.nl +++ Py.nl) originals).
  destruct is_debug.
  - exists [Printed ("Context: " +++ context);
            CohereChat cohere_model (chat_messages query context)].
    unfold after_chat, log_event. simpl trace. rewrite <- !app_assoc.
    repeat split.
    constructor; [exact I|]. constructor; [simpl; auto | constructor].
  - exists [CohereChat cohere_model (chat_messages query context)].
    unfold after_chat, log_event. simpl trace. rewrite <- !app_assoc.
    repeat split.
    constructor; [simpl; auto | constructor].
Qed.

(** A round of [process_chat] leaves the memory alone, and what it adds
    to the trace starts with the similarity search on its query text. *)
Lemma process_chat_effects (query : string) (is_debug : bool) (g : Globals) :
  same_memory g (snd (process_chat query is_debug g))
  /\ exists rest,
       trace (snd (process_chat query is_debug g))
       = trace g ++ SimilaritySearch query :: rest
       /\ Forall (follows_search query) rest
       /\ (is_ok (fst (process_chat query is_debug g)) = true ->
           existsb is_cohere_chat rest = true).
Proof.
  rewrite process_chat_run.
  destruct (fst (find_best_matches query NUMBER_OF_MATCHES g)) as [[originals processed]|e].
  - cbv zeta. simpl snd. split; [apply after_chat_memory|].
    destruct (after_chat_trace query is_debug originals g) as (rest & Ht & Hf & Hc).
    exists rest. auto.
  - simpl. split; [split; reflexivity|]. exists []. repeat split.
    + constructor.
    + discriminate.
Qed.

Lemma conversation_run (user_query : string) (is_debug : bool) (g : Globals) :
  conversation user_query is_debug g =
  let query := compose_query (render_history (conversation_history g)) user_query in
  match process_chat query is_debug g with
  | (Raise e, g1) => (Raise e, g1)
  | (Ok (response, context), g1) =>
      (Ok response,
       MkGlobals (vectorizer g1) (documents g1) (original_documents g1) (vectors g1)
         (conversation_history g1 ++ [MkEntry user_query context response None])
         (conversation_ttl_cache g1) (trace g1))
  end.
Proof.
  unfold conversation, bind at 1, gets. cbv zeta. unfold bind at 1.
  destruct (process_chat _ is_debug g) as [[[response context]|e] g1]; reflexivity.
Qed.

(** The retrieval does not read the cache. *)
Lemma find_best_matches_swept (time : Z) (query : string) (top_n : Z) (g : Globals) :
  fst (find_best_matches query top_n (swept time g))
  = fst (find_best_matches query top_n g).
Proof.
  rewrite !find_best_matches_run, !best_match_indices_run, !similarities_run.
  cbn [fst snd swept log_event vectorizer documents original_documents vectors].
  destruct (vectorizer g) as [f|]; [|reflexivity].
  destruct (snd (process_text query CHUNK_SIZE)) as [|chunk more]; [reflexivity|].
  destruct (vectors g) as [v|]; [|reflexivity].
  destruct (mat_mul_T _ v) as [sims|e]; [|reflexivity].
  destruct (map argsort sims) as [|first_row others]; [reflexivity|].
  destruct (select (original_documents g) _); [|reflexivity].
  destruct (select (documents g) _); reflexivity.
Qed.

(** A round of [process_chat] on a swept state is the round on the
    state itself, swept afterwards. *)
Lemma process_chat_swept (time : Z) (query : string) (is_debug : bool) (g : Globals) :
  process_chat query is_debug (swept time g)
  = (fst (process_chat query is_debug g), swept time (snd (process_chat query is_debug g))).
Proof.
  rewrite !process_chat_run, find_best_matches_swept.
  destruct (fst (find_best_matches query NUMBER_OF_MATCHES g))
    as [[originals processed]|e]; [|reflexivity].
  cbv zeta. unfold after_chat. destruct is_debug; reflexivity.
Qed.

Lemma conversation_cache_run (clock : Clock) (user_query : string) (is_debug : bool)
  (g : Globals) :
  conversation_cache clock user_query is_debug g =
  let query :=
    compose_query
      (render_history (TTL.values (timer_at_snapshot clock) (conversation_ttl_cache g)))
      user_query in
  match process_chat query is_debug g with
  | (Raise e, g1) => (Raise e, swept (timer_at_snapshot clock) g1)
  | (Ok (response, context), g1) =>
      match add_to_conversation_cache (datetime_now_isoformat clock)
              (timer_at_store clock) user_query context response
              (swept (timer_at_snapshot clock) g1) with
      | (Ok _, g2) => (Ok response, g2)
      | (Raise e, g2) => (Raise e, g2)
      end
  end.
Proof.
  unfold conversation_cache, bind at 1. rewrite snapshot_run. cbv zeta.
  unfold bind at 1. rewrite process_chat_swept.
  destruct (process_chat _ is_debug g) as [[[response context]|e] g1]; [|reflexivity].
  cbn [fst snd]. unfold bind, ret.
  destruct (add_to_conversation_cache _ _ user_query context response _) as [[[]|e] g2];
    reflexivity.
Qed.

(** The trace after a round of either conversation function is the
    trace after its [process_chat]. *)
Lemma conversation_trace (user_query : string) (is_debug : bool) (g : Globals) :
  trace (snd (conversation user_query is_debug g))
  = trace (snd (process_chat
                  (compose_query (render_history (conversation_history g)) user_query)
                  is_debug g)).
Proof.
  rewrite conversation_run. cbv zeta.
  destruct (process_chat _ is_debug g) as [[[response context]|e] g1]; reflexivity.
Qed.

Lemma conversation_cache_trace (clock : Clock) (user_query : string) (is_debug : bool)
  (g : Globals) :
  trace (snd (conversation_cache clock user_query is_debug g))
  = trace (snd (process_chat
                  (compose_query
                     (render_history
                        (TTL.values (timer_at_snapshot clock) (conversation_ttl_cache g)))
                     user_query)
                  is_debug g)).
Proof.
  rewrite conversation_cache_run. cbv zeta.
  destruct (process_chat _ is_debug g) as [[[response context]|e] g1]; [|reflexivity].
  rewrite add_to_conversation_cache_run.
  destruct (fst (TTL.setitem _ _ _ _)) as [[]|e]; reflexivity.
Qed.

Lemma new_events_app {A} (c : M A) (g : Globals) (events : list Event) :
  trace (snd (c g)) = trace g ++ events -> new_events c g = events.
Proof.
  unfold new_events. intros ->.
  rewrite skipn_app, skipn_all, Nat.sub_diag. reflexivity.
Qed.

Lemma occurs_in_compose_query (history user_query : string) :
  occurs_in history (compose_query history user_query)
  /\ occurs_in user_query (compose_query history user_query).
Proof.
  unfold occurs_in, compose_query. split.
  - exists (preamble +++ Py.nl +++ " CONTEXT: "),
           ((Py.nl +++ Py.nl) +++ history_separator +++ " USER QUERY: " +++ user_query).
    now rewrite !append_assoc.
  - exists ((preamble +++ Py.nl +++ " CONTEXT: " +++ history +++ Py.nl +++ Py.nl)
            +++ history_separator +++ " USER QUERY: "), "".
    rewrite !append_assoc. repeat f_equal.
    induction user_query as [|c u IH]; simpl; [reflexivity | now rewrite <- IH].
Qed.


(** C1, as the code has it: in both conversation functions the text
    handed to the similarity search is the composed query, which holds
    the serialized history and, at its end, the user query; the user
    message of the call to the text-generation service, when the round
    gets that far, is the same text. *)
Theorem retrieval_text_is_the_composed_query :
  forall (g : Globals) (clock : Clock) (user_query : string) (is_debug : bool),
    let history := render_history (conversation_history g) in
    let history_cache :=
      render_history
        (TTL.values (timer_at_snapshot clock) (conversation_ttl_cache g)) in
    (exists rest,
       new_events (conversation user_query is_debug) g
       = SimilaritySearch (compose_query history user_query) :: rest
       /\ Forall (follows_search (compose_query history user_query)) rest)
    /\ (exists rest,
         new_events (conversation_cache clock user_query is_debug) g
         = SimilaritySearch (compose_query history_cache user_query) :: rest
         /\ Forall (follows_search (compose_query history_cache user_query)) rest)
    /\ occurs_in history (compose_query history user_query)
    /\ occurs_in history_cache (compose_query history_cache user_query).
Proof.
  intros g clock user_query is_debug history history_cache.
  repeat split.
  - destruct (process_chat_effects (compose_query history user_query) is_debug g)
      as (_ & rest & Ht & Hf & _).
    exists rest. split; [|assumption].
    apply new_events_app. now rewrite conversation_trace.
  - destruct (process_chat_effects (compose_query history_cache user_query) is_debug g)
      as (_ & rest & Ht & Hf & _).
    exists rest. split; [|assumption].
    apply new_events_app. now rewrite conversation_cache_trace.
  - apply occurs_in_compose_query.
  - apply occurs_in_compose_query.
Qed.

(** C2, as the code has it: [conversation_cache] has no reset command.
    The tokens [/reset] and [/startover] go through the similarity
    search like any other query.  When the round returns a reply, the
    text-generation service has been called and a read of the memory
    ends with a new entry whose user input is the token; the memory is
    not emptied: when the timestamp is new and the cache has room, a
    read before the new entry expires returns every entry it would have
    returned from the cache before the round, followed by the new one.
    When the round raises, no entry is added: the history list is what
    it was and the cache is the cache before the round swept at the time
    of the round's read, so every read from then on returns what it
    would have returned before. *)
Theorem reset_token_is_an_ordinary_query :
  forall (g : Globals) (clock : Clock) (is_debug : bool) (token : string),
    token = "/reset" \/ token = "/startover" ->
    (1 <= TTL.maxsize (conversation_ttl_cache g))%Z ->
    (0 < TTL.ttl (conversation_ttl_cache g))%Z ->
    let round := conversation_cache clock token is_debug in
    let query :=
      compose_query
        (render_history
           (TTL.values (timer_at_snapshot clock) (conversation_ttl_cache g)))
        token in
    (exists rest, new_events round g = SimilaritySearch query :: rest)
    /\ (forall reply, fst (round g) = Ok reply ->
          existsb is_cohere_chat (new_events round g) = true
          /\ exists context,
               let entry :=
                 MkEntry token context reply (Some (datetime_now_isoformat clock)) in
               (exists others,
                  fst (snapshot (timer_at_store clock) (snd (round g)))
                  = Ok (others ++ [entry]))
               /\ ((timer_at_snapshot clock <= timer_at_store clock)%Z ->
                   TTL.has_key (datetime_now_isoformat clock)
                     (TTL.links (conversation_ttl_cache g)) = false ->
                   List.length (TTL.links (conversation_ttl_cache g))
                   < Z.to_nat (TTL.maxsize (conversation_ttl_cache g)) ->
                   forall read_time,
                     (timer_at_store clock <= read_time
                      < timer_at_store clock + TTL.ttl (conversation_ttl_cache g))%Z ->
                     fst (snapshot read_time (snd (round g)))
                     = Ok (TTL.values read_time (conversation_ttl_cache g) ++ [entry])))
    /\ (forall e, fst (round g) = Raise e ->
          conversation_history (snd (round g)) = conversation_history g
          /\ conversation_ttl_cache (snd (round g))
             = TTL.expire (timer_at_snapshot clock) (conversation_ttl_cache g)
          /\ same_reads_from (timer_at_snapshot clock)
               (conversation_ttl_cache g) (conversation_ttl_cache (snd (round g)))).
Proof.
  intros g clock is_debug token _ Hmax Httl round query.
  destruct (process_chat_effects query is_debug g) as (Hmem & rest & Ht & _ & Hcall).
  assert (Hnew : new_events round g = SimilaritySearch query :: rest).
  { apply new_events_app. unfold round. now rewrite conversation_cache_trace. }
  split; [now exists rest|].
  rewrite Hnew. clear Hnew.
  unfold round. rewrite conversation_cache_run. cbv zeta. fold query.
  destruct (process_chat query is_debug g) as [[[response context]|e] g1].
  - simpl in Hmem, Hcall. destruct Hmem as [_ Hcache].
    rewrite add_to_conversation_cache_run.
    unfold swept. cbn [conversation_ttl_cache]. rewrite Hcache.
    rewrite TTLFacts.setitem_ok by exact Hmax. cbn [fst snd].
    split; [|discriminate].
    intros reply [= <-]. split; [simpl; now apply Hcall|].
    exists context. cbv zeta. split.
    + rewrite snapshot_run. cbn [fst conversation_ttl_cache].
      unfold TTL.values. cbn [TTL.links].
      rewrite filter_app, map_app. cbn [filter].
      replace (TTL.live (timer_at_store clock) _) with true.
      * cbn [map]. eauto.
      * symmetry. unfold TTL.live. simpl. apply Z.ltb_lt. lia.
    + intros Hclock Hkey Hroom read_time Hwindow.
      rewrite snapshot_run. cbn [fst conversation_ttl_cache].
      rewrite TTLFacts.kept_all.
      * unfold TTL.values. cbn [TTL.links TTL.expire].
        rewrite filter_app, map_app.
        rewrite !TTLFacts.filter_live_drop_expired by lia.
        cbn [filter].
        replace (TTL.live read_time _) with true; [reflexivity|].
        symmetry. unfold TTL.live. simpl. apply Z.ltb_lt. lia.
      * cbn [TTL.links TTL.expire]. now apply TTLFacts.has_key_drop_expired.
      * cbn [TTL.links TTL.maxsize TTL.expire].
        pose proof (TTLFacts.drop_expired_length (timer_at_snapshot clock)
                      (TTL.links (conversation_ttl_cache g))). lia.
  - cbn [fst snd]. split; [discriminate|]. intros _ _.
    destruct Hmem as [Hh Hc]. simpl in Hh, Hc. unfold swept.
    cbn [conversation_history conversation_ttl_cache]. rewrite Hh, Hc.
    split; [reflexivity|]. split; [reflexivity|].
    apply TTLFacts.expire_same_reads.
Qed.

End ConversationFacts.

(** * Further properties *)

(** ** Chunker *)

Section ChunkerMore.

Context {collab : Collaborators}.

(** A property of chunks that holds of the running chunk at the start,
    of every sentence (a sentence starts the next chunk), and that
    survives appending a sentence that fits, holds of every chunk the
    loop closes and of the running chunk at the end. *)
Lemma chunk_loop_invariant (P : string -> Prop) (chunk_size : Z)
  (sentences : list string) :
  (forall s, In s sentences -> P s) ->
  (forall c s, P c -> In s sentences ->
     (Z.of_nat (Py.len c + Py.len s) <= chunk_size)%Z -> P (c +++ " " +++ s)) ->
  forall oc pc chunk,
    P chunk ->
    exists oc' pc' chunk',
      chunk_loop chunk_size sentences (oc, pc, chunk) = (oc ++ oc', pc ++ pc', chunk')
      /\ Forall P oc' /\ P chunk' /\ pc' = map stem_chunk oc'.
Proof.
  induction sentences as [|s rest IH]; intros Hstart Hstep oc pc chunk Hchunk.
  - exists [], [], chunk. simpl. rewrite !app_nil_r. auto.
  - simpl chunk_loop.
    destruct (Z.gtb_spec (Z.of_nat (Py.len chunk + Py.len s)) chunk_size) as [Hgt|Hle].
    + destruct (IH (fun x Hx => Hstart x (or_intror Hx))
                   (fun c x Hc Hx => Hstep c x Hc (or_intror Hx))
                   (oc ++ [chunk]) (pc ++ [stem_chunk chunk]) s
                   (Hstart s (or_introl eq_refl)))
        as (oc' & pc' & chunk' & E & Hall & Hlast & Hstem).
      exists (chunk :: oc'), (stem_chunk chunk :: pc'), chunk'.
      rewrite E, <- !app_assoc. simpl. repeat split; auto. now rewrite Hstem.
    + apply IH.
      * intros x Hx. apply Hstart. now right.
      * intros c x Hc Hx. apply Hstep; [assumption | now right].
      * apply Hstep; [assumption | now left | assumption].
Qed.

(** X1: The stemmed chunks are the stems of the original chunks, position
    by position. *)
Theorem process_text_stems_every_chunk :
  forall (text : string) (chunk_size : Z),
    snd (process_text text chunk_size)
    = map stem_chunk (fst (process_text text chunk_size)).
Proof.
  intros text chunk_size. unfold process_text.
  destruct (chunk_loop_invariant (fun _ => True) chunk_size (sent_tokenize text)
              (fun _ _ => I) (fun _ _ _ _ _ => I) [] [] "" I)
    as (oc & pc & chunk & E & _ & _ & Hstem).
  rewrite E. simpl. destruct chunk; simpl; [assumption|].
  rewrite map_app, Hstem. reflexivity.
Qed.

Lemma split_from_app_space (a b : string) :
  forall cur,
    Py.split_from cur (a +++ " " +++ b) = Py.split_from cur a ++ Py.split_from None b.
Proof.
  induction a as [|c a IH]; intros cur.
  - simpl. destruct cur; reflexivity.
  - change (String c a +++ " " +++ b) with (String c (a +++ " " +++ b)).
    simpl. destruct (Py.isspace c).
    + destruct cur; rewrite IH; reflexivity.
    + destruct cur; apply IH.
Qed.

Lemma split_app_space (a b : string) :
  Py.split (a +++ " " +++ b) = Py.split a ++ Py.split b.
Proof. apply split_from_app_space. Qed.

Lemma chunk_loop_words (chunk_size : Z) (sentences : list string) :
  forall oc pc chunk,
    let '(oc', _, chunk') := chunk_loop chunk_size sentences (oc, pc, chunk) in
    flat_map Py.split oc' ++ Py.split chunk'
    = flat_map Py.split oc ++ Py.split chunk ++ flat_map Py.split sentences.
Proof.
  induction sentences as [|s rest IH]; intros oc pc chunk.
  - simpl. now rewrite app_nil_r.
  - simpl chunk_loop.
    destruct (Z.of_nat (Py.len chunk + Py.len s) >? chunk_size)%Z.
    + specialize (IH (oc ++ [chunk]) (pc ++ [stem_chunk chunk]) s).
      destruct (chunk_loop chunk_size rest _) as [[oc' pc'] chunk'].
      rewrite IH, flat_map_app. simpl. now rewrite app_nil_r, <- !app_assoc.
    + specialize (IH oc pc (chunk +++ " " +++ s)).
      destruct (chunk_loop chunk_size rest _) as [[oc' pc'] chunk'].
      rewrite IH, split_app_space. simpl. now rewrite <- !app_assoc.
Qed.

(** X2: Chunking loses no word and keeps the order: the words of the
    original chunks, read one chunk after the other, are the words of
    the sentences. *)
Theorem process_text_keeps_every_word :
  forall (text : string) (chunk_size : Z),
    flat_map Py.split (fst (process_text text chunk_size))
    = flat_map Py.split (sent_tokenize text).
Proof.
  intros text chunk_size. unfold process_text.
  pose proof (chunk_loop_words chunk_size (sent_tokenize text) [] [] "") as H.
  destruct (chunk_loop chunk_size (sent_tokenize text) _) as [[oc pc] chunk].
  simpl in H. destruct chunk.
  - simpl. simpl in H. now rewrite app_nil_r in H.
  - simpl fst. rewrite flat_map_app. simpl. rewrite app_nil_r. exact H.
Qed.

(** X3: The size limit is soft in two ways: a chunk that holds more than a
    single sentence can exceed the chunk size by one character (the
    separating space is not counted when the loop decides), and a
    sentence that starts a chunk is taken whatever its length.  Every
    chunk is empty, or one of the sentences, or at most one longer than
    the chunk size. *)
Theorem process_text_chunk_sizes :
  forall (text : string) (chunk_size : Z),
    Forall (fun c => c = ""
                     \/ In c (sent_tokenize text)
                     \/ (Z.of_nat (Py.len c) <= chunk_size + 1)%Z)
      (fst (process_text text chunk_size)).
Proof.
  intros text chunk_size. unfold process_text.
  set (P := fun c => c = "" \/ In c (sent_tokenize text)
                     \/ (Z.of_nat (Py.len c) <= chunk_size + 1)%Z).
  destruct (chunk_loop_invariant P chunk_size (sent_tokenize text)) with
    (oc := @nil string) (pc := @nil string) (chunk := "")
    as (oc & pc & chunk & E & Hall & Hlast & _).
  - intros s Hs. right. now left.
  - intros c s _ _ Hfit. right. right. rewrite len_append.
    change (Py.len (" " +++ s)) with (S (Py.len s)). lia.
  - now left.
  - rewrite E. simpl. destruct chunk; simpl; [assumption|].
    apply Forall_app. split; [assumption|]. now constructor.
Qed.

(** X4: Only the first chunk can be empty, and only when the first sentence
    does not fit: for sentences that are not empty, every chunk after
    the first holds text, and so does the first when the first sentence
    is within the chunk size. *)
Theorem process_text_empty_chunk_only_first :
  forall (text : string) (chunk_size : Z),
    Forall (fun s => s <> "") (sent_tokenize text) ->
    Forall (fun c => c <> "") (tl (fst (process_text text chunk_size)))
    /\ (forall first rest,
          sent_tokenize text = first :: rest ->
          (Z.of_nat (Py.len first) <= chunk_size)%Z ->
          Forall (fun c => c <> "") (fst (process_text text chunk_size))).
Proof.
  intros text chunk_size Hne. unfold process_text.
  destruct (sent_tokenize text) as [|first rest] eqn:Htok.
  - simpl. split; [constructor | discriminate].
  - inversion Hne as [|? ? Hfirst Hrest]; subst.
    assert (Hstart : forall s, In s rest -> s <> "")
      by (now apply Forall_forall).
    assert (Hstep : forall c s, c <> "" -> In s rest ->
              (Z.of_nat (Py.len c + Py.len s) <= chunk_size)%Z ->
              c +++ " " +++ s <> "").
    { intros c s Hc _ _. destruct c; [contradiction | discriminate]. }
    cbn [chunk_loop].
    destruct (Z.gtb_spec (Z.of_nat (Py.len "" + Py.len first)) chunk_size) as [Hgt|Hle].
    + destruct (chunk_loop_invariant (fun c => c <> "") chunk_size rest Hstart Hstep
                  ([] ++ [""]) ([] ++ [stem_chunk ""]) first Hfirst)
        as (oc & pc & chunk & E & Hall & Hlast & _).
      rewrite E. split.
      * destruct chunk; [contradiction|]. simpl.
        apply Forall_app. split; [assumption | now constructor].
      * intros f r [= <- <-] Hfit. simpl in Hgt. lia.
    + destruct (chunk_loop_invariant (fun c => c <> "") chunk_size rest Hstart Hstep
                  [] [] ("" +++ " " +++ first) ltac:(discriminate))
        as (oc & pc & chunk & E & Hall & Hlast & _).
      rewrite E.
      assert (Hchunks : Forall (fun c => c <> "")
                (fst (match chunk with
                      | "" => ([] ++ oc, [] ++ pc)
                      | String _ _ => (([] ++ oc) ++ [chunk], ([] ++ pc) ++ [stem_chunk chunk])
                      end))).
      { destruct chunk; [contradiction|]. simpl.
        apply Forall_app. split; [assumption | now constructor]. }
      split; [|intros; assumption].
      destruct (fst _) as [|c cs]; [constructor|].
      simpl. now inversion Hchunks.
Qed.

End ChunkerMore.

(** ** Vector index *)

Section IndexMore.

Context {collab : Collaborators}.

Lemma add_document_run (text : list string) (g : Globals) :
  add_document text g =
  match tfidf_fit (documents g ++ text) with
  | None =>
      (Raise (ValueError "empty vocabulary"),
       MkGlobals None (documents g ++ text) (original_documents g)
         (vectors g) (conversation_history g) (conversation_ttl_cache g) (trace g))
  | Some f =>
      (Ok (transform f (documents g ++ text)),
       MkGlobals (Some f) (documents g ++ text) (original_documents g)
         (vectors g) (conversation_history g) (conversation_ttl_cache g) (trace g))
  end.
Proof.
  unfold add_document, fit_transform, set_documents, set_vectorizer,
    modify, bind, gets, raise, ret.
  cbn. destruct (tfidf_fit (documents g ++ text)); reflexivity.
Qed.

(** X5: Adding chunks in two calls or in one gives the same corpus, the
    same fit and the same rows, when both fits succeed: every addition
    refits on the whole corpus, so nothing of the first fit survives the
    second. *)
Theorem add_document_twice :
  forall (g : Globals) (a b : list string) (f f' : Fitted),
    tfidf_fit (documents g ++ a) = Some f ->
    tfidf_fit (documents g ++ a ++ b) = Some f' ->
    (add_document a ;; add_document b) g = add_document (a ++ b) g.
Proof.
  intros g a b f f' Hfit Hfit'. unfold bind.
  rewrite (add_document_run a g), Hfit.
  rewrite !add_document_run. cbn [documents vectorizer original_documents vectors
    conversation_history conversation_ttl_cache trace].
  rewrite <- app_assoc, Hfit'. reflexivity.
Qed.

(** X6: A fit that fails is not rolled back: [add_document] raises
    [ValueError], yet the new chunks stay in [documents]; [vectors] and
    the original chunks are what they were. *)
Theorem add_document_failure_keeps_the_chunks :
  forall (g : Globals) (text : list string),
    tfidf_fit (documents g ++ text) = None ->
    (exists msg, fst (add_document text g) = Raise (ValueError msg))
    /\ documents (snd (add_document text g)) = documents g ++ text
    /\ vectors (snd (add_document text g)) = vectors g
    /\ original_documents (snd (add_document text g)) = original_documents g.
Proof.
  intros g text Hfit. rewrite add_document_run, Hfit. cbn.
  split; [eauto | repeat split].
Qed.

Lemma globals_eta (g : Globals) :
  MkGlobals (vectorizer g) (documents g) (original_documents g) (vectors g)
    (conversation_history g) (conversation_ttl_cache g) (trace g) = g.
Proof. destruct g. reflexivity. Qed.

(** What [process_and_add_document] does, by the outcome of reading. *)
Lemma process_and_add_document_run (file_path file_type : string) (g : Globals) :
  (process_and_add_document file_path file_type g
   = (Raise (ValueError "Unsupported file type"), g)
   /\ String.eqb file_type "pdf" = false
   /\ String.eqb file_type "html" = false
   /\ String.eqb file_type "txt" = false)
  \/ (exists e, file_text file_type file_path = Raise e
               /\ process_and_add_document file_path file_type g = (Raise e, g))
  \/ (exists text,
        file_text file_type file_path = Ok text
        /\ process_and_add_document file_path file_type g
           = add_document (snd (process_text text CHUNK_SIZE))
               (MkGlobals (vectorizer g) (documents g)
                  (original_documents g ++ fst (process_text text CHUNK_SIZE))
                  (vectors g) (conversation_history g) (conversation_ttl_cache g)
                  (trace g))).
Proof.
  assert (Hread : forall kind, file_type = kind ->
            (if String.eqb file_type "pdf" then read_pdf file_path
             else if String.eqb file_type "html" then read_html file_path
             else if String.eqb file_type "txt" then read_txt file_path
             else raise (ValueError "Unsupported file type")) g
            = (match file_text kind file_path with
               | Ok text => Ok (process_text text CHUNK_SIZE)
               | Raise e => Raise e
               end, g) ->
            (exists e, file_text file_type file_path = Raise e
                       /\ process_and_add_document file_path file_type g = (Raise e, g))
            \/ (exists text,
                  file_text file_type file_path = Ok text
                  /\ process_and_add_document file_path file_type g
                     = add_document (snd (process_text text CHUNK_SIZE))
                         (MkGlobals (vectorizer g) (documents g)
                            (original_documents g ++ fst (process_text text CHUNK_SIZE))
                            (vectors g) (conversation_history g)
                            (conversation_ttl_cache g) (trace g)))).
  { intros kind -> Hrun.
    destruct (file_text kind file_path) as [text|e].
    - right. exists text. split; [reflexivity|].
      unfold process_and_add_document, bind at 1. rewrite Hrun.
      destruct (process_text text CHUNK_SIZE) as [oc pc].
      unfold bind, gets, set_original_documents, modify. reflexivity.
    - left. exists e. split; [reflexivity|].
      unfold process_and_add_document, bind at 1. rewrite Hrun. reflexivity. }
  destruct (String.eqb_spec file_type "pdf") as [Hpdf|Hpdf].
  { right. apply (Hread "pdf" Hpdf). unfold read_pdf, bind, lift, ret.
    destruct (file_text "pdf" file_path); reflexivity. }
  destruct (String.eqb_spec file_type "html") as [Hhtml|Hhtml].
  { right. apply (Hread "html" Hhtml). unfold read_html, bind, lift, ret.
    destruct (file_text "html" file_path); reflexivity. }
  destruct (String.eqb_spec file_type "txt") as [Htxt|Htxt].
  { right. apply (Hread "txt" Htxt). unfold read_txt, bind, lift, ret.
    destruct (file_text "txt" file_path); reflexivity. }
  left. repeat split.
  unfold process_and_add_document, bind, raise.
  apply String.eqb_neq in Hpdf, Hhtml, Htxt. rewrite Hpdf, Hhtml, Htxt. reflexivity.
Qed.

(** X7: A file that cannot be ingested changes nothing: a file type other
    than [pdf], [html] and [txt] raises [ValueError], an error while
    reading the file is passed on, and in both cases the corpus, the fit
    and [vectors] are untouched. *)
Theorem ingestion_failure_before_indexing_changes_nothing :
  forall (g : Globals) (file_path file_type : string),
    (file_type <> "pdf" /\ file_type <> "html" /\ file_type <> "txt" ->
     process_and_add_document file_path file_type g
     = (Raise (ValueError "Unsupported file type"), g))
    /\ (forall e, file_text file_type file_path = Raise e ->
         file_type = "pdf" \/ file_type = "html" \/ file_type = "txt" ->
         process_and_add_document file_path file_type g = (Raise e, g)).
Proof.
  intros g file_path file_type. split.
  - intros (Hpdf & Hhtml & Htxt).
    unfold process_and_add_document, bind, raise.
    apply String.eqb_neq in Hpdf, Hhtml, Htxt. rewrite Hpdf, Hhtml, Htxt. reflexivity.
  - intros e Hread Hkind.
    destruct (process_and_add_document_run file_path file_type g)
      as [(_ & Hpdf & Hhtml & Htxt) | [(e' & He' & Hrun) | (text & Htext & _)]].
    + apply String.eqb_neq in Hpdf, Hhtml, Htxt. intuition congruence.
    + congruence.
    + congruence.
Qed.

End IndexMore.

(** ** The TTL cache within its capacity *)

Module TTLMore.

Import TTL TTLFacts.

Lemma drop_expired_skipn (time : Z) (ls : list Link) :
  exists n, drop_expired time ls = skipn n ls.
Proof.
  induction ls as [|l rest [n IH]]; simpl.
  - now exists 0.
  - destruct (live time l); [now exists 0 | now exists (S n)].
Qed.

Lemma NoDup_keys_skipn (n : nat) (ls : list Link) :
  NoDup (map key ls) -> NoDup (map key (skipn n ls)).
Proof.
  intros H. rewrite <- (firstn_skipn n ls), map_app in H.
  eapply NoDup_app_remove_l; eassumption.
Qed.

Lemma NoDup_keys_filter (f : Link -> bool) (ls : list Link) :
  NoDup (map key ls) -> NoDup (map key (filter f ls)).
Proof.
  induction ls as [|l rest IH]; simpl; intros H; [constructor|].
  inversion H as [|? ? Hnotin Hrest]; subst.
  destruct (f l); simpl; [|now apply IH].
  constructor; [|now apply IH].
  intros Hin. apply Hnotin. apply in_map_iff in Hin.
  destruct Hin as (l' & Hk & Hl'). apply filter_In in Hl'.
  apply in_map_iff. exists l'. tauto.
Qed.

Lemma remove_key_shorter (k : string) (ls : list Link) :
  has_key k ls = true -> List.length (remove_key k ls) < List.length ls.
Proof.
  unfold has_key, remove_key.
  induction ls as [|l rest IH]; simpl; [discriminate|].
  destruct (String.eqb (key l) k); simpl.
  - intros _. pose proof (filter_length_le (fun l0 => negb (String.eqb (key l0) k)) rest).
    lia.
  - intros H. apply IH in H. lia.
Qed.

(** The links kept by a write leave room for the new one, have distinct
    keys, and none of them has the key that is written. *)
Lemma kept_room (time : Z) (k : string) (c : TTLCache) :
  (1 <= maxsize c)%Z ->
  List.length (links c) <= Z.to_nat (maxsize c) ->
  List.length (kept time k c) < Z.to_nat (maxsize c).
Proof.
  intros Hmax Hfits. unfold kept.
  destruct (drop_expired_skipn time (links c)) as [n Hn].
  assert (Hlen : List.length (drop_expired time (links c)) <= List.length (links c))
    by (rewrite Hn, length_skipn; lia).
  destruct (has_key k (drop_expired time (links c))) eqn:E.
  - apply remove_key_shorter in E. lia.
  - rewrite evict_skipn by (assumption || lia). rewrite length_skipn. lia.
Qed.

Lemma kept_NoDup (time : Z) (k : string) (c : TTLCache) :
  (1 <= maxsize c)%Z ->
  NoDup (map key (links c)) -> NoDup (map key (kept time k c)).
Proof.
  intros Hmax Hnodup. unfold kept.
  destruct (drop_expired_skipn time (links c)) as [n Hn]. rewrite Hn.
  destruct (has_key k (skipn n (links c))).
  - apply NoDup_keys_filter, NoDup_keys_skipn, Hnodup.
  - rewrite evict_skipn by (assumption || lia).
    now apply NoDup_keys_skipn, NoDup_keys_skipn.
Qed.

(** A write of an entry stamped with its key keeps the cache as the
    notebook's functions leave it. *)
(** A sweep keeps the cache as the notebook's functions leave it. *)
Lemma expire_cache_ok (time : Z) (c : TTLCache) :
  cache_ok c -> cache_ok (expire time c).
Proof.
  intros (Hmax & Hfits & Hnodup & Hkeyed).
  unfold cache_ok, expire. simpl.
  destruct (drop_expired_skipn time (links c)) as [n ->].
  split; [assumption|]. split; [rewrite length_skipn; lia|].
  split; [now apply NoDup_keys_skipn|].
  intros l Hl. apply Hkeyed. rewrite <- (firstn_skipn n (links c)).
  apply in_or_app. now right.
Qed.

Lemma setitem_cache_ok (time : Z) (k : string) (v : Entry) (c : TTLCache) :
  cache_ok c -> timestamp v = Some k -> cache_ok (snd (setitem time k v c)).
Proof.
  intros (Hmax & Hfits & Hnodup & Hkeyed) Hstamp.
  rewrite setitem_ok by assumption. simpl snd.
  unfold cache_ok. simpl. repeat split.
  - assumption.
  - rewrite length_app. simpl. pose proof (kept_room time k c Hmax Hfits). lia.
  - rewrite map_app. simpl. apply NoDup_app.
    + now apply kept_NoDup.
    + repeat constructor. intros [].
    + intros a Ha [<-|[]]. apply in_map_iff in Ha. destruct Ha as (l & Hk & Hl).
      pose proof (kept_has_key time k c) as Hnone. rewrite has_key_false in Hnone.
      exact (Hnone l Hl Hk).
  - intros l Hl. apply in_app_or in Hl. destruct Hl as [Hl|[<-|[]]].
    + apply Hkeyed. eapply kept_incl; eassumption.
    + exact Hstamp.
Qed.

(** What a read of a cache in that state returns: no more entries than
    the capacity, and no two with the same timestamp. *)
Lemma values_of_cache_ok (time : Z) (c : TTLCache) :
  cache_ok c ->
  List.length (values time c) <= Z.to_nat (maxsize c)
  /\ NoDup (map timestamp (values time c)).
Proof.
  intros (Hmax & Hfits & Hnodup & Hkeyed). unfold values. split.
  - rewrite length_map.
    pose proof (filter_length_le (live time) (links c)). lia.
  - rewrite map_map.
    assert (Heq : map (fun l => timestamp (value l)) (filter (live time) (links c))
                  = map Some (map key (filter (live time) (links c)))).
    { rewrite map_map. apply map_ext_in. intros l Hl. apply filter_In in Hl.
      now apply Hkeyed. }
    rewrite Heq. clear Heq.
    pose proof (NoDup_keys_filter (live time) (links c) Hnodup) as Hf.
    revert Hf. generalize (map key (filter (live time) (links c))).
    intros ks Hf.
    induction Hf as [|a l Hnotin Hrest IH]; simpl; constructor; [|assumption].
    intros Hin. apply in_map_iff in Hin. destruct Hin as (x & [= ->] & Hx).
    contradiction.
Qed.

End TTLMore.

(** ** A notebook session *)

Section SessionFacts.

Context {collab : Collaborators}.

Import TTL TTLFacts TTLMore.

(** A round of [process_chat] writes the trace and nothing else. *)
Lemma process_chat_frame (query : string) (is_debug : bool) (g : Globals) :
  same_index g (snd (process_chat query is_debug g))
  /\ same_memory g (snd (process_chat query is_debug g)).
Proof.
  rewrite process_chat_run.
  destruct (fst (find_best_matches query NUMBER_OF_MATCHES g)) as [[originals processed]|e].
  - cbv zeta. simpl snd. unfold after_chat.
    destruct is_debug; repeat split.
  - simpl. repeat split.
Qed.

Lemma chat_state (user_query : string) (is_debug : bool) (g : Globals) :
  snd (chat user_query is_debug g) = snd (process_chat user_query is_debug g).
Proof.
  unfold chat, bind, ret.
  destruct (process_chat user_query is_debug g) as [[[response context]|e] g1];
    reflexivity.
Qed.

(** The index after a round of either conversation function is the
    index before it; the list-based round leaves the cache alone and the
    cache-based round leaves the list alone. *)
Lemma conversation_frame (user_query : string) (is_debug : bool) (g : Globals) :
  same_index g (snd (conversation user_query is_debug g))
  /\ conversation_ttl_cache (snd (conversation user_query is_debug g))
     = conversation_ttl_cache g.
Proof.
  rewrite conversation_run. cbv zeta.
  destruct (process_chat_frame
              (compose_query (render_history (conversation_history g)) user_query)
              is_debug g) as [(H1 & H2 & H3 & H4) (H5 & H6)].
  destruct (process_chat _ is_debug g) as [[[response context]|e] g1];
    simpl in *; repeat split; assumption.
Qed.

Lemma conversation_cache_frame (clock : Clock) (user_query : string)
  (is_debug : bool) (g : Globals) :
  same_index g (snd (conversation_cache clock user_query is_debug g))
  /\ conversation_history (snd (conversation_cache clock user_query is_debug g))
     = conversation_history g
  /\ (conversation_ttl_cache (snd (conversation_cache clock user_query is_debug g))
      = expire (timer_at_snapshot clock) (conversation_ttl_cache g)
      \/ exists context response,
           conversation_ttl_cache (snd (conversation_cache clock user_query is_debug g))
           = snd (setitem (timer_at_store clock) (datetime_now_isoformat clock)
                    (MkEntry user_query context response
                       (Some (datetime_now_isoformat clock)))
                    (expire (timer_at_snapshot clock) (conversation_ttl_cache g)))).
Proof.
  rewrite conversation_cache_run. cbv zeta.
  destruct (process_chat_frame
              (compose_query
                 (render_history
                    (values (timer_at_snapshot clock) (conversation_ttl_cache g)))
                 user_query)
              is_debug g) as [(H1 & H2 & H3 & H4) (H5 & H6)].
  destruct (process_chat _ is_debug g) as [[[response context]|e] g1];
    cbn [fst snd] in *.
  - rewrite add_to_conversation_cache_run. unfold swept.
    cbn [vectorizer documents original_documents vectors conversation_history
         conversation_ttl_cache]. rewrite H6.
    destruct (fst (setitem _ _ _ _)) as [[]|e]; cbn [fst snd];
      cbn [vectorizer documents original_documents vectors conversation_history
           conversation_ttl_cache];
      (split; [repeat split; assumption|]); (split; [assumption|]);
      right; exists context, response; reflexivity.
  - unfold swept.
    cbn [vectorizer documents original_documents vectors conversation_history
         conversation_ttl_cache]. rewrite H6.
    split; [repeat split; assumption|]. split; [assumption | now left].
Qed.

Lemma initialize_inv (file_name : string) (g : Globals) :
  aligned g -> rows_within_corpus g ->
  aligned (snd (initialize file_name g))
  /\ rows_within_corpus (snd (initialize file_name g))
  /\ conversation_ttl_cache (snd (initialize file_name g)) = conversation_ttl_cache g
  /\ (forall v, fst (initialize file_name g) = Ok v ->
       List.length (rows v) = List.length (documents (snd (initialize file_name g)))).
Proof.
  intros Hal Hrows. unfold initialize.
  destruct (process_and_add_document_run file_name (Py.split_dot_last file_name) g)
    as [(Hrun & _) | [(e & _ & Hrun) | (text & _ & Hrun)]]; rewrite Hrun.
  - simpl. repeat split; try assumption. discriminate.
  - simpl. repeat split; try assumption. discriminate.
  - rewrite add_document_run. cbn [documents vectorizer original_documents vectors
      conversation_history conversation_ttl_cache trace].
    assert (Hal' : List.length (original_documents g ++ fst (process_text text CHUNK_SIZE))
                   = List.length (documents g ++ snd (process_text text CHUNK_SIZE))).
    { rewrite !length_app, process_text_aligned. unfold aligned in Hal. lia. }
    assert (Hrows' : forall v, vectors g = Some v ->
              List.length (rows v)
              <= List.length (documents g ++ snd (process_text text CHUNK_SIZE))).
    { intros v Hv. rewrite length_app. specialize (Hrows v Hv). lia. }
    destruct (tfidf_fit _) as [f|]; simpl; unfold aligned, rows_within_corpus; simpl;
      repeat split; try assumption; try discriminate.
    intros v [= <-]. simpl. apply length_map.
Qed.

(** Every cell keeps the three facts: the two chunk lists are equally
    long, [vectors] has no row beyond the corpus, and the cache is
    within its capacity of 1000 with one link per key. *)
Lemma run_op_inv (op : Op) (g : Globals) :
  aligned g -> rows_within_corpus g ->
  cache_ok (conversation_ttl_cache g) ->
  maxsize (conversation_ttl_cache g) = 1000%Z ->
  aligned (run_op op g) /\ rows_within_corpus (run_op op g)
  /\ cache_ok (conversation_ttl_cache (run_op op g))
  /\ maxsize (conversation_ttl_cache (run_op op g)) = 1000%Z.
Proof.
  intros Hal Hrows Hcache Hmax.
  assert (Hframe : forall g',
            same_index g g' -> conversation_ttl_cache g' = conversation_ttl_cache g ->
            aligned g' /\ rows_within_corpus g'
            /\ cache_ok (conversation_ttl_cache g')
            /\ maxsize (conversation_ttl_cache g') = 1000%Z).
  { intros g' (H1 & H2 & H3 & H4) H5.
    unfold aligned, rows_within_corpus. rewrite H2, H3, H4, H5. auto. }
  destruct op as [|file_name|file_name|q dbg|q dbg|clock q dbg]; simpl.
  - unfold aligned, rows_within_corpus. cbn.
    split; [reflexivity|]. split; [discriminate|]. split; assumption.
  - destruct (initialize_inv file_name g Hal Hrows) as (H1 & H2 & H3 & H4).
    unfold assign_vectors, bind, set_vectors, modify.
    destruct (initialize file_name g) as [[v|e] g1]; simpl in *.
    + unfold aligned, rows_within_corpus. simpl. rewrite H3.
      split; [assumption|]. split; [|split; assumption].
      intros v' [= <-]. rewrite (H4 v eq_refl). apply Nat.le_refl.
    + rewrite H3. auto.
  - destruct (initialize_inv file_name g Hal Hrows) as (H1 & H2 & H3 & _).
    rewrite H3. auto.
  - rewrite chat_state. destruct (process_chat_frame q dbg g) as [Hi [_ Hc]].
    now apply Hframe.
  - destruct (conversation_frame q dbg g) as [Hi Hc]. now apply Hframe.
  - destruct (conversation_cache_frame clock q dbg g) as (Hi & _ & Hc).
    destruct Hi as (H1 & H2 & H3 & H4).
    pose proof (expire_cache_ok (timer_at_snapshot clock) _ Hcache) as Hswept.
    unfold aligned, rows_within_corpus. rewrite H2, H3, H4.
    split; [assumption|]. split; [assumption|].
    destruct Hc as [Hc | (context & response & Hc)]; rewrite Hc.
    + split; [assumption | exact Hmax].
    + split; [now apply setitem_cache_ok|].
      destruct (setitem_config (timer_at_store clock) (datetime_now_isoformat clock)
                  (MkEntry q context response (Some (datetime_now_isoformat clock)))
                  (expire (timer_at_snapshot clock) (conversation_ttl_cache g)))
        as [Hm _].
      rewrite Hm. exact Hmax.
Qed.

Lemma run_ops_inv (ops : list Op) :
  forall g,
    aligned g -> rows_within_corpus g ->
    cache_ok (conversation_ttl_cache g) ->
    maxsize (conversation_ttl_cache g) = 1000%Z ->
    aligned (run_ops ops g) /\ rows_within_corpus (run_ops ops g)
    /\ cache_ok (conversation_ttl_cache (run_ops ops g))
    /\ maxsize (conversation_ttl_cache (run_ops ops g)) = 1000%Z.
Proof.
  induction ops as [|op rest IH]; intros g Hal Hrows Hcache Hmax.
  - simpl. auto.
  - simpl. destruct (run_op_inv op g Hal Hrows Hcache Hmax) as (H1 & H2 & H3 & H4).
    now apply IH.
Qed.

Lemma fresh_inv :
  aligned fresh /\ rows_within_corpus fresh
  /\ cache_ok (conversation_ttl_cache fresh)
  /\ maxsize (conversation_ttl_cache fresh) = 1000%Z.
Proof.
  unfold aligned, rows_within_corpus, cache_ok. simpl.
  repeat split; try lia; try constructor; try discriminate; try (intros l []).
Qed.

(** X8: Whatever cells were run in a fresh notebook, in whatever order and
    whether they raised or not: the original and the stemmed chunks are
    equally many, and once a query has computed its indices, looking
    them up in the two lists never goes out of range. *)
Theorem session_lookups_stay_in_range :
  forall (ops : list Op) (query : string) (top_n : Z) (indices : list nat),
    let g := run_ops ops fresh in
    aligned g
    /\ (fst (best_match_indices query top_n g) = Ok indices ->
        Forall (fun i => i < List.length (documents g)) indices
        /\ fst (find_best_matches query top_n g)
           = Ok (map (fun i => nth i (original_documents g) "") indices,
                 map (fun i => nth i (documents g) "") indices)).
Proof.
  intros ops query top_n indices g.
  destruct fresh_inv as (F1 & F2 & F3 & F4).
  destruct (run_ops_inv ops fresh F1 F2 F3 F4) as (Hal & Hrows & _).
  fold g in Hal, Hrows. split; [assumption|].
  intros Hidx.
  assert (Hbound : Forall (fun i => i < List.length (documents g)) indices).
  { destruct (vectors g) as [v|] eqn:Hv.
    - pose proof (best_match_indices_bound _ _ _ _ _ Hv Hidx) as Hb.
      eapply Forall_impl; [|exact Hb]. intros i Hi. specialize (Hrows v Hv).
      simpl in *. lia.
    - rewrite best_match_indices_run, similarities_run in Hidx. simpl fst in Hidx.
      rewrite Hv in Hidx. destruct (vectorizer g); [|discriminate].
      destruct (snd (process_text query CHUNK_SIZE)); discriminate. }
  split; [assumption|].
  rewrite find_best_matches_run.
  pose proof (best_match_indices_state query top_n g) as Hs.
  destruct (best_match_indices query top_n g) as [[idx|e] g']; [|discriminate].
  simpl in Hidx, Hs. injection Hidx as ->. subst g'. simpl.
  rewrite !select_in_bounds; [reflexivity | assumption |].
  unfold aligned in Hal. now rewrite Hal.
Qed.

(** X9: Whatever cells were run in a fresh notebook, a read of the
    cache-based memory returns at most 1000 entries, no two of them with
    the same timestamp. *)
Theorem session_cache_stays_bounded :
  forall (ops : list Op) (read_time : Z),
    exists entries,
      fst (snapshot read_time (run_ops ops fresh)) = Ok entries
      /\ List.length entries <= 1000
      /\ NoDup (map timestamp entries).
Proof.
  intros ops read_time.
  destruct fresh_inv as (F1 & F2 & F3 & F4).
  destruct (run_ops_inv ops fresh F1 F2 F3 F4) as (_ & _ & Hcache & Hmax).
  rewrite snapshot_run. simpl fst. eexists. split; [reflexivity|].
  destruct (values_of_cache_ok read_time _ Hcache) as [Hlen Hnodup].
  rewrite Hmax in Hlen. split; [|assumption].
  change (Z.to_nat 1000) with 1000 in Hlen. exact Hlen.
Qed.

End SessionFacts.

(** ** Queries *)

Section QueryMore.

Context {collab : Collaborators}.

(** X10: A query reads the index and writes nothing but the trace: after
    [find_best_matches] or [chat], whether they return or raise, the
    corpus, the fit, [vectors] and both conversation memories are what
    they were. *)
Theorem queries_change_only_the_trace :
  forall (g : Globals) (query : string) (top_n : Z) (is_debug : bool),
    same_index g (snd (find_best_matches query top_n g))
    /\ same_memory g (snd (find_best_matches query top_n g))
    /\ same_index g (snd (chat query is_debug g))
    /\ same_memory g (snd (chat query is_debug g)).
Proof.
  intros g query top_n is_debug.
  rewrite find_best_matches_state, chat_state.
  destruct (process_chat_frame query is_debug g) as [Hi Hm].
  split; [repeat split|]. split; [apply log_event_memory|]. split; assumption.
Qed.

(** [xs[-n:]] for [n <= 0] drops the first [-n] elements. *)
Lemma slice_from_neg_nonpositive {A} (xs : list A) (n : Z) :
  (n <= 0)%Z ->
  Py.slice_from_neg xs n = skipn (Nat.min (Z.to_nat (- n)) (List.length xs)) xs.
Proof.
  intros Hn. unfold Py.slice_from_neg.
  destruct (Z.ltb_spec (- n) 0); [lia|].
  f_equal. lia.
Qed.

(** X11: [top_n = 0] does not mean no match: the slice [[-0:]] is the whole
    list, so every corpus entry is returned; and a negative [top_n]
    leaves out that many of the least similar entries instead of
    limiting the number returned. *)
Theorem find_best_matches_nonpositive_top_n :
  forall (g : Globals) (f : Fitted) (query : string) (top_n : Z)
         (chunk : string) (more : list string),
    in_sync g f ->
    snd (process_text query CHUNK_SIZE) = chunk :: more ->
    (top_n <= 0)%Z ->
    exists indices,
      fst (find_best_matches query top_n g)
      = Ok (map (fun i => nth i (original_documents g) "") indices,
            map (fun i => nth i (documents g) "") indices)
      /\ List.length indices
         = List.length (documents g)
           - Nat.min (Z.to_nat (- top_n)) (List.length (documents g))
      /\ (top_n = 0%Z -> Permutation indices (seq 0 (List.length (documents g)))).
Proof.
  intros g f query top_n chunk more (Hfit & Hvec & Hlen) Hquery Htop.
  set (row := map (similarity f chunk) (documents g)).
  assert (Hrun : best_match_indices query top_n g
                 = (Ok (rev (Py.slice_from_neg (argsort row) top_n)),
                    log_event (SimilaritySearch query) g)).
  { rewrite best_match_indices_run, similarities_run. simpl fst.
    rewrite Hfit, Hvec, Hquery.
    unfold mat_mul_T, transform. simpl. rewrite Nat.eqb_refl. simpl.
    rewrite map_map. reflexivity. }
  assert (Hrow : List.length row = List.length (documents g))
    by (unfold row; apply length_map).
  assert (Hbound : Forall (fun i => i < List.length (documents g))
                     (rev (Py.slice_from_neg (argsort row) top_n))).
  { rewrite Forall_forall. intros i Hi.
    apply in_rev, slice_from_neg_incl, argsort_in in Hi. now rewrite <- Hrow. }
  exists (rev (Py.slice_from_neg (argsort row) top_n)). split; [|split].
  - rewrite find_best_matches_run, Hrun. simpl.
    rewrite !select_in_bounds; [reflexivity | assumption | now rewrite Hlen].
  - rewrite length_rev, slice_from_neg_nonpositive by assumption.
    rewrite length_skipn, argsort_length, Hrow. reflexivity.
  - intros ->. rewrite slice_from_neg_nonpositive by lia. simpl.
    rewrite <- Hrow.
    eapply perm_trans; [apply Permutation_sym, Permutation_rev|].
    apply Permutation_sym, argsort_perm.
Qed.

(** X12: [vectors] that were computed under a fit with another vocabulary
    size than the current one cannot be multiplied with a query vector:
    every query that has a chunk raises [ValueError].  This is the state
    after a second document was added without binding [vectors] again,
    when the second document brought new terms. *)
Theorem stale_vectors_of_other_width_raise :
  forall (g : Globals) (f : Fitted) (v : matrix) (query : string) (top_n : Z)
         (chunk : string) (more : list string),
    vectorizer g = Some f ->
    vectors g = Some v ->
    n_features f <> n_cols v ->
    snd (process_text query CHUNK_SIZE) = chunk :: more ->
    exists msg, fst (find_best_matches query top_n g) = Raise (ValueError msg).
Proof.
  intros g f v query top_n chunk more Hfit Hvec Hwidth Hquery.
  rewrite find_best_matches_run, best_match_indices_run, similarities_run. simpl fst.
  rewrite Hfit, Hvec, Hquery. unfold mat_mul_T, transform. simpl.
  apply Nat.eqb_neq in Hwidth. rewrite Hwidth.
  now exists "dimension mismatch".
Qed.

(** X13: One service call per answered query, none for a query that fails at
    retrieval: [chat] never calls the text-generation service twice and
    never calls it without a context. *)
Theorem chat_calls_the_service_at_most_once :
  forall (g : Globals) (user_query : string) (is_debug : bool),
    service_calls (new_events (chat user_query is_debug) g)
    = (if is_ok (fst (find_best_matches user_query NUMBER_OF_MATCHES g)) then 1 else 0)
    /\ (is_ok (fst (chat user_query is_debug g)) = true ->
        service_calls (new_events (chat user_query is_debug) g) = 1).
Proof.
  intros g user_query is_debug.
  assert (Hnew : new_events (chat user_query is_debug) g
                 = new_events (process_chat user_query is_debug) g).
  { unfold new_events. now rewrite chat_state. }
  assert (Hok : is_ok (fst (chat user_query is_debug g)) = true ->
                is_ok (fst (find_best_matches user_query NUMBER_OF_MATCHES g)) = true).
  { unfold chat, bind, ret. rewrite process_chat_run.
    destruct (fst (find_best_matches user_query NUMBER_OF_MATCHES g))
      as [[originals processed]|e]; [reflexivity | discriminate]. }
  assert (Hcount : service_calls (new_events (chat user_query is_debug) g)
                   = if is_ok (fst (find_best_matches user_query NUMBER_OF_MATCHES g))
                     then 1 else 0).
  { rewrite Hnew. unfold new_events. rewrite process_chat_run.
    destruct (fst (find_best_matches user_query NUMBER_OF_MATCHES g))
      as [[originals processed]|e]; cbv zeta; simpl snd.
    - unfold after_chat. destruct is_debug; simpl trace;
        rewrite <- ?app_assoc, skipn_app, skipn_all, Nat.sub_diag; reflexivity.
    - simpl trace. rewrite skipn_app, skipn_all, Nat.sub_diag. reflexivity. }
  split; [assumption|]. intros H. rewrite Hcount, (Hok H). reflexivity.
Qed.

(** X14: The debug flag only prints: with and without it [process_chat]
    returns the same reply and context, and the events differ by the one
    call of [print] that writes the context (several lines when the
    context holds line breaks). *)
Theorem debug_flag_only_prints :
  forall (g : Globals) (user_query : string),
    fst (process_chat user_query true g) = fst (process_chat user_query false g)
    /\ filter (fun e => negb (is_printed e)) (new_events (process_chat user_query true) g)
       = new_events (process_chat user_query false) g
    /\ List.length (filter is_printed (new_events (process_chat user_query true) g))
       = (if is_ok (fst (find_best_matches user_query NUMBER_OF_MATCHES g))
          then 1 else 0).
Proof.
  intros g user_query. unfold new_events. rewrite !process_chat_run.
  destruct (fst (find_best_matches user_query NUMBER_OF_MATCHES g))
    as [[originals processed]|e]; cbv zeta; simpl snd; simpl fst.
  - unfold after_chat. simpl trace.
    rewrite <- !app_assoc, !skipn_app, !skipn_all, !Nat.sub_diag. simpl.
    repeat split.
  - simpl trace. rewrite !skipn_app, !skipn_all, !Nat.sub_diag. simpl.
    repeat split.
Qed.

End QueryMore.

(** ** Replies and conversation rounds *)

Section RoundsMore.

Context {collab : Collaborators}.

Import TTL TTLFacts.

Lemma lstrip_head (s : string) :
  Py.lstrip s = "" \/ exists c t, Py.lstrip s = String c t /\ Py.isspace c = false.
Proof.
  induction s as [|c s IH]; simpl; [now left|].
  destruct (Py.isspace c) eqn:E; [assumption|]. right. now exists c, s.
Qed.

Lemma rstrip_head (c : ascii) (t : string) :
  Py.isspace c = false -> exists t', Py.rstrip (String c t) = String c t'.
Proof.
  intros Hc. simpl. destruct (Py.rstrip t); [rewrite Hc|]; eauto.
Qed.

Lemma rstrip_idempotent (s : string) : Py.rstrip (Py.rstrip s) = Py.rstrip s.
Proof.
  induction s as [|c s IH]; [reflexivity|].
  simpl. destruct (Py.rstrip s) as [|c' r] eqn:E.
  - destruct (Py.isspace c) eqn:Hc; simpl; [reflexivity | now rewrite Hc].
  - change (Py.rstrip (String c (String c' r)))
      with (match Py.rstrip (String c' r) with
            | "" => if Py.isspace c then "" else String c ""
            | String a b => String c (String a b)
            end).
    rewrite IH. reflexivity.
Qed.

Lemma strip_idempotent (s : string) : Py.strip (Py.strip s) = Py.strip s.
Proof.
  unfold Py.strip.
  destruct (lstrip_head s) as [H | (c & t & H & Hc)]; rewrite H.
  - reflexivity.
  - destruct (rstrip_head c t Hc) as [t' Ht]. rewrite Ht.
    simpl Py.lstrip. rewrite Hc. rewrite <- Ht. apply rstrip_idempotent.
Qed.

(** X15: The reply that [chat] returns is trimmed: stripping it again
    changes nothing. *)
Theorem chat_reply_is_trimmed :
  forall (g : Globals) (user_query : string) (is_debug : bool) (reply : string),
    fst (chat user_query is_debug g) = Ok reply ->
    Py.strip reply = reply.
Proof.
  intros g user_query is_debug reply.
  unfold chat, bind, ret. rewrite process_chat_run.
  destruct (fst (find_best_matches user_query NUMBER_OF_MATCHES g))
    as [[originals processed]|e]; [|discriminate].
  cbv zeta. destruct (co_chat _ _) as [text|e]; [|discriminate].
  simpl. intros [= <-]. apply strip_idempotent.
Qed.

Lemma results_same_index (g g' : Globals) (user_query : string) (top_n : Z)
  (is_debug : bool) :
  same_index g g' ->
  fst (find_best_matches user_query top_n g') = fst (find_best_matches user_query top_n g)
  /\ fst (chat user_query is_debug g') = fst (chat user_query is_debug g).
Proof.
  intros (H1 & H2 & H3 & H4).
  assert (Hfind : forall n, fst (find_best_matches user_query n g')
                            = fst (find_best_matches user_query n g)).
  { intros n.
    assert (Hidx : fst (best_match_indices user_query n g')
                   = fst (best_match_indices user_query n g)).
    { rewrite !best_match_indices_run, !similarities_run. simpl fst.
      now rewrite H1, H4. }
    rewrite !find_best_matches_run.
    pose proof (best_match_indices_state user_query n g) as Hs.
    pose proof (best_match_indices_state user_query n g') as Hs'.
    destruct (best_match_indices user_query n g) as [r1 s1].
    destruct (best_match_indices user_query n g') as [r2 s2].
    simpl in Hidx, Hs, Hs'. subst r2 s1 s2.
    destruct r1 as [indices|e]; [|reflexivity].
    change (original_documents (log_event (SimilaritySearch user_query) g'))
      with (original_documents g').
    change (documents (log_event (SimilaritySearch user_query) g'))
      with (documents g').
    change (original_documents (log_event (SimilaritySearch user_query) g))
      with (original_documents g).
    change (documents (log_event (SimilaritySearch user_query) g))
      with (documents g).
    rewrite H2, H3.
    destruct (select (original_documents g) indices); [|reflexivity].
    destruct (select (documents g) indices); reflexivity. }
  split; [apply Hfind|].
  unfold chat, bind, ret. rewrite !process_chat_run, Hfind.
  destruct (fst (find_best_matches user_query NUMBER_OF_MATCHES g))
    as [[originals processed]|e]; [|reflexivity].
  cbv zeta. destruct (co_chat _ _); reflexivity.
Qed.

(** X16: The result of the retrieval and of [chat] depends on the index only:
    two states with the same corpus, fit and [vectors] give the same
    answer, whatever their conversation memories hold.  [chat] keeps no
    memory of earlier questions. *)
Theorem chat_depends_on_the_index_only :
  forall (g g' : Globals) (user_query : string) (top_n : Z) (is_debug : bool),
    same_index g g' ->
    fst (find_best_matches user_query top_n g') = fst (find_best_matches user_query top_n g)
    /\ fst (chat user_query is_debug g') = fst (chat user_query is_debug g).
Proof.
  intros g g' user_query top_n is_debug H. now apply results_same_index.
Qed.

(** X17: A round of [conversation] that returns a reply appends exactly one
    entry to the history: the user query as typed (not the composed
    query that was searched), the context that the retrieval found for
    the composed query, and the reply.  A round that raises appends
    nothing. *)
Theorem conversation_records_each_answered_round :
  forall (g : Globals) (user_query : string) (is_debug : bool),
    match fst (conversation user_query is_debug g) with
    | Ok reply =>
        exists originals processed,
          fst (find_best_matches
                 (compose_query (render_history (conversation_history g)) user_query)
                 NUMBER_OF_MATCHES g) = Ok (originals, processed)
          /\ conversation_history (snd (conversation user_query is_debug g))
             = conversation_history g
               ++ [MkEntry user_query (Py.join (Py.nl +++ Py.nl) originals) reply None]
    | Raise _ =>
        conversation_history (snd (conversation user_query is_debug g))
        = conversation_history g
    end.
Proof.
  intros g user_query is_debug. rewrite conversation_run. cbv zeta.
  rewrite process_chat_run.
  destruct (fst (find_best_matches _ NUMBER_OF_MATCHES g))
    as [[originals processed]|e]; [|reflexivity].
  cbv zeta.
  pose proof (after_chat_memory
                (compose_query (render_history (conversation_history g)) user_query)
                is_debug originals g) as [Hh _].
  destruct (co_chat _ _) as [text|e]; cbn [fst snd].
  - exists originals, processed. split; [reflexivity|].
    cbn [conversation_history]. now rewrite Hh.
  - exact Hh.
Qed.

(** X18: The two memories do not touch each other, and neither round touches
    the index: [conversation] leaves the cache as it is, and
    [conversation_cache] leaves the history list as it is. *)
Theorem conversation_memories_are_separate :
  forall (g : Globals) (clock : Clock) (user_query : string) (is_debug : bool),
    conversation_ttl_cache (snd (conversation user_query is_debug g))
    = conversation_ttl_cache g
    /\ conversation_history (snd (conversation_cache clock user_query is_debug g))
       = conversation_history g
    /\ same_index g (snd (conversation user_query is_debug g))
    /\ same_index g (snd (conversation_cache clock user_query is_debug g)).
Proof.
  intros g clock user_query is_debug.
  destruct (conversation_frame user_query is_debug g) as [H1 H2].
  destruct (conversation_cache_frame clock user_query is_debug g) as (H3 & H4 & _).
  auto.
Qed.

Lemma append_empty_r (a : string) : a +++ "" = a.
Proof. induction a as [|c a IH]; simpl; [reflexivity | now rewrite IH]. Qed.

Lemma occurs_in_refl (a : string) : occurs_in a a.
Proof. exists "", "". simpl. now rewrite append_empty_r. Qed.

Lemma occurs_in_trans (a b c : string) :
  occurs_in a b -> occurs_in b c -> occurs_in a c.
Proof.
  intros (p & q & ->) (p' & q' & ->).
  exists (p' +++ p), (q +++ q'). now rewrite !append_assoc.
Qed.

Lemma occurs_in_append (a b pre post : string) :
  occurs_in a b -> occurs_in a (pre +++ b +++ post).
Proof.
  intros H. eapply occurs_in_trans; [exact H|]. now exists pre, post.
Qed.

Lemma occurs_in_join (sep : string) (parts : list string) (p : string) :
  In p parts -> occurs_in p (Py.join sep parts).
Proof.
  induction parts as [|p0 rest IH]; intros Hin; [contradiction|].
  destruct rest as [|p1 rest'].
  - destruct Hin as [<-|[]]. apply occurs_in_refl.
  - change (Py.join sep (p0 :: p1 :: rest'))
      with (p0 +++ sep +++ Py.join sep (p1 :: rest')).
    destruct Hin as [<-|Hin].
    + exists "", (sep +++ Py.join sep (p1 :: rest')). reflexivity.
    + specialize (IH Hin). destruct IH as (before & after & ->).
      exists (p0 +++ sep +++ before), after. now rewrite !append_assoc.
Qed.

Lemma occurs_in_render_entry (e : Entry) :
  occurs_in (user_input e) (render_entry e)
  /\ occurs_in (search_result_context e) (render_entry e)
  /\ occurs_in (llm_response e) (render_entry e).
Proof.
  unfold render_entry. repeat split.
  - exists "User: ",
      (Py.nl +++ "Search Result Context: " +++ search_result_context e +++ Py.nl +++
       "LLM Response: " +++ llm_response e). reflexivity.
  - exists ("User: " +++ user_input e +++ Py.nl +++ "Search Result Context: "),
      (Py.nl +++ "LLM Response: " +++ llm_response e).
    now rewrite !append_assoc.
  - exists ("User: " +++ user_input e +++ Py.nl +++ "Search Result Context: " +++
            search_result_context e +++ Py.nl +++ "LLM Response: "), "".
    now rewrite !append_assoc, append_empty_r.
Qed.

(** Every entry of a list of entries is spelled out in the query
    composed from it. *)
Lemma entry_in_composed_query (entries : list Entry) (e : Entry) (user_query : string) :
  In e entries ->
  let text := compose_query (render_history entries) user_query in
  occurs_in (user_input e) text
  /\ occurs_in (search_result_context e) text
  /\ occurs_in (llm_response e) text.
Proof.
  intros Hin text.
  assert (Hentry : occurs_in (render_entry e) text).
  { eapply occurs_in_trans.
    - apply (occurs_in_join history_separator (map render_entry entries)).
      now apply in_map.
    - apply occurs_in_compose_query. }
  destruct (occurs_in_render_entry e) as (H1 & H2 & H3).
  repeat split; eapply occurs_in_trans; eassumption.
Qed.

(** X19: The memory goes into the prompt word for word: for every entry in
    the history list, and for every entry the cache returns at the time
    of the snapshot, the text that the round searches with and sends to
    the service holds the entry's user input, its context and its
    reply. *)
Theorem remembered_entries_are_in_the_prompt :
  forall (g : Globals) (clock : Clock) (user_query : string) (is_debug : bool)
         (e : Entry),
    (In e (conversation_history g) ->
     exists text rest,
       new_events (conversation user_query is_debug) g = SimilaritySearch text :: rest
       /\ Forall (follows_search text) rest
       /\ occurs_in (user_input e) text
       /\ occurs_in (search_result_context e) text
       /\ occurs_in (llm_response e) text)
    /\
    (In e (values (timer_at_snapshot clock) (conversation_ttl_cache g)) ->
     exists text rest,
       new_events (conversation_cache clock user_query is_debug) g
       = SimilaritySearch text :: rest
       /\ Forall (follows_search text) rest
       /\ occurs_in (user_input e) text
       /\ occurs_in (search_result_context e) text
       /\ occurs_in (llm_response e) text).
Proof.
  intros g clock user_query is_debug e. split; intros Hin.
  - set (text := compose_query (render_history (conversation_history g)) user_query).
    destruct (process_chat_effects text is_debug g) as (_ & rest & Ht & Hf & _).
    exists text, rest. split; [|split; [assumption|]].
    + apply new_events_app. now rewrite conversation_trace.
    + now apply entry_in_composed_query.
  - set (text := compose_query
                   (render_history
                      (values (timer_at_snapshot clock) (conversation_ttl_cache g)))
                   user_query).
    destruct (process_chat_effects text is_debug g) as (_ & rest & Ht & Hf & _).
    exists text, rest. split; [|split; [assumption|]].
    + apply new_events_app. now rewrite conversation_cache_trace.
    + now apply entry_in_composed_query.
Qed.

Lemma join_snoc (sep : string) (parts : list string) (p : string) :
  Py.join sep (parts ++ [p])
  = match parts with
    | [] => p
    | _ => Py.join sep parts +++ sep +++ p
    end.
Proof.
  induction parts as [|p0 rest IH]; [reflexivity|].
  destruct rest as [|p1 rest'].
  - reflexivity.
  - change (Py.join sep ((p0 :: p1 :: rest') ++ [p]))
      with (p0 +++ sep +++ Py.join sep ((p1 :: rest') ++ [p])).
    rewrite IH.
    change (Py.join sep (p0 :: p1 :: rest'))
      with (p0 +++ sep +++ Py.join sep (p1 :: rest')).
    now rewrite !append_assoc.
Qed.

Lemma len_compose_query (history user_query : string) :
  Py.len (compose_query history user_query)
  = Py.len history + Py.len user_query + 178.
Proof.
  unfold compose_query. rewrite !len_append. unfold Py.len. simpl. lia.
Qed.

Lemma len_render_entry (e : Entry) :
  Py.len (render_entry e)
  = Py.len (user_input e) + Py.len (search_result_context e)
    + Py.len (llm_response e) + 45.
Proof.
  unfold render_entry. rewrite !len_append. unfold Py.len. simpl. lia.
Qed.

(** X20: The prompt grows with every answered round of [conversation]: the
    query composed for the next question is longer than the one that
    would have been composed before the round, by at least the lengths
    of the question and the reply just recorded and the 45 characters
    of their labels.  Nothing in the code shortens it. *)
Theorem prompt_grows_with_every_answered_round :
  forall (g : Globals) (user_query : string) (is_debug : bool)
         (reply next_query : string),
    fst (conversation user_query is_debug g) = Ok reply ->
    Py.len (compose_query
              (render_history
                 (conversation_history (snd (conversation user_query is_debug g))))
              next_query)
    >= Py.len (compose_query (render_history (conversation_history g)) next_query)
       + Py.len user_query + Py.len reply + 45.
Proof.
  intros g user_query is_debug reply next_query.
  rewrite conversation_run. cbv zeta.
  destruct (process_chat_effects
              (compose_query (render_history (conversation_history g)) user_query)
              is_debug g) as ([Hh _] & _).
  destruct (process_chat _ is_debug g) as [[[response context]|e] g1];
    [|discriminate].
  cbn [fst snd conversation_history] in *. intros [= ->]. rewrite Hh.
  rewrite !len_compose_query. unfold render_history.
  rewrite map_app. simpl map. rewrite join_snoc.
  destruct (map render_entry (conversation_history g)) as [|p rest].
  - rewrite len_render_entry.
    cbn [user_input search_result_context llm_response Py.join].
    change (Py.len "") with 0. lia.
  - rewrite !len_append, len_render_entry.
    cbn [user_input search_result_context llm_response]. lia.
Qed.

(** X21: An entry that was just recorded is the last one a read returns, for
    as long as it has not expired. *)
Theorem newest_entry_is_read_last :
  forall (g : Globals) (now : string) (time : Z) (u x r : string) (read_time : Z),
    (1 <= maxsize (conversation_ttl_cache g))%Z ->
    (time <= read_time < time + ttl (conversation_ttl_cache g))%Z ->
    exists others,
      fst (snapshot read_time (snd (add_to_conversation_cache now time u x r g)))
      = Ok (others ++ [MkEntry u x r (Some now)]).
Proof.
  intros g now time u x r read_time Hmax Hwindow.
  rewrite add_to_conversation_cache_run, setitem_ok by assumption.
  rewrite snapshot_run. simpl fst. simpl conversation_ttl_cache.
  unfold values. simpl links. rewrite filter_app, map_app.
  exists (map value (filter (live read_time)
                       (kept time now (conversation_ttl_cache g)))).
  f_equal. f_equal. cbn [filter].
  replace (live read_time _) with true; [reflexivity|].
  symmetry. unfold live. simpl. apply Z.ltb_lt. lia.
Qed.

(** X22: Once every entry of the cache has expired, a round of
    [conversation_cache] composes its query as in a new conversation:
    with an empty history.  No entry has to be removed for that. *)
Theorem expired_history_is_left_out_of_the_prompt :
  forall (g : Globals) (clock : Clock) (user_query : string) (is_debug : bool),
    (forall l, In l (links (conversation_ttl_cache g)) ->
               (expires l <= timer_at_snapshot clock)%Z) ->
    exists rest,
      new_events (conversation_cache clock user_query is_debug) g
      = SimilaritySearch (compose_query "" user_query) :: rest
      /\ Forall (follows_search (compose_query "" user_query)) rest.
Proof.
  intros g clock user_query is_debug Hexpired.
  assert (Hnone : values (timer_at_snapshot clock) (conversation_ttl_cache g) = []).
  { unfold values.
    replace (filter (live (timer_at_snapshot clock)) (links (conversation_ttl_cache g)))
      with (@nil Link); [reflexivity|].
    symmetry. induction (links (conversation_ttl_cache g)) as [|l ls IH];
      [reflexivity|].
    simpl. unfold live at 1.
    destruct (Z.ltb_spec (timer_at_snapshot clock) (expires l)) as [Hlt|_].
    - specialize (Hexpired l (or_introl eq_refl)). lia.
    - apply IH. intros l' Hl'. apply Hexpired. now right. }
  destruct (process_chat_effects (compose_query "" user_query) is_debug g)
    as (_ & rest & Ht & Hf & _).
  exists rest. split; [|assumption].
  apply new_events_app. rewrite conversation_cache_trace, Hnone. exact Ht.
Qed.

(** A round that returned a reply has left its entry in its memory. *)
Lemma conversation_recorded (g : Globals) (user_query : string) (is_debug : bool)
  (reply : string) :
  fst (conversation user_query is_debug g) = Ok reply ->
  exists context,
    In (MkEntry user_query context reply None)
       (conversation_history (snd (conversation user_query is_debug g))).
Proof.
  rewrite conversation_run. cbv zeta.
  destruct (process_chat _ is_debug g) as [[[response context]|e] g1]; [|discriminate].
  simpl. intros [= ->]. exists context. apply in_or_app. right. now left.
Qed.

Lemma conversation_cache_recorded (g : Globals) (clock : Clock) (user_query : string)
  (is_debug : bool) (reply : string) (read_time : Z) :
  fst (conversation_cache clock user_query is_debug g) = Ok reply ->
  (timer_at_store clock <= read_time
   < timer_at_store clock + ttl (conversation_ttl_cache g))%Z ->
  exists context,
    In (MkEntry user_query context reply (Some (datetime_now_isoformat clock)))
       (values read_time
          (conversation_ttl_cache (snd (conversation_cache clock user_query is_debug g)))).
Proof.
  rewrite conversation_cache_run. cbv zeta.
  pose proof (process_chat_effects
                (compose_query
                   (render_history
                      (values (timer_at_snapshot clock) (conversation_ttl_cache g)))
                   user_query) is_debug g) as [[_ Hcache] _].
  destruct (process_chat _ is_debug g) as [[[response context]|e] g1]; [|discriminate].
  simpl in Hcache. rewrite add_to_conversation_cache_run. unfold swept.
  cbn [conversation_ttl_cache]. rewrite Hcache.
  unfold setitem. cbn [maxsize ttl expire].
  destruct (1 >? maxsize (conversation_ttl_cache g))%Z; [discriminate|].
  simpl. intros [= ->] Hwindow. exists context.
  unfold values. simpl links. rewrite filter_app, map_app.
  apply in_or_app. right. cbn [filter].
  replace (live read_time _) with true; [now left|].
  symmetry. unfold live. simpl. apply Z.ltb_lt. lia.
Qed.

(** X23: Two rounds of [conversation]: the text that the second round
    searches with and sends to the service holds the question and the
    reply of the first, whatever the second question is. *)
Theorem next_round_prompt_holds_the_last_round :
  forall (g : Globals) (first_query next_query reply : string) (d d' : bool),
    fst (conversation first_query d g) = Ok reply ->
    exists text rest,
      new_events (conversation next_query d') (snd (conversation first_query d g))
      = SimilaritySearch text :: rest
      /\ Forall (follows_search text) rest
      /\ occurs_in first_query text
      /\ occurs_in reply text
      /\ occurs_in next_query text.
Proof.
  intros g first_query next_query reply d d' Hreply.
  destruct (conversation_recorded g first_query d reply Hreply) as (context & Hin).
  set (g1 := snd (conversation first_query d g)) in *.
  set (text := compose_query (render_history (conversation_history g1)) next_query).
  destruct (process_chat_effects text d' g1) as (_ & rest & Ht & Hf & _).
  destruct (entry_in_composed_query _ _ next_query Hin) as (Hu & _ & Hr).
  exists text, rest. split; [|split; [assumption|]].
  - apply new_events_app. now rewrite conversation_trace.
  - split; [exact Hu|]. split; [exact Hr|]. apply occurs_in_compose_query.
Qed.

(** X24: Two rounds of [conversation_cache]: the second round's text holds
    the question and the reply of the first when the second snapshot is
    taken less than the time to live after the first round stored its
    entry. *)
Theorem next_cached_round_prompt_holds_the_last_round :
  forall (g : Globals) (clock clock' : Clock) (first_query next_query reply : string)
         (d d' : bool),
    fst (conversation_cache clock first_query d g) = Ok reply ->
    (timer_at_store clock <= timer_at_snapshot clock'
     < timer_at_store clock + ttl (conversation_ttl_cache g))%Z ->
    exists text rest,
      new_events (conversation_cache clock' next_query d')
        (snd (conversation_cache clock first_query d g))
      = SimilaritySearch text :: rest
      /\ Forall (follows_search text) rest
      /\ occurs_in first_query text
      /\ occurs_in reply text
      /\ occurs_in next_query text.
Proof.
  intros g clock clock' first_query next_query reply d d' Hreply Hwindow.
  destruct (conversation_cache_recorded g clock first_query d reply
              (timer_at_snapshot clock') Hreply Hwindow) as (context & Hin).
  set (g1 := snd (conversation_cache clock first_query d g)) in *.
  set (text := compose_query
                 (render_history
                    (values (timer_at_snapshot clock') (conversation_ttl_cache g1)))
                 next_query).
  destruct (process_chat_effects text d' g1) as (_ & rest & Ht & Hf & _).
  destruct (entry_in_composed_query _ _ next_query Hin) as (Hu & _ & Hr).
  exists text, rest. split; [|split; [assumption|]].
  - apply new_events_app. now rewrite conversation_cache_trace.
  - split; [exact Hu|]. split; [exact Hr|]. apply occurs_in_compose_query.
Qed.

End RoundsMore.

(** ** The chat loop *)

Section LoopFacts.

Context {collab : Collaborators}.

Lemma same_index_refl (g : Globals) : same_index g g.
Proof. repeat split. Qed.

Lemma same_index_sym (g g' : Globals) : same_index g g' -> same_index g' g.
Proof. intros (H1 & H2 & H3 & H4). repeat split; congruence. Qed.

Lemma same_index_trans (g1 g2 g3 : Globals) :
  same_index g1 g2 -> same_index g2 g3 -> same_index g1 g3.
Proof.
  intros (H1 & H2 & H3 & H4) (K1 & K2 & K3 & K4). repeat split; congruence.
Qed.

(** One turn of the loop. *)
Lemma chat_loop_step (user_query : string) (rest : list string) (g : Globals) :
  chat_loop (user_query :: rest) g =
  let g1 := log_event (Printed input_prompt) g in
  if is_quit user_query
  then (Ok Exited, log_event (Printed "Exiting the chat. Goodbye!") g1)
  else
    let g2 := log_event (Printed ("User: " +++ PyStr.quote +++ user_query +++ PyStr.quote))
                (log_event (Printed "--------------------") g1) in
    match chat user_query false g2 with
    | (Ok response, g3) => chat_loop rest (log_event (Printed ("AI: " +++ response)) g3)
    | (Raise e, g3) => (Raise e, g3)
    end.
Proof.
  cbn [chat_loop]. unfold emit, modify, bind at 1. cbv beta iota zeta.
  destruct (is_quit user_query); [reflexivity|].
  unfold bind at 1. cbv beta iota. unfold bind at 1. cbv beta iota.
  unfold bind at 1.
  destruct (chat user_query false _) as [[response|e] g3]; reflexivity.
Qed.

(** X25: The loop stops at a quit line: what follows it is never read, and
    the run does not end waiting for input. *)
Theorem chat_loop_stops_at_quit :
  forall (before after : list string) (quit_line : string) (g : Globals),
    is_quit quit_line = true ->
    chat_loop (before ++ quit_line :: after) g = chat_loop (before ++ [quit_line]) g
    /\ fst (chat_loop (before ++ quit_line :: after) g) <> Ok AwaitingInput.
Proof.
  intros before after quit_line g Hquit. revert g.
  induction before as [|q rest IH]; intros g.
  - simpl app. rewrite !chat_loop_step, Hquit. cbv zeta. split; [reflexivity|].
    simpl. discriminate.
  - simpl app. rewrite !chat_loop_step. cbv zeta.
    destruct (is_quit q); [split; [reflexivity | simpl; discriminate]|].
    destruct (chat q false _) as [[response|e] g3].
    + apply IH.
    + split; [reflexivity | simpl; discriminate].
Qed.

Lemma searched_app (a b : list Event) : searched (a ++ b) = searched a ++ searched b.
Proof. apply flat_map_app. Qed.

Lemma searched_follows (query : string) (events : list Event) :
  Forall (follows_search query) events -> searched events = [].
Proof.
  induction 1 as [|e rest He _ IH]; [reflexivity|].
  destruct e; simpl in *; [contradiction | assumption | assumption].
Qed.

(** What [chat] adds to the trace, and what it leaves alone. *)
Lemma chat_trace (user_query : string) (is_debug : bool) (g : Globals) :
  same_index g (snd (chat user_query is_debug g))
  /\ exists rest,
       trace (snd (chat user_query is_debug g))
       = trace g ++ SimilaritySearch user_query :: rest
       /\ searched rest = [].
Proof.
  rewrite chat_state. split; [apply process_chat_frame|].
  destruct (process_chat_effects user_query is_debug g) as (_ & rest & Ht & Hf & _).
  exists rest. split; [assumption|]. eapply searched_follows; eassumption.
Qed.

(** A run of the loop that does not raise: its searches are the inputs
    before the first quit line. *)
Lemma chat_loop_completed (inputs : list string) :
  forall g outcome,
    fst (chat_loop inputs g) = Ok outcome ->
    outcome = (if existsb is_quit inputs then Exited else AwaitingInput)
    /\ exists events,
         trace (snd (chat_loop inputs g)) = trace g ++ events
         /\ searched events = before_quit inputs.
Proof.
  induction inputs as [|q rest IH]; intros g outcome.
  - simpl. intros [= <-]. split; [reflexivity|]. now exists [Printed input_prompt].
  - rewrite chat_loop_step. cbv zeta. simpl before_quit. simpl existsb.
    destruct (is_quit q) eqn:Hq.
    + simpl. intros [= <-]. split; [reflexivity|].
      exists [Printed input_prompt; Printed "Exiting the chat. Goodbye!"].
      now rewrite <- app_assoc.
    + set (g2 := log_event _ (log_event _ (log_event _ g))).
      destruct (chat_trace q false g2) as (_ & after_search & Ht & Hnone).
      destruct (chat q false g2) as [[response|e] g3]; [|discriminate].
      simpl in Ht. intros Hend.
      destruct (IH _ _ Hend) as (Hout & events & Hev & Hs).
      split; [assumption|].
      exists ([Printed input_prompt; Printed "--------------------";
               Printed ("User: " +++ PyStr.quote +++ q +++ PyStr.quote)]
              ++ SimilaritySearch q :: after_search
              ++ Printed ("AI: " +++ response) :: events).
      split.
      * rewrite Hev. simpl trace. rewrite Ht. subst g2. simpl trace.
        rewrite <- !app_assoc. reflexivity.
      * rewrite searched_app. simpl. rewrite searched_app, Hnone. simpl.
        now rewrite Hs.
Qed.

(** A run of the loop that raises: it raised in [chat], on the last
    input it searched for. *)
Lemma chat_loop_failed (inputs : list string) :
  forall g e,
    fst (chat_loop inputs g) = Raise e ->
    exists answered failed later events,
      before_quit inputs = answered ++ failed :: later
      /\ trace (snd (chat_loop inputs g)) = trace g ++ events
      /\ searched events = answered ++ [failed]
      /\ (forall g', same_index g g' -> fst (chat failed false g') = Raise e).
Proof.
  induction inputs as [|q rest IH]; intros g e.
  - simpl. discriminate.
  - rewrite chat_loop_step. cbv zeta. simpl before_quit.
    destruct (is_quit q) eqn:Hq; [discriminate|].
    set (g2 := log_event _ (log_event _ (log_event _ g))).
    assert (Hsame : same_index g g2) by (repeat split).
    destruct (chat_trace q false g2) as (Hidx & after_search & Ht & Hnone).
    destruct (chat q false g2) as [[response|e'] g3] eqn:Hchat; simpl in Ht, Hidx.
    + intros Hraise.
      destruct (IH _ _ Hraise) as (answered & failed & later & events & Hb & Hev & Hs & Hf).
      exists (q :: answered), failed, later,
        ([Printed input_prompt; Printed "--------------------";
          Printed ("User: " +++ PyStr.quote +++ q +++ PyStr.quote)]
         ++ SimilaritySearch q :: after_search
         ++ Printed ("AI: " +++ response) :: events).
      split; [now rewrite Hb|]. split; [|split].
      * rewrite Hev. simpl trace. rewrite Ht. subst g2. simpl trace.
        rewrite <- !app_assoc. reflexivity.
      * rewrite searched_app. simpl. rewrite searched_app, Hnone. simpl.
        now rewrite Hs.
      * intros g' Hg'. apply Hf.
        apply same_index_trans with (g2 := g); [|assumption].
        apply same_index_sym.
        apply same_index_trans with (g2 := g2); [assumption|].
        apply same_index_trans with (g2 := g3); [assumption | repeat split].
    + simpl. intros [= ->].
      exists [], q, (before_quit rest),
        ([Printed input_prompt; Printed "--------------------";
          Printed ("User: " +++ PyStr.quote +++ q +++ PyStr.quote)]
         ++ SimilaritySearch q :: after_search).
      split; [reflexivity|]. split; [|split].
      * rewrite Ht. subst g2. simpl trace. rewrite <- !app_assoc. reflexivity.
      * rewrite searched_app. simpl. now rewrite Hnone.
      * intros g' Hg'.
        rewrite (proj2 (results_same_index g2 g' q 0%Z false
                          (same_index_trans _ _ _ (same_index_sym _ _ Hsame) Hg'))).
        now rewrite Hchat.
Qed.

(** X26: A run of the loop that does not raise has answered every input
    before the first quit line, once each and in the order typed, and
    ends by [break] when there was a quit line and waiting for input
    otherwise. *)
Theorem chat_loop_answers_inputs_in_order :
  forall (inputs : list string) (g : Globals) (outcome : LoopEnd),
    fst (chat_loop inputs g) = Ok outcome ->
    searched (new_events (chat_loop inputs) g) = before_quit inputs
    /\ outcome = (if existsb is_quit inputs then Exited else AwaitingInput).
Proof.
  intros inputs g outcome Hend.
  destruct (chat_loop_completed inputs g outcome Hend) as (Hout & events & Hev & Hs).
  now rewrite (new_events_app _ _ _ Hev).
Qed.

(** X27: Nothing catches an exception of [chat] in the loop: a run that
    raises has raised at a query that [chat] cannot answer on this
    index, with the exception of [chat]; the inputs before it were
    answered and no input after it was searched for. *)
Theorem chat_loop_stops_at_the_first_failure :
  forall (inputs : list string) (g : Globals) (e : exn),
    fst (chat_loop inputs g) = Raise e ->
    exists answered failed later,
      before_quit inputs = answered ++ failed :: later
      /\ searched (new_events (chat_loop inputs) g) = answered ++ [failed]
      /\ fst (chat failed false g) = Raise e.
Proof.
  intros inputs g e Hraise.
  destruct (chat_loop_failed inputs g e Hraise)
    as (answered & failed & later & events & Hb & Hev & Hs & Hf).
  exists answered, failed, later. split; [assumption|]. split.
  - now rewrite (new_events_app _ _ _ Hev).
  - apply Hf, same_index_refl.
Qed.

(** X28: The loop is a reader of the index: whatever is typed, the corpus,
    the fit, [vectors] and both conversation memories are after the run
    what they were before it. *)
Theorem chat_loop_changes_only_the_trace :
  forall (inputs : list string) (g : Globals),
    same_index g (snd (chat_loop inputs g))
    /\ same_memory g (snd (chat_loop inputs g)).
Proof.
  intros inputs. induction inputs as [|q rest IH]; intros g.
  - simpl. repeat split.
  - rewrite chat_loop_step. cbv zeta.
    destruct (is_quit q); [repeat split|].
    set (g2 := log_event _ (log_event _ (log_event _ g))).
    pose proof (process_chat_frame q false g2) as [Hi Hm].
    rewrite <- chat_state in Hi, Hm.
    destruct (chat q false g2) as [[response|e] g3]; simpl in Hi, Hm.
    + destruct (IH (log_event (Printed ("AI: " +++ response)) g3)) as [Hi' Hm'].
      destruct Hi as (H1 & H2 & H3 & H4), Hm as (H5 & H6).
      destruct Hi' as (K1 & K2 & K3 & K4), Hm' as (K5 & K6).
      simpl in *. repeat split; congruence.
    + simpl. destruct Hi as (H1 & H2 & H3 & H4), Hm as (H5 & H6).
      simpl in *. repeat split; congruence.
Qed.

(** The cell is its set-up followed by the loop. *)
Lemma chatbot_cell_run (inputs : list string) (g : Globals) :
  chatbot_cell inputs g =
  match (reset_database ;; assign_vectors (initialize "coffee.html")) g with
  | (Ok _, g1) => chat_loop inputs g1
  | (Raise e, g1) => (Raise e, g1)
  end.
Proof.
  unfold chatbot_cell, bind.
  destruct (reset_database g) as [[[]|e] g0]; [|reflexivity].
  destruct (assign_vectors _ g0) as [[[]|e] g1]; reflexivity.
Qed.

(** Indexing a file prints nothing and calls no service. *)
Lemma setup_trace (file_name : string) (g : Globals) :
  trace (snd ((reset_database ;; assign_vectors (initialize file_name)) g)) = trace g.
Proof.
  unfold initialize, process_and_add_document.
  destruct (reader_cases file_name (Py.split_dot_last file_name)) as [Hbad | (kind & Hread)].
  - rewrite Hbad. reflexivity.
  - unfold reset_database, assign_vectors, add_document, fit_transform,
      set_documents, set_original_documents, set_vectors, set_vectorizer,
      modify, bind, gets, raise, ret.
    cbn. rewrite Hread.
    destruct (file_text kind file_name) as [text|e]; [|reflexivity].
    destruct (process_text text CHUNK_SIZE) as [oc pc]. cbn.
    destruct (tfidf_fit pc) as [f|]; reflexivity.
Qed.

(** On an index in step with its corpus the retrieval fails for one
    reason only: a query without a chunk. *)
Lemma in_sync_retrieval (g : Globals) (f : Fitted) (query : string) (top_n : Z) :
  in_sync g f ->
  match snd (process_text query CHUNK_SIZE) with
  | [] => fst (find_best_matches query top_n g)
          = Raise (ValueError "Found array with 0 sample(s)")
  | _ :: _ => exists found, fst (find_best_matches query top_n g) = Ok found
  end.
Proof.
  intros (Hfit & Hvec & Hlen).
  destruct (snd (process_text query CHUNK_SIZE)) as [|chunk more] eqn:Hquery.
  - rewrite find_best_matches_run, best_match_indices_run, similarities_run.
    simpl fst. now rewrite Hfit, Hquery.
  - assert (Hidx : exists indices, fst (best_match_indices query top_n g) = Ok indices).
    { rewrite best_match_indices_run, similarities_run. simpl fst.
      rewrite Hfit, Hvec, Hquery.
      unfold mat_mul_T, transform. simpl. rewrite Nat.eqb_refl. simpl. eauto. }
    destruct Hidx as (indices & Hidx).
    pose proof (best_match_indices_bound _ _ _ _ _ Hvec Hidx) as Hb.
    simpl in Hb. rewrite length_map in Hb.
    rewrite find_best_matches_run.
    pose proof (best_match_indices_state query top_n g) as Hs.
    destruct (best_match_indices query top_n g) as [[idx|e] g']; [|discriminate].
    simpl in Hidx, Hs. injection Hidx as ->. subst g'. simpl.
    rewrite !select_in_bounds; [|assumption | now rewrite Hlen].
    simpl. eauto.
Qed.

(** X29: The last cell of [chatbot.ipynb] can raise in three places and no
    other.  Either indexing [coffee.html] raised, and then the loop never
    started: nothing was printed and nothing was searched.  Or the loop
    raised at an input before the first quit line, and then the input
    either gave no chunk to search with (for a sentence splitter that
    finds no sentence in it, as in an empty line), which sklearn refuses
    with [ValueError], or was searched with success and the
    text-generation service raised on it. *)
Theorem chatbot_cell_raises_in_three_places :
  forall (inputs : list string) (g : Globals) (e : exn),
    fst (chatbot_cell inputs g) = Raise e ->
    (fst ((reset_database ;; assign_vectors (initialize "coffee.html")) g) = Raise e
     /\ new_events (chatbot_cell inputs) g = [])
    \/ exists failed,
         In failed (before_quit inputs)
         /\ ((snd (process_text failed CHUNK_SIZE) = []
              /\ exists msg, e = ValueError msg)
             \/ exists context,
                  co_chat cohere_model (chat_messages failed context) = Raise e).
Proof.
  intros inputs g e Hraise.
  pose proof (setup_trace "coffee.html" g) as Htrace.
  unfold new_events. rewrite chatbot_cell_run in Hraise |- *.
  destruct ((reset_database ;; assign_vectors (initialize "coffee.html")) g)
    as [[[]|e0] g1] eqn:Hsetup.
  - right.
    destruct (chat_loop_failed inputs g1 e Hraise)
      as (answered & failed & later & events & Hb & _ & _ & Hf).
    specialize (Hf g1 (same_index_refl g1)).
    exists failed. split; [rewrite Hb; apply in_or_app; right; now left|].
    unfold initialize in Hsetup. apply reset_process_state in Hsetup.
    destruct Hsetup as (text & f & _ & Hg1).
    assert (Hsync : in_sync g1 f).
    { subst g1. split; [reflexivity|]. split; [reflexivity|].
      apply process_text_aligned. }
    pose proof (in_sync_retrieval g1 f failed NUMBER_OF_MATCHES Hsync) as Hfind.
    revert Hf. unfold chat, bind. rewrite process_chat_run.
    destruct (snd (process_text failed CHUNK_SIZE)) as [|chunk more].
    + rewrite Hfind. simpl. intros [= <-]. left. split; [reflexivity | eauto].
    + destruct Hfind as ([originals processed] & ->). cbv zeta.
      destruct (co_chat cohere_model
                  (chat_messages failed (Py.join (Py.nl +++ Py.nl) originals)))
        as [reply|e'] eqn:Hchat; simpl; [discriminate|].
      intros [= <-]. right. now exists (Py.join (Py.nl +++ Py.nl) originals).
  - left. simpl in Hraise, Htrace. injection Hraise as <-. split; [reflexivity|].
    simpl. rewrite Htrace. apply skipn_all.
Qed.

End LoopFacts.

(** * Concrete runs *)

(** Each conjunct of a closed statement, by evaluation. *)
Ltac by_evaluation :=
  intros;
  repeat match goal with |- _ /\ _ => split end;
  vm_compute; solve [reflexivity | discriminate].

Section Runs.

Existing Instance Demo.up.

(** ** Chunker *)

(** C10 at a chunk size of 5: the first chunk is empty. *)
Lemma process_text_oversized_first_sentence_witness :
  sent_tokenize "Hello world. Bye." = ["Hello world."; "Bye."]
  /\ (Z.of_nat (Py.len "Hello world.") > 5)%Z
  /\ exists oc pc,
       process_text "Hello world. Bye." 5 = ("" :: oc, "" :: pc)
       /\ List.length oc = List.length pc.
Proof.
  split; [reflexivity|]. split; [reflexivity|].
  apply (process_text_oversized_first_sentence
           "Hello world. Bye." 5 "Hello world." ["Bye."]);
    reflexivity.
Defined.

(** C5 fails as stated: the empty text gives no chunk, and a text of two
    sentences on two lines gives a chunk that starts with a space and has
    the line break replaced, so neither the chunk nor the trimmed chunk
    is the trimmed text. *)
Lemma whole_document_chunk_is_not_the_trimmed_text :
  (Z.of_nat (Py.len "") <= CHUNK_SIZE)%Z
  /\ fst (process_text "" CHUNK_SIZE) = []
  /\ (Z.of_nat (Py.len ("Hi there." +++ Py.nl +++ "Bye now.")) <= CHUNK_SIZE)%Z
  /\ fst (process_text ("Hi there." +++ Py.nl +++ "Bye now.") CHUNK_SIZE)
     = [" Hi there. Bye now."]
  /\ " Hi there. Bye now." <> Py.strip ("Hi there." +++ Py.nl +++ "Bye now.")
  /\ Py.strip " Hi there. Bye now." <> Py.strip ("Hi there." +++ Py.nl +++ "Bye now.").
Proof.
  by_evaluation.
Qed.

Lemma process_text_whole_document_witness :
  (Z.of_nat (Py.len "The cat sat. The dog ran. Birds fly south.") <= CHUNK_SIZE)%Z
  /\ process_text "The cat sat. The dog ran. Birds fly south." CHUNK_SIZE
     = ([" The cat sat. The dog ran. Birds fly south."],
        ["the cat sat. the dog ran. birds fly south."]).
Proof.
  split; [vm_compute; discriminate|].
  rewrite (process_text_whole_document
             "The cat sat. The dog ran. Birds fly south." CHUNK_SIZE);
    [reflexivity | vm_compute; discriminate | vm_compute; discriminate].
Defined.

(** ** Vector index *)

(** C3 fails as stated: the two chunks score the same against a query
    that shares no term with them, and the one added last comes out
    first; and a query without sentences raises instead of returning. *)
Lemma equal_scores_come_out_last_added_first :
  documents Demo.indexed = ["the cat sat on the mat."; "the dog ran in the park."]
  /\ fst (similarities "Where do birds go?" Demo.indexed) = Ok [[0%Q; 0%Q]]
  /\ fst (find_best_matches "Where do birds go?" NUMBER_OF_MATCHES Demo.indexed)
     = Ok ([" The dog ran in the park."; " The cat sat on the mat."],
           ["the dog ran in the park."; "the cat sat on the mat."])
  /\ is_ok (fst (find_best_matches "" NUMBER_OF_MATCHES Demo.indexed)) = false.
Proof.
  by_evaluation.
Qed.

Lemma find_best_matches_top_n_witness :
  in_sync Demo.indexed Demo.fitted
  /\ snd (process_text "Where is the dog?" CHUNK_SIZE) = ["where is the dog?"]
  /\ exists indices,
       fst (find_best_matches "Where is the dog?" 1 Demo.indexed)
       = Ok (map (fun i => nth i (original_documents Demo.indexed) "") indices,
             map (fun i => nth i (documents Demo.indexed) "") indices)
       /\ List.length indices = 1.
Proof.
  assert (Hsync : in_sync Demo.indexed Demo.fitted)
    by (split; [|split]; reflexivity).
  assert (Hquery : snd (process_text "Where is the dog?" CHUNK_SIZE)
                   = ["where is the dog?"]) by reflexivity.
  split; [exact Hsync|]. split; [exact Hquery|].
  destruct (find_best_matches_top_n Demo.indexed Demo.fitted "Where is the dog?" 1
              "where is the dog?" [] Hsync Hquery ltac:(lia))
    as (indices & Hfound & Hlen & _).
  exists indices. split; [exact Hfound | exact Hlen].
Defined.

Lemma query_before_any_document_raises_witness :
  vectorizer fresh = None
  /\ exists e,
       fst (find_best_matches "Where do birds go?" NUMBER_OF_MATCHES fresh) = Raise e
       /\ fst (chat "Where do birds go?" false fresh) = Raise e.
Proof.
  split; [reflexivity|].
  destruct (query_before_any_document_raises fresh "Where do birds go?"
              NUMBER_OF_MATCHES false (or_introl eq_refl))
    as (e & Hfind & _ & Hchat & _).
  exists e. split; assumption.
Defined.

(** C8 fails as stated: after [reset_database()] and [vectors =
    add_document(...)] a query computes the index 0, which is within the
    new corpus of one chunk, but the original-document list is empty:
    the index is out of its bounds and [find_best_matches] raises. *)
Lemma index_out_of_bounds_of_the_original_documents :
  let g := snd ((reset_database ;; assign_vectors (add_document ["birds fly south."]))
                  Demo.indexed) in
  fst ((reset_database ;; assign_vectors (add_document ["birds fly south."]))
         Demo.indexed) = Ok tt
  /\ fst (best_match_indices "Where do birds go?" NUMBER_OF_MATCHES g) = Ok [0]
  /\ List.length (documents g) = 1
  /\ List.length (original_documents g) = 0
  /\ Py.getitem (original_documents g) 0 = None
  /\ fst (find_best_matches "Where do birds go?" NUMBER_OF_MATCHES g) = Raise IndexError.
Proof.
  by_evaluation.
Qed.

Lemma query_after_reset_within_new_corpus_witness :
  (reset_database ;; assign_vectors (add_document ["birds fly south."])) Demo.indexed
  = (Ok tt, snd ((reset_database ;; assign_vectors (add_document ["birds fly south."]))
                   Demo.indexed))
  /\ fst (best_match_indices "Where do birds go?" NUMBER_OF_MATCHES
            (snd ((reset_database ;; assign_vectors (add_document ["birds fly south."]))
                    Demo.indexed)))
     = Ok [0]
  /\ Forall (fun i => i < 1) [0]
  /\ fst (find_best_matches "Where do birds go?" NUMBER_OF_MATCHES
            (snd ((reset_database ;; assign_vectors (add_document ["birds fly south."]))
                    Demo.indexed)))
     = Raise IndexError
  /\ (reset_database ;; assign_vectors (process_and_add_document "birds.txt" "txt"))
       Demo.indexed
     = (Ok tt, snd (Demo.setup "birds.txt" Demo.indexed))
  /\ fst (find_best_matches "Where do birds go?" NUMBER_OF_MATCHES
            (snd (Demo.setup "birds.txt" Demo.indexed)))
     = Ok ([" The cat sat. The dog ran. Birds fly south."],
           ["the cat sat. the dog ran. birds fly south."]).
Proof.
  destruct query_after_reset_within_new_corpus as (Hadd & Hfile & _).
  assert (H1 : (reset_database ;; assign_vectors (add_document ["birds fly south."]))
                 Demo.indexed
               = (Ok tt,
                  snd ((reset_database ;; assign_vectors (add_document ["birds fly south."]))
                         Demo.indexed))) by reflexivity.
  assert (H2 : fst (best_match_indices "Where do birds go?" NUMBER_OF_MATCHES
                 (snd ((reset_database ;; assign_vectors (add_document ["birds fly south."]))
                         Demo.indexed)))
               = Ok [0]) by (vm_compute; reflexivity).
  assert (H3 : (reset_database ;; assign_vectors (process_and_add_document "birds.txt" "txt"))
                 Demo.indexed
               = (Ok tt, snd (Demo.setup "birds.txt" Demo.indexed))) by reflexivity.
  assert (H4 : fst (best_match_indices "Where do birds go?" NUMBER_OF_MATCHES
                      (snd (Demo.setup "birds.txt" Demo.indexed)))
               = Ok [0]) by (vm_compute; reflexivity).
  destruct (Hadd _ _ _ _ _ _ _ H1
              (conj eq_refl (conj eq_refl (conj eq_refl eq_refl))) H2)
    as (_ & Hbound & _ & _ & Hraise).
  split; [exact H1|]. split; [exact H2|].
  split; [exact Hbound|]. split; [exact Hraise|].
  split; [exact H3|].
  destruct (Hfile _ _ _ _ _ _ _ _ H3
              (conj eq_refl (conj eq_refl (conj eq_refl eq_refl))) H4)
    as (_ & _ & _ & Hfound).
  rewrite Hfound. reflexivity.
Defined.

(** ** Conversation memory *)

(** C4 fails as stated: three entries recorded under one timestamp into
    an empty cache of capacity two leave one entry, not two. *)
Lemma colliding_timestamps_leave_fewer_than_capacity :
  let rs := [Demo.recording "2025-01-01T10:00:00.000000" 0 "a";
             Demo.recording "2025-01-01T10:00:00.000000" 1 "b";
             Demo.recording "2025-01-01T10:00:00.000000" 2 "c"] in
  conversation_ttl_cache Demo.small_cache = TTL.empty 2 1800
  /\ List.length rs = 3
  /\ fst (record_all rs Demo.small_cache) = Ok tt
  /\ fst (snapshot 3 (snd (record_all rs Demo.small_cache)))
     = Ok [MkEntry "c" "" "ok" (Some "2025-01-01T10:00:00.000000")].
Proof.
  by_evaluation.
Qed.

Lemma capacity_and_expiry_witness :
  let rs := [Demo.recording "2025-01-01T10:00:00.000000" 0 "a";
             Demo.recording "2025-01-01T10:00:01.000000" 1 "b";
             Demo.recording "2025-01-01T10:00:02.000000" 2 "c"] in
  fst (snapshot 3 (snd (record_all rs Demo.small_cache)))
  = Ok [MkEntry "b" "" "ok" (Some "2025-01-01T10:00:01.000000");
        MkEntry "c" "" "ok" (Some "2025-01-01T10:00:02.000000")]
  /\ exists entries,
       fst (snapshot 1800
              (snd ((add_to_conversation_cache "2025-01-01T10:00:00.000000" 0 "a" "" "ok" ;;
                     record_all [Demo.recording "2025-01-01T10:00:01.000000" 1 "b"])
                      fresh)))
       = Ok entries
       /\ forall e, In e entries -> timestamp e <> Some "2025-01-01T10:00:00.000000".
Proof.
  intros rs.
  destruct capacity_and_expiry as [Hcapacity Hexpiry].
  split.
  - assert (Hdistinct : NoDup (map rec_now rs))
      by (repeat constructor; simpl; intuition discriminate).
    assert (Hlive : forall r, In r rs -> (rec_time r <= 3 < rec_time r + 1800)%Z)
      by (intros r [<-|[<-|[<-|[]]]]; simpl; lia).
    exact (proj1 (proj2 (Hcapacity Demo.small_cache rs 3%Z
                           ltac:(simpl; lia) ltac:(simpl; lia)
                           (Forall_nil _) (fun l r (H : False) => False_ind _ H)
                           eq_refl Hdistinct Hlive))).
  - apply (Hexpiry fresh "2025-01-01T10:00:00.000000" 0%Z "a" "" "ok"
             [Demo.recording "2025-01-01T10:00:01.000000" 1 "b"] 1800%Z).
    + simpl. lia.
    + intros l [].
    + intros r [<-|[]]. simpl. discriminate.
    + simpl. lia.
Defined.

Lemma same_timestamp_overwrites_witness :
  let g1 := snd (add_to_conversation_cache "2025-01-01T10:00:00.000000" 0
                   "first" "" "ok" fresh) in
  let g2 := snd (add_to_conversation_cache "2025-01-01T10:00:00.000000" 5
                   "second" "" "ok" g1) in
  (exists others,
     fst (snapshot 10 g1)
     = Ok (others ++ [MkEntry "first" "" "ok" (Some "2025-01-01T10:00:00.000000")])
     /\ fst (snapshot 10 g2)
        = Ok (others ++ [MkEntry "second" "" "ok" (Some "2025-01-01T10:00:00.000000")]))
  /\ fst (snapshot 10 g2)
     = Ok [MkEntry "second" "" "ok" (Some "2025-01-01T10:00:00.000000")].
Proof.
  split; [|reflexivity].
  apply (same_timestamp_overwrites fresh "2025-01-01T10:00:00.000000" 0 5
           "first" "" "ok" "second" "" "ok" 10); simpl; lia.
Defined.

(** ** Conversation rounds *)

(** C1 fails as stated: in the second round the text handed to the
    similarity search is not the user query; it is the composed query,
    which holds the first round's user input, context and reply. *)
Lemma similarity_search_gets_the_history :
  let history :=
    "User: Where is the cat?" +++ Py.nl +++
    "Search Result Context:  The cat sat on the mat." +++ Py.nl +++ Py.nl +++
    " The dog ran in the park." +++ Py.nl +++
    "LLM Response: It is in the context." in
  let text := compose_query history "Which one is first?" in
  render_history (conversation_history Demo.after_one_round) = history
  /\ new_events (conversation "Which one is first?" false) Demo.after_one_round
     = [SimilaritySearch text;
        CohereChat cohere_model
          (chat_messages text
             (" The dog ran in the park." +++ Py.nl +++ Py.nl +++
              " The cat sat on the mat."))]
  /\ text <> "Which one is first?"
  /\ occurs_in history text.
Proof.
  cbv zeta. split; [vm_compute; reflexivity|].
  split; [vm_compute; reflexivity|].
  split; [vm_compute; discriminate|].
  apply occurs_in_compose_query.
Qed.

(** C2 fails as stated: after two recorded rounds, the token [/reset]
    is answered by the text-generation service like any query, and the
    memory then holds three entries, the last one for the token. *)
Lemma reset_token_calls_the_service_and_is_recorded :
  let round := conversation_cache Demo.clock3 "/reset" false in
  List.length (TTL.values 30 (conversation_ttl_cache Demo.after_two_cached_rounds)) = 2
  /\ fst (round Demo.after_two_cached_rounds) = Ok "It is in the context."
  /\ existsb is_cohere_chat (new_events round Demo.after_two_cached_rounds) = true
  /\ option_map (map user_input)
       (match fst (snapshot 32 (snd (round Demo.after_two_cached_rounds))) with
        | Ok entries => Some entries
        | Raise _ => None
        end)
     = Some ["Where is the cat?"; "Where is the dog?"; "/reset"].
Proof.
  by_evaluation.
Qed.

Lemma reset_token_is_an_ordinary_query_witness :
  let round := conversation_cache Demo.clock3 "/reset" false in
  fst (round Demo.after_two_cached_rounds) = Ok "It is in the context."
  /\ existsb is_cohere_chat (new_events round Demo.after_two_cached_rounds) = true
  /\ List.length (TTL.values 32 (conversation_ttl_cache Demo.after_two_cached_rounds)) = 2
  /\ exists context,
       fst (snapshot 32 (snd (round Demo.after_two_cached_rounds)))
       = Ok (TTL.values 32 (conversation_ttl_cache Demo.after_two_cached_rounds)
             ++ [MkEntry "/reset" context "It is in the context."
                   (Some "2025-01-01T10:00:30.000000")]).
Proof.
  cbv zeta.
  assert (Hreply : fst (conversation_cache Demo.clock3 "/reset" false
                          Demo.after_two_cached_rounds)
                   = Ok "It is in the context.") by (vm_compute; reflexivity).
  split; [exact Hreply|].
  destruct (reset_token_is_an_ordinary_query Demo.after_two_cached_rounds Demo.clock3
              false "/reset" (or_introl eq_refl))
    as (_ & Hok & _).
  - vm_compute. discriminate.
  - vm_compute. reflexivity.
  - destruct (Hok _ Hreply) as (Hcall & context & Hrest).
    cbv zeta in Hrest. destruct Hrest as [_ Hkeep].
    split; [exact Hcall|]. split; [vm_compute; reflexivity|].
    exists context.
    apply (Hkeep ltac:(vm_compute; discriminate) ltac:(vm_compute; reflexivity)
                 ltac:(vm_compute; lia) 32%Z).
    split; vm_compute; [discriminate | reflexivity].
Defined.



End Runs.

(** * Concrete runs of the further properties *)

Section MoreRuns.

Existing Instance Demo.up.

(** ** Chunker *)

(** At a chunk size of 5 the first chunk is empty and no other is; at a
    chunk size of 20 no chunk is empty. *)
Lemma process_text_empty_chunk_only_first_witness :
  Forall (fun s => s <> "") (sent_tokenize "Hello world. Bye.")
  /\ Forall (fun c => c <> "") (tl (fst (process_text "Hello world. Bye." 5)))
  /\ Forall (fun c => c <> "") (fst (process_text "Hello world. Bye." 20)).
Proof.
  assert (H : Forall (fun s => s <> "") (sent_tokenize "Hello world. Bye."))
    by (repeat constructor; discriminate).
  split; [exact H|]. split.
  - exact (proj1 (process_text_empty_chunk_only_first "Hello world. Bye." 5 H)).
  - apply (proj2 (process_text_empty_chunk_only_first "Hello world. Bye." 20 H)
             "Hello world." ["Bye."]); [reflexivity | vm_compute; discriminate].
Defined.

(** ** Vector index *)

Lemma add_document_twice_witness :
  (add_document ["the cat sat."] ;; add_document ["the dog ran."]) fresh
  = add_document (["the cat sat."] ++ ["the dog ran."]) fresh.
Proof.
  apply (add_document_twice fresh ["the cat sat."] ["the dog ran."]
           (Cafe.the_fit (snd (add_document ["the cat sat."] fresh)))
           (Cafe.the_fit (snd (add_document ["the cat sat."; "the dog ran."] fresh))));
    reflexivity.
Defined.

(** A first document without any word of two letters: the fit fails and
    the chunk stays in the corpus. *)
Lemma add_document_failure_keeps_the_chunks_witness :
  tfidf_fit (documents fresh ++ ["a ?"]) = None
  /\ (exists msg, fst (add_document ["a ?"] fresh) = Raise (ValueError msg))
  /\ documents (snd (add_document ["a ?"] fresh)) = ["a ?"].
Proof.
  assert (H : tfidf_fit (documents fresh ++ ["a ?"]) = None) by reflexivity.
  split; [exact H|].
  destruct (add_document_failure_keeps_the_chunks fresh ["a ?"] H)
    as (H1 & H2 & _).
  split; [exact H1 | exact H2].
Defined.

(** A file type that no reader takes, and a text file that is missing. *)
Lemma ingestion_failure_before_indexing_changes_nothing_witness :
  process_and_add_document "notes.docx" "docx" Demo.indexed
  = (Raise (ValueError "Unsupported file type"), Demo.indexed)
  /\ file_text "txt" "missing.txt" = Raise FileNotFoundError
  /\ process_and_add_document "missing.txt" "txt" Demo.indexed
     = (Raise FileNotFoundError, Demo.indexed).
Proof.
  split; [|split; [reflexivity|]].
  - apply (proj1 (ingestion_failure_before_indexing_changes_nothing
                    Demo.indexed "notes.docx" "docx")).
    split; [|split]; discriminate.
  - apply (proj2 (ingestion_failure_before_indexing_changes_nothing
                    Demo.indexed "missing.txt" "txt") FileNotFoundError);
      [reflexivity | right; right; reflexivity].
Defined.

(** ** A session and its queries *)

Lemma session_lookups_stay_in_range_witness :
  aligned (run_ops Cafe.session fresh)
  /\ fst (best_match_indices "Where is the dog?" 3 (run_ops Cafe.session fresh))
     = Ok [1; 0]
  /\ fst (find_best_matches "Where is the dog?" 3 (run_ops Cafe.session fresh))
     = Ok (map (fun i => nth i (original_documents (run_ops Cafe.session fresh)) "") [1; 0],
           map (fun i => nth i (documents (run_ops Cafe.session fresh)) "") [1; 0]).
Proof.
  assert (H : fst (best_match_indices "Where is the dog?" 3 (run_ops Cafe.session fresh))
              = Ok [1; 0]) by (vm_compute; reflexivity).
  destruct (session_lookups_stay_in_range Cafe.session "Where is the dog?" 3 [1; 0])
    as [Haligned Hlookup].
  split; [exact Haligned|]. split; [exact H|].
  exact (proj2 (Hlookup H)).
Defined.

(** [top_n = 0] returns both chunks of the corpus. *)
Lemma find_best_matches_nonpositive_top_n_witness :
  in_sync Demo.indexed Demo.fitted
  /\ exists indices,
       fst (find_best_matches "Where is the dog?" 0 Demo.indexed)
       = Ok (map (fun i => nth i (original_documents Demo.indexed) "") indices,
             map (fun i => nth i (documents Demo.indexed) "") indices)
       /\ Permutation indices (seq 0 (List.length (documents Demo.indexed))).
Proof.
  assert (Hsync : in_sync Demo.indexed Demo.fitted)
    by (split; [|split]; reflexivity).
  assert (Hquery : snd (process_text "Where is the dog?" CHUNK_SIZE)
                   = ["where is the dog?"]) by reflexivity.
  split; [exact Hsync|].
  destruct (find_best_matches_nonpositive_top_n Demo.indexed Demo.fitted
              "Where is the dog?" 0 "where is the dog?" [] Hsync Hquery ltac:(lia))
    as (indices & Hfound & _ & Hall).
  exists indices. split; [exact Hfound | exact (Hall eq_refl)].
Defined.

(** The fit knows the nine terms of both files, the rows have the five
    columns of the first. *)
Lemma stale_vectors_of_other_width_raise_witness :
  n_features (Cafe.the_fit Cafe.stale) = 9
  /\ n_cols (Cafe.the_rows Cafe.stale) = 5
  /\ exists msg,
       fst (find_best_matches "Where is the cat?" NUMBER_OF_MATCHES Cafe.stale)
       = Raise (ValueError msg).
Proof.
  split; [reflexivity|]. split; [reflexivity|].
  apply (stale_vectors_of_other_width_raise Cafe.stale
           (Cafe.the_fit Cafe.stale) (Cafe.the_rows Cafe.stale)
           "Where is the cat?" NUMBER_OF_MATCHES "where is the cat?" []);
    [reflexivity | reflexivity | vm_compute; discriminate | reflexivity].
Defined.

Lemma chat_calls_the_service_at_most_once_witness :
  is_ok (fst (chat "Where is the cat?" false Demo.indexed)) = true
  /\ service_calls (new_events (chat "Where is the cat?" false) Demo.indexed) = 1
  /\ service_calls (new_events (chat "Where is the cat?" false) fresh) = 0.
Proof.
  assert (H : is_ok (fst (chat "Where is the cat?" false Demo.indexed)) = true)
    by (vm_compute; reflexivity).
  split; [exact H|]. split.
  - exact (proj2 (chat_calls_the_service_at_most_once
                    Demo.indexed "Where is the cat?" false) H).
  - rewrite (proj1 (chat_calls_the_service_at_most_once fresh "Where is the cat?" false)).
    reflexivity.
Defined.

(** ** Replies and conversation rounds *)

(** The service answers with a space on either side. *)
Lemma chat_reply_is_trimmed_witness :
  co_chat cohere_model [] = Ok " It is in the context. "
  /\ fst (chat "Where is the cat?" false Demo.indexed) = Ok "It is in the context."
  /\ Py.strip "It is in the context." = "It is in the context.".
Proof.
  assert (H : fst (chat "Where is the cat?" false Demo.indexed)
              = Ok "It is in the context.") by (vm_compute; reflexivity).
  split; [reflexivity|]. split; [exact H|].
  exact (chat_reply_is_trimmed Demo.indexed "Where is the cat?" false
           "It is in the context." H).
Defined.

(** After a round of [conversation] the history has an entry, and
    [chat] answers as before it. *)
Lemma chat_depends_on_the_index_only_witness :
  conversation_history Demo.after_one_round <> conversation_history Demo.indexed
  /\ fst (chat "Where is the dog?" false Demo.after_one_round)
     = fst (chat "Where is the dog?" false Demo.indexed).
Proof.
  split; [vm_compute; discriminate|].
  apply (chat_depends_on_the_index_only Demo.indexed Demo.after_one_round
           "Where is the dog?" NUMBER_OF_MATCHES false).
  apply conversation_frame.
Defined.

(** The second round of a conversation searches with a text that holds
    the question and the reply of the first. *)
Lemma remembered_entries_are_in_the_prompt_witness :
  (exists text rest,
     new_events (conversation "Which one is first?" false) Demo.after_one_round
     = SimilaritySearch text :: rest
     /\ occurs_in "Where is the cat?" text
     /\ occurs_in "It is in the context." text)
  /\ (exists text rest,
        new_events (conversation_cache Demo.clock3 "Which one is first?" false)
          Demo.after_two_cached_rounds
        = SimilaritySearch text :: rest
        /\ occurs_in "Where is the dog?" text).
Proof.
  split.
  - destruct (proj1 (remembered_entries_are_in_the_prompt Demo.after_one_round
                       Demo.clock3 "Which one is first?" false
                       (MkEntry "Where is the cat?"
                          (" The cat sat on the mat." +++ Py.nl +++ Py.nl +++
                           " The dog ran in the park.")
                          "It is in the context." None)))
      as (text & rest & Hev & _ & Hu & _ & Hr).
    + vm_compute. left. reflexivity.
    + exists text, rest. split; [exact Hev|]. split; [exact Hu | exact Hr].
  - destruct (proj2 (remembered_entries_are_in_the_prompt Demo.after_two_cached_rounds
                       Demo.clock3 "Which one is first?" false
                       (MkEntry "Where is the dog?"
                          (" The dog ran in the park." +++ Py.nl +++ Py.nl +++
                           " The cat sat on the mat.")
                          "It is in the context."
                          (Some "2025-01-01T10:00:20.000000"))))
      as (text & rest & Hev & _ & Hu & _).
    + vm_compute. right. left. reflexivity.
    + exists text, rest. split; [exact Hev | exact Hu].
Defined.

Lemma prompt_grows_with_every_answered_round_witness :
  fst (conversation "Where is the cat?" false Demo.indexed) = Ok "It is in the context."
  /\ Py.len (compose_query
               (render_history (conversation_history Demo.after_one_round))
               "Which one is first?")
     >= Py.len (compose_query (render_history (conversation_history Demo.indexed))
                  "Which one is first?")
        + Py.len "Where is the cat?" + Py.len "It is in the context." + 45.
Proof.
  assert (H : fst (conversation "Where is the cat?" false Demo.indexed)
              = Ok "It is in the context.") by (vm_compute; reflexivity).
  split; [exact H|].
  exact (prompt_grows_with_every_answered_round Demo.indexed "Where is the cat?" false
           "It is in the context." "Which one is first?" H).
Defined.

Lemma newest_entry_is_read_last_witness :
  exists others,
    fst (snapshot 40
           (snd (add_to_conversation_cache "2025-01-01T10:00:30.000000" 32
                   "Which one is first?" "" "The cat."
                   Demo.after_two_cached_rounds)))
    = Ok (others ++ [MkEntry "Which one is first?" "" "The cat."
                       (Some "2025-01-01T10:00:30.000000")]).
Proof.
  apply (newest_entry_is_read_last Demo.after_two_cached_rounds
           "2025-01-01T10:00:30.000000" 32 "Which one is first?" "" "The cat." 40);
    [vm_compute; discriminate | split; vm_compute; [discriminate | reflexivity]].
Defined.

(** Two rounds were recorded at 12 and 22 seconds; at 5000 seconds the
    cache still holds their links and the round composes its query
    without them. *)
Lemma expired_history_is_left_out_of_the_prompt_witness :
  List.length (TTL.links (conversation_ttl_cache Demo.after_two_cached_rounds)) = 2
  /\ exists rest,
       new_events (conversation_cache Cafe.late "Which one is first?" false)
         Demo.after_two_cached_rounds
       = SimilaritySearch (compose_query "" "Which one is first?") :: rest
       /\ Forall (follows_search (compose_query "" "Which one is first?")) rest.
Proof.
  split; [vm_compute; reflexivity|].
  apply (expired_history_is_left_out_of_the_prompt Demo.after_two_cached_rounds
           Cafe.late "Which one is first?" false).
  intros l Hl. vm_compute in Hl.
  destruct Hl as [<-|[<-|[]]]; vm_compute; discriminate.
Defined.

(** The two rounds of the list-based conversation. *)
Lemma next_round_prompt_holds_the_last_round_witness :
  fst (conversation "Where is the cat?" false Demo.indexed) = Ok "It is in the context."
  /\ exists text rest,
       new_events (conversation "Which one is first?" false) Demo.after_one_round
       = SimilaritySearch text :: rest
       /\ occurs_in "Where is the cat?" text
       /\ occurs_in "It is in the context." text.
Proof.
  assert (H : fst (conversation "Where is the cat?" false Demo.indexed)
              = Ok "It is in the context.") by (vm_compute; reflexivity).
  split; [exact H|].
  destruct (next_round_prompt_holds_the_last_round Demo.indexed "Where is the cat?"
              "Which one is first?" "It is in the context." false false H)
    as (text & rest & Hev & _ & Hu & Hr & _).
  exists text, rest. split; [exact Hev|]. split; [exact Hu | exact Hr].
Defined.

(** The first round stores its entry at 12 seconds, the second takes
    its snapshot at 20. *)
Lemma next_cached_round_prompt_holds_the_last_round_witness :
  fst (conversation_cache Demo.clock1 "Where is the cat?" false Demo.indexed)
  = Ok "It is in the context."
  /\ exists text rest,
       new_events (conversation_cache Demo.clock2 "Where is the dog?" false)
         (snd (conversation_cache Demo.clock1 "Where is the cat?" false Demo.indexed))
       = SimilaritySearch text :: rest
       /\ occurs_in "Where is the cat?" text
       /\ occurs_in "It is in the context." text.
Proof.
  assert (H : fst (conversation_cache Demo.clock1 "Where is the cat?" false Demo.indexed)
              = Ok "It is in the context.") by (vm_compute; reflexivity).
  split; [exact H|].
  destruct (next_cached_round_prompt_holds_the_last_round Demo.indexed
              Demo.clock1 Demo.clock2 "Where is the cat?" "Where is the dog?"
              "It is in the context." false false H)
    as (text & rest & Hev & _ & Hu & Hr & _).
  - split; vm_compute; [discriminate | reflexivity].
  - exists text, rest. split; [exact Hev|]. split; [exact Hu | exact Hr].
Defined.

(** ** The chat loop *)

Lemma chat_loop_stops_at_quit_witness :
  is_quit "QUIT" = true
  /\ chat_loop ["Where is the cat?"; "QUIT"; "Where is the dog?"] Demo.indexed
     = chat_loop ["Where is the cat?"; "QUIT"] Demo.indexed.
Proof.
  split; [reflexivity|].
  exact (proj1 (chat_loop_stops_at_quit ["Where is the cat?"] ["Where is the dog?"]
                  "QUIT" Demo.indexed eq_refl)).
Defined.

Lemma chat_loop_answers_inputs_in_order_witness :
  fst (chat_loop ["Where is the cat?"; "Where is the dog?"; "Exit"; "Anyone?"]
         Demo.indexed) = Ok Exited
  /\ searched (new_events
                 (chat_loop ["Where is the cat?"; "Where is the dog?"; "Exit"; "Anyone?"])
                 Demo.indexed)
     = ["Where is the cat?"; "Where is the dog?"].
Proof.
  assert (H : fst (chat_loop ["Where is the cat?"; "Where is the dog?"; "Exit"; "Anyone?"]
                     Demo.indexed) = Ok Exited) by (vm_compute; reflexivity).
  split; [exact H|].
  exact (proj1 (chat_loop_answers_inputs_in_order _ _ _ H)).
Defined.

(** The service fails on the second of three questions: the first was
    answered, the third is never searched for. *)
Lemma chat_loop_stops_at_the_first_failure_witness :
  let inputs := ["Which coffee is best?"; "Who is the author?"; "Which is worst?"; "quit"] in
  fst (chat_loop (collab := Cafe.tired) inputs Cafe.opened) = Raise UpstreamError
  /\ exists answered failed later,
       before_quit inputs = answered ++ failed :: later
       /\ searched (new_events (chat_loop (collab := Cafe.tired) inputs) Cafe.opened)
          = answered ++ [failed]
       /\ fst (chat (collab := Cafe.tired) failed false Cafe.opened) = Raise UpstreamError.
Proof.
  intros inputs.
  assert (H : fst (chat_loop (collab := Cafe.tired) inputs Cafe.opened)
              = Raise UpstreamError) by (vm_compute; reflexivity).
  split; [exact H|].
  exact (chat_loop_stops_at_the_first_failure (collab := Cafe.tired)
           inputs Cafe.opened UpstreamError H).
Defined.

(** An empty line typed at the prompt ends the cell with [ValueError];
    the file was indexed and the first question answered. *)
Lemma chatbot_cell_raises_in_three_places_witness :
  let inputs := ["Which coffee is best?"; ""; "quit"] in
  fst (chatbot_cell (collab := Cafe.tired) inputs fresh)
  = Raise (ValueError "Found array with 0 sample(s)")
  /\ exists failed,
       In failed (before_quit inputs)
       /\ (snd (process_text (collab := Cafe.tired) failed CHUNK_SIZE) = []
           \/ exists context,
                co_chat (Collaborators := Cafe.tired) cohere_model
                  (chat_messages failed context)
                = Raise (ValueError "Found array with 0 sample(s)")).
Proof.
  intros inputs.
  assert (H : fst (chatbot_cell (collab := Cafe.tired) inputs fresh)
              = Raise (ValueError "Found array with 0 sample(s)"))
    by (vm_compute; reflexivity).
  split; [exact H|].
  destruct (chatbot_cell_raises_in_three_places (collab := Cafe.tired) _ _ _ H)
    as [[Hsetup _] | (failed & Hin & [[Hnone _] | Hservice])].
  - vm_compute in Hsetup. discriminate.
  - exists failed. split; [exact Hin | left; exact Hnone].
  - exists failed. split; [exact Hin | right; exact Hservice].
Defined.

End MoreRuns.
